(** * Entitlement and session subsystem of the members web application

    A shallow embedding of
      - [app/lib/auth/types.ts]       (the plan catalog [PLANS]),
      - [app/lib/auth/memberstack.ts] (the plan resolver [getBestPlanId]),
      - [app/lib/auth/session.ts]     (the session manager),
      - the subscription route handler ([GET], with [getPlanDetails]),
    followed by the properties the specification states about them.

    Conventions of the embedding.
      - A JavaScript string is a [string]; [toLowerCase] is the ASCII case
        mapping (plan identifiers, cookie values and dates are ASCII).
      - [string | null] is [option string]; a value that may be [undefined]
        is an [option] as well.
      - A JavaScript number is an integer [Num z], [NaN], a fraction or an
        infinity.  The numbers the modelled code works on are counters,
        catalog constants and the results of [Number] on the pieces of a
        date; [Number] rounds as a double does, arithmetic is exact.
      - A [Date] of the session layer is its time value in milliseconds.
      - [await] is sequencing: every handler runs alone on its [World].
      - What the code draws from outside (the id of [uuidv4()], the time
        of [new Date()], the outcome of [fetch]) is an argument.
      - The [try] block of a login or signup route is a computation
        whose result is none when a statement of it throws; the [catch]
        answers then. *)

From Stdlib Require Import ZArith Ascii String List Sorted Lia.
From stdpp Require Import base option list strings pretty gmap.

Local Open Scope string_scope.
Local Open Scope Z_scope.

(** ** JavaScript strings *)
Module Js.

Definition truthy (s : string) : bool :=
  match s with
  | EmptyString => false
  | String _ _ => true
  end.

(** [value || null] for a string that may be [undefined]. *)
Definition orNull (v : option string) : option string :=
  match v with
  | Some s => if truthy s then Some s else None
  | None => None
  end.

Definition lowerChar (c : ascii) : ascii :=
  let n := nat_of_ascii c in
  if ((65 <=? n) && (n <=? 90))%nat then ascii_of_nat (n + 32) else c.

Fixpoint toLowerCase (s : string) : string :=
  match s with
  | EmptyString => EmptyString
  | String c rest => String (lowerChar c) (toLowerCase rest)
  end.

Fixpoint startsWith (s p : string) {struct p} : bool :=
  match p, s with
  | EmptyString, _ => true
  | String _ _, EmptyString => false
  | String a p', String b s' => if Ascii.eqb a b then startsWith s' p' else false
  end.

(** [s.includes(p)]: [p] occurs in [s] at some position. *)
Fixpoint includes (s p : string) : bool :=
  startsWith s p ||
  match s with
  | EmptyString => false
  | String _ rest => includes rest p
  end.

(** [s.split(sep)] for a one-character separator; [cur] is the piece
    read so far. *)
Fixpoint splitFrom (sep : ascii) (cur : string) (s : string) : list string :=
  match s with
  | EmptyString => [cur]
  | String c rest =>
      if Ascii.eqb c sep then cur :: splitFrom sep EmptyString rest
      else splitFrom sep (cur ++ String c EmptyString) rest
  end.

Definition split (sep : ascii) (s : string) : list string :=
  splitFrom sep EmptyString s.

(** A number: an integer, [NaN], a fraction [m / 2^k] that is not an
    integer, or an infinity.  Arithmetic on numbers is exact; [Number]
    alone rounds, to the nearest double. *)
Inductive number :=
| Num (z : Z)
| NaN
| Frac (m k : Z)
| Infinity (negative : bool).

Definition digitValue (c : ascii) : option Z :=
  let n := nat_of_ascii c in
  if ((48 <=? n) && (n <=? 57))%nat then Some (Z.of_nat (n - 48)) else None.

Fixpoint decimalFrom (acc : Z) (s : string) : option Z :=
  match s with
  | EmptyString => Some acc
  | String c rest =>
      match digitValue c with
      | Some d => decimalFrom (10 * acc + d) rest
      | None => None
      end
  end.

(** [StrWhiteSpaceChar]: the white space and the line terminators, tab to
    carriage return and the space. *)
Definition isStrWhiteSpace (c : ascii) : bool :=
  let n := nat_of_ascii c in
  ((9 <=? n) && (n <=? 13))%nat || (n =? 32)%nat.

Fixpoint skipWhiteSpace (s : string) : string :=
  match s with
  | EmptyString => EmptyString
  | String c rest => if isStrWhiteSpace c then skipWhiteSpace rest else s
  end.

Definition onlyWhiteSpace (s : string) : bool :=
  match skipWhiteSpace s with
  | EmptyString => true
  | String _ _ => false
  end.

(** The value of a digit in a radix of at most 16, in either case. *)
Definition radixDigit (radix : Z) (c : ascii) : option Z :=
  let n := nat_of_ascii c in
  let v := if ((48 <=? n) && (n <=? 57))%nat then Some (Z.of_nat (n - 48))
           else if ((97 <=? n) && (n <=? 102))%nat then Some (Z.of_nat (n - 87))
           else if ((65 <=? n) && (n <=? 70))%nat then Some (Z.of_nat (n - 55))
           else None in
  match v with
  | Some d => if d <? radix then Some d else None
  | None => None
  end.

(** The longest run of digits [s] begins with: its value on top of [acc],
    its length on top of [count], and what follows it. *)
Fixpoint readDigits (radix : Z) (acc : Z) (count : nat) (s : string) : Z * nat * string :=
  match s with
  | EmptyString => (acc, count, EmptyString)
  | String c rest =>
      match radixDigit radix c with
      | Some d => readDigits radix (radix * acc + d) (S count) rest
      | None => (acc, count, s)
      end
  end.

(** What follows the prefix [p] in [s], when [s] begins with it. *)
Fixpoint stripPrefix (p s : string) {struct p} : option string :=
  match p, s with
  | EmptyString, _ => Some s
  | String _ _, EmptyString => None
  | String a p', String b s' => if Ascii.eqb a b then stripPrefix p' s' else None
  end.

(** What a numeric literal denotes before rounding:
    [mantissa * 10^exponent], signed, or an infinity. *)
Inductive Literal :=
| Finite (negative : bool) (mantissa exponent : Z)
| Infinite (negative : bool).

(** [NonDecimalIntegerLiteral]: [0x], [0o] or [0b], in either case, and at
    least one digit of that radix; with it, what follows the digits. *)
Definition nonDecimalLiteral (s : string) : option (Literal * string) :=
  match s with
  | String zero (String letter digits) =>
      if Ascii.eqb zero "0" then
        let radix :=
          if Ascii.eqb letter "x" || Ascii.eqb letter "X" then Some 16
          else if Ascii.eqb letter "o" || Ascii.eqb letter "O" then Some 8
          else if Ascii.eqb letter "b" || Ascii.eqb letter "B" then Some 2
          else None in
        match radix with
        | Some radix =>
            match readDigits radix 0 0 digits with
            | (_, O, _) => None
            | (value, S _, rest) => Some (Finite false value 0, rest)
            end
        | None => None
        end
      else None
  | _ => None
  end.

(** [ExponentPart], when [s] begins with one: the exponent and what
    follows.  An exponent indicator without digits makes no literal. *)
Definition exponentPart (s : string) : option (Z * string) :=
  match s with
  | String c rest =>
      if Ascii.eqb c "e" || Ascii.eqb c "E" then
        let signed :=
          match rest with
          | String sign unsigned =>
              if Ascii.eqb sign "+" then (1, unsigned)
              else if Ascii.eqb sign "-" then (-1, unsigned)
              else (1, rest)
          | EmptyString => (1, rest)
          end in
        match readDigits 10 0 0 signed.2 with
        | (_, O, _) => None
        | (value, S _, after) => Some (signed.1 * value, after)
        end
      else Some (0, s)
  | EmptyString => Some (0, s)
  end.

(** [StrUnsignedDecimalLiteral], [Infinity] apart: digits with an
    optional point, at least one digit on one side of it, and an optional
    exponent.  The result is the mantissa, the exponent of ten and what
    follows the literal. *)
Definition unsignedDecimal (s : string) : option (Z * Z * string) :=
  match readDigits 10 0 0 s with
  | (integer, n, rest) =>
      match rest with
      | String c fraction =>
          if Ascii.eqb c "." then
            match readDigits 10 integer 0 fraction with
            | (mantissa, m, tail) =>
                if (n + m =? 0)%nat then None
                else
                  match exponentPart tail with
                  | Some (e, after) => Some (mantissa, e - Z.of_nat m, after)
                  | None => None
                  end
            end
          else if (n =? 0)%nat then None
          else
            match exponentPart rest with
            | Some (e, after) => Some (integer, e, after)
            | None => None
            end
      | EmptyString => if (n =? 0)%nat then None else Some (integer, 0, EmptyString)
      end
  end.

Definition unsignedLiteral (negative : bool) (s : string) : option (Literal * string) :=
  match stripPrefix "Infinity" s with
  | Some rest => Some (Infinite negative, rest)
  | None =>
      match unsignedDecimal s with
      | Some (mantissa, exponent, rest) => Some (Finite negative mantissa exponent, rest)
      | None => None
      end
  end.

(** [StrDecimalLiteral]: an optional sign and an unsigned literal. *)
Definition decimalLiteral (s : string) : option (Literal * string) :=
  match s with
  | String c rest =>
      if Ascii.eqb c "+" then unsignedLiteral false rest
      else if Ascii.eqb c "-" then unsignedLiteral true rest
      else unsignedLiteral false s
  | EmptyString => None
  end.

(** [num / den] rounded to the nearest integer, a tie to the even one. *)
Definition roundHalfEven (num den : Z) : Z :=
  let q := num / den in
  let r := num mod den in
  if 2 * r <? den then q
  else if den <? 2 * r then q + 1
  else if Z.even q then q else q + 1.

(** The double nearest to [mantissa * 10^exponent], for a positive
    mantissa: a significand of 53 bits in the binade of the value, or
    what is left of it below [2^-1022]; a tie goes to the even
    significand; from [2^1024] on the result is an infinity. *)
Definition toDouble (mantissa exponent : Z) : number :=
  let p := if 0 <=? exponent then mantissa * 10 ^ exponent else mantissa in
  let q := if 0 <=? exponent then 1 else 10 ^ (- exponent) in
  let t := Z.log2 p - Z.log2 q in
  let below := if 0 <=? t then p <? q * 2 ^ t else p * 2 ^ (- t) <? q in
  let binade := Z.max (if below then t - 1 else t) (-1022) in
  let shift := 52 - binade in
  if 0 <=? shift then
    let significand := roundHalfEven (p * 2 ^ shift) q in
    if significand mod 2 ^ shift =? 0 then Num (significand / 2 ^ shift)
    else Frac significand shift
  else
    let significand := roundHalfEven p (q * 2 ^ (- shift)) in
    let value := significand * 2 ^ (- shift) in
    if 2 ^ 1024 <=? value then Infinity false else Num value.

Definition negate (a : number) : number :=
  match a with
  | Num z => Num (- z)
  | NaN => NaN
  | Frac m k => Frac (- m) k
  | Infinity negative => Infinity (negb negative)
  end.

Definition numberOfLiteral (literal : Literal) : number :=
  match literal with
  | Finite negative mantissa exponent =>
      let magnitude := if mantissa =? 0 then Num 0 else toDouble mantissa exponent in
      if negative then negate magnitude else magnitude
  | Infinite negative => Infinity negative
  end.

(** [Number(s)]: [s] is read as a [StringNumericLiteral].  Nothing but
    white space is 0; otherwise, between white space, a decimal literal
    with an optional sign, point and exponent, [Infinity] with an
    optional sign, or an unsigned literal in radix 16, 8 or 2; the value
    is rounded to the nearest double.  Any other text is [NaN].  Zero has
    no sign here: the program never tells [-0] from [0]. *)
Definition Number (s : string) : number :=
  match skipWhiteSpace s with
  | EmptyString => Num 0
  | text =>
      let literal :=
        match nonDecimalLiteral text with
        | Some found => Some found
        | None => decimalLiteral text
        end in
      match literal with
      | Some (literal, rest) => if onlyWhiteSpace rest then numberOfLiteral literal else NaN
      | None => NaN
      end
  end.

(** [a === z] for a number [a] that may be [undefined]. *)
Definition strictEq (a : option number) (z : Z) : bool :=
  match a with
  | Some (Num x) => x =? z
  | _ => false
  end.

(** [a - z]; [undefined - z] and [NaN - z] are [NaN]. *)
Definition minus (a : option number) (z : Z) : number :=
  match a with
  | Some (Num x) => Num (x - z)
  | Some (Frac m k) => Frac (m - z * 2 ^ k) k
  | Some (Infinity negative) => Infinity negative
  | _ => NaN
  end.

(** [a >= z]; false on [undefined] and [NaN]. *)
Definition geq (a : option number) (z : Z) : bool :=
  match a with
  | Some (Num x) => z <=? x
  | Some (Frac m k) => z * 2 ^ k <=? m
  | Some (Infinity negative) => negb negative
  | _ => false
  end.

(** [Math.max(z, a)]. *)
Definition Math_max (z : Z) (a : number) : number :=
  match a with
  | Num x => Num (Z.max z x)
  | NaN => NaN
  | Frac m k => if z * 2 ^ k <? m then Frac m k else Num z
  | Infinity negative => if negative then Num z else Infinity false
  end.

End Js.

(** ** The plan resolver ([MemberstackClient.getBestPlanId])

    The method is a function of its argument; its console output is left
    out. *)
Module Memberstack.

Record Rule := { pattern : string; mappedId : string }.

Definition hierarchy : list Rule :=
  [ {| pattern := "portfolio"; mappedId := "pln_portfolio-builder-fb6b0fzp" |};
    {| pattern := "office-team"; mappedId := "pln_portfolio-builder-fb6b0fzp" |};
    {| pattern := "team"; mappedId := "pln_portfolio-builder-fb6b0fzp" |};
    {| pattern := "premium"; mappedId := "pln_portfolio-builder-fb6b0fzp" |};
    {| pattern := "unlimited"; mappedId := "pln_portfolio-builder-fb6b0fzp" |};
    {| pattern := "advanced"; mappedId := "pln_advanced-ni690fz3" |};
    {| pattern := "pro"; mappedId := "pln_advanced-ni690fz3" |};
    {| pattern := "essentials"; mappedId := "pln_essentials-vb1k04zy" |};
    {| pattern := "starter"; mappedId := "pln_essentials-vb1k04zy" |};
    {| pattern := "basic"; mappedId := "pln_basic--n5180oor" |};
    {| pattern := "free"; mappedId := "pln_basic--n5180oor" |} ].

(** The [for ... of hierarchy] loop: [Some] is the early [return]. *)
Fixpoint firstMatch (rules : list Rule) (activePlanIds : list string) : option string :=
  match rules with
  | [] => None
  | rule :: rest =>
      match List.find (fun id => Js.includes (Js.toLowerCase id) (pattern rule)) activePlanIds with
      | Some matchingPlan =>
          if Js.truthy matchingPlan then Some (mappedId rule)
          else firstMatch rest activePlanIds
      | None => firstMatch rest activePlanIds
      end
  end.

Definition getBestPlanId (activePlanIds : list string) : option string :=
  match firstMatch hierarchy activePlanIds with
  | Some mapped => Some mapped
  | None => Js.orNull (head activePlanIds)
  end.

End Memberstack.


(** ** The plan catalog ([types.ts]) *)
Module Catalog.

Record Plan := {
  id : string;
  name : string;
  tier : Z;
  suburbReports : Z;
  propertyReports : Z;
  features : list string
}.

Definition PLANS : gmap string Plan :=
  list_to_map
    [ ("pln_basic--n5180oor",
       {| id := "pln_basic--n5180oor"; name := "Free"; tier := 0;
          suburbReports := 0; propertyReports := 0;
          features := ["5 AI property matches"; "Basic suburb reports"; "Limited filters"] |});
      ("pln_essentials-vb1k04zy",
       {| id := "pln_essentials-vb1k04zy"; name := "Essentials"; tier := 1;
          suburbReports := 2; propertyReports := 5;
          features := ["Unlimited AI property matches"; "2 suburb reports/month";
                       "5 property reports/month"] |});
      ("pln_advanced-ni690fz3",
       {| id := "pln_advanced-ni690fz3"; name := "Advanced"; tier := 2;
          suburbReports := 20; propertyReports := 30;
          features := ["Unlimited AI property matches"; "20 suburb reports/month";
                       "30 property reports/month"; "All filters + CSV export"] |});
      ("pln_portfolio-builder-fb6b0fzp",
       {| id := "pln_portfolio-builder-fb6b0fzp"; name := "Portfolio Builder"; tier := 3;
          suburbReports := -1; propertyReports := -1;
          features := ["Unlimited everything"; "Priority support"; "Custom reports"] |}) ].

(** [PLANS] is an object literal, so its prototype is [Object.prototype]
    and these names are found on it by [in] and by a property read. *)
Definition objectPrototype : list string :=
  [ "constructor"; "__defineGetter__"; "__defineSetter__"; "hasOwnProperty";
    "__lookupGetter__"; "__lookupSetter__"; "isPrototypeOf"; "propertyIsEnumerable";
    "toString"; "valueOf"; "__proto__"; "toLocaleString" ].

(** What a property read [PLANS[key]] yields. *)
Inductive Member :=
| Entry (plan : Plan)
| Inherited (key : string)
| Undefined.

(** [key in PLANS]: own keys and those of the prototype chain. *)
Definition hasProperty (key : string) : bool :=
  bool_decide (is_Some (PLANS !! key)) || bool_decide (key ∈ objectPrototype).

(** [PLANS[key]]. *)
Definition get (key : string) : Member :=
  match PLANS !! key with
  | Some plan => Entry plan
  | None => if bool_decide (key ∈ objectPrototype) then Inherited key else Undefined
  end.

(** The fields the subscription endpoint reads off the value it got.
    Every inherited member but [__proto__] is a function, whose [name] is
    its own name ([Object] for [constructor]); none has the other fields. *)
Definition nameOf (m : Member) : option string :=
  match m with
  | Entry plan => Some (name plan)
  | Inherited key =>
      if String.eqb key "constructor" then Some "Object"
      else if String.eqb key "__proto__" then None
      else Some key
  | Undefined => None
  end.

Definition idOf (m : Member) : option string :=
  match m with Entry plan => Some (id plan) | _ => None end.

Definition tierOf (m : Member) : option Js.number :=
  match m with Entry plan => Some (Js.Num (tier plan)) | _ => None end.

Definition suburbReportsOf (m : Member) : option Js.number :=
  match m with Entry plan => Some (Js.Num (suburbReports plan)) | _ => None end.

Definition propertyReportsOf (m : Member) : option Js.number :=
  match m with Entry plan => Some (Js.Num (propertyReports plan)) | _ => None end.

End Catalog.


(** ** The session manager ([session.ts]) *)
Module User.
Record t := {
  id : string;
  email : string;
  firstName : string;
  lastName : string;
  activePlans : list string;
  bestPlanId : option string;
  memberstackId : string
}.
End User.

Module UserSession.
Record t := {
  id : string;
  userEmail : string;
  memberstackId : string;
  firstName : string;
  lastName : string;
  activePlans : list string;
  bestPlanId : option string;
  createdAt : Z;
  lastAccessed : Z;
  expiresAt : Z;
  isActive : bool
}.

(** [session.lastAccessed = now] *)
Definition setLastAccessed (now : Z) (s : t) : t :=
  {| id := id s; userEmail := userEmail s; memberstackId := memberstackId s;
     firstName := firstName s; lastName := lastName s; activePlans := activePlans s;
     bestPlanId := bestPlanId s; createdAt := createdAt s; lastAccessed := now;
     expiresAt := expiresAt s; isActive := isActive s |}.

(** [session.isActive = false] *)
Definition deactivate (s : t) : t :=
  {| id := id s; userEmail := userEmail s; memberstackId := memberstackId s;
     firstName := firstName s; lastName := lastName s; activePlans := activePlans s;
     bestPlanId := bestPlanId s; createdAt := createdAt s; lastAccessed := lastAccessed s;
     expiresAt := expiresAt s; isActive := false |}.
End UserSession.

Module Session.

Definition SESSION_DURATION_MS : Z := 24 * 60 * 60 * 1000.

(** What a handler does to the outside: requests to the upstream backend
    and lines on the console (the first argument of the call). *)
Inductive Event :=
| FetchUserOrders (email : string)
| Console (message : string).

(** The state a handler runs on: the value of the [mib_session] cookie as
    the cookie store of the request shows it, the session store, and the
    events so far.  Both backends of [sessionStore] are the one finite map
    here: a record read back is the record written.  The time-to-live of
    the remote store is not modelled. *)
Record World := {
  cookie : option string;
  sessions : gmap string UserSession.t;
  trace : list Event
}.

Definition M (A : Type) : Type := World → A * World.

#[global] Instance M_ret : MRet M := λ A a w, (a, w).
#[global] Instance M_bind : MBind M :=
  λ A B f c w, let r := c w in f r.1 r.2.

Definition cookies_get : M (option string) := λ w, (cookie w, w).

Definition cookies_set (value : string) : M unit :=
  λ w, (tt, {| cookie := Some value; sessions := sessions w; trace := trace w |}).

Definition cookies_delete : M unit :=
  λ w, (tt, {| cookie := None; sessions := sessions w; trace := trace w |}).

Definition sessionStore_set (sessionId : string) (session : UserSession.t) : M unit :=
  λ w, (tt, {| cookie := cookie w; sessions := <[sessionId := session]> (sessions w);
               trace := trace w |}).

Definition sessionStore_get (sessionId : string) : M (option UserSession.t) :=
  λ w, (sessions w !! sessionId, w).

Definition sessionStore_delete (sessionId : string) : M unit :=
  λ w, (tt, {| cookie := cookie w; sessions := delete sessionId (sessions w);
               trace := trace w |}).

Definition emit (e : Event) : M unit :=
  λ w, (tt, {| cookie := cookie w; sessions := sessions w; trace := trace w ++ [e] |}).

Definition console_log (message : string) : M unit := emit (Console message).

(** [createSession(user)]; [uuid] is what [uuidv4()] returns and [now] the
    time value of [new Date()]. *)
Definition createSession (user : User.t) (uuid : string) (now : Z) : M string :=
  existingSessionId ← cookies_get;
  match existingSessionId with
  | Some existing =>
      if Js.truthy existing then
        console_log "[Session] Clearing existing session:";;
        sessionStore_delete existing
      else mret tt
  | None => mret tt
  end;;
  let sessionId := uuid in
  let session :=
    {| UserSession.id := sessionId;
       UserSession.userEmail := User.email user;
       UserSession.memberstackId := User.memberstackId user;
       UserSession.firstName := User.firstName user;
       UserSession.lastName := User.lastName user;
       UserSession.activePlans := User.activePlans user;
       UserSession.bestPlanId := User.bestPlanId user;
       UserSession.createdAt := now;
       UserSession.lastAccessed := now;
       UserSession.expiresAt := now + SESSION_DURATION_MS;
       UserSession.isActive := true |} in
  sessionStore_set sessionId session;;
  console_log "[Session] Created new session:";;
  cookies_set sessionId;;
  mret sessionId.

Definition getSession (now : Z) : M (option UserSession.t) :=
  sessionId ← cookies_get;
  match sessionId with
  | None =>
      console_log "[Session] No session cookie found";;
      mret None
  | Some sessionId =>
      if negb (Js.truthy sessionId) then
        console_log "[Session] No session cookie found";;
        mret None
      else
        session ← sessionStore_get sessionId;
        match session with
        | None =>
            console_log "[Session] Session not found in store for ID:";;
            cookies_delete;;
            mret None
        | Some session =>
            if negb (UserSession.isActive session) || (UserSession.expiresAt session <? now) then
              console_log "[Session] Session expired or inactive for user:";;
              sessionStore_delete sessionId;;
              cookies_delete;;
              mret None
            else
              let session := UserSession.setLastAccessed now session in
              sessionStore_set sessionId session;;
              console_log "[Session] Valid session found for user:";;
              mret (Some session)
        end
  end.

Definition getCurrentUser (now : Z) : M (option User.t) :=
  session ← getSession now;
  match session with
  | None => mret None
  | Some session =>
      mret (Some {| User.id := UserSession.id session;
                    User.email := UserSession.userEmail session;
                    User.firstName := UserSession.firstName session;
                    User.lastName := UserSession.lastName session;
                    User.activePlans := UserSession.activePlans session;
                    User.bestPlanId := UserSession.bestPlanId session;
                    User.memberstackId := UserSession.memberstackId session |})
  end.

Definition destroySession : M unit :=
  sessionId ← cookies_get;
  match sessionId with
  | Some sessionId =>
      if Js.truthy sessionId then
        session ← sessionStore_get sessionId;
        match session with
        | Some session => sessionStore_set sessionId (UserSession.deactivate session)
        | None => mret tt
        end;;
        sessionStore_delete sessionId
      else mret tt
  | None => mret tt
  end;;
  cookies_delete.

Definition isAuthenticated (now : Z) : M bool :=
  session ← getSession now;
  mret (bool_decide (is_Some session)).

End Session.

(** ** The subscription endpoint *)
Module Subscription.
Import Session.

Record Order := { report_category : string; date : string }.

(** The two readings the handler takes of [new Date()]: the year and the
    month index, January being 0. *)
Record Today := { getFullYear : Z; getMonth : Z }.

(** What [fetch] of the user's orders comes to: a rejected promise, a
    response that is not [ok], or the order list of an [ok] response.  The
    list is well typed: every order has its category and its date. *)
Inductive Upstream :=
| Rejected
| NotOk
| Orders (orders : list Order).

Inductive Access := unlimited | limited.

Record PlanInfo := {
  plan_id : option string;
  plan_name : option string;
  plan_tier : option Js.number;
  description : string
}.

Record Usage := {
  propertyReportsUsed : Z;
  propertyReportsLimit : option Js.number;
  propertyReportsLeft : Js.number;
  suburbReportsUsed : Z;
  suburbReportsLimit : option Js.number;
  suburbReportsLeft : Js.number
}.

Record Features := {
  suburbFinder : Access;
  propertyFinder : Access;
  csvExport : bool;
  prioritySupport : bool
}.

Record SubscriptionData := { plan : PlanInfo; usage : Usage; features : Features }.

Inductive Body :=
| ErrorBody (success : bool) (error : string)
| SubscriptionBody (success : bool) (subscription : SubscriptionData).

Record Response := { status : Z; body : Body }.

Definition getPlanDetails (planId : option string) : Catalog.Member :=
  match planId with
  | None => Catalog.get "pln_basic--n5180oor"
  | Some planId =>
      if negb (Js.truthy planId) then Catalog.get "pln_basic--n5180oor"
      else if Catalog.hasProperty planId then Catalog.get planId
      else if Js.includes planId "portfolio" then Catalog.get "pln_portfolio-builder-fb6b0fzp"
      else if Js.includes planId "advanced" then Catalog.get "pln_advanced-ni690fz3"
      else if Js.includes planId "essentials" then Catalog.get "pln_essentials-vb1k04zy"
      else Catalog.get "pln_basic--n5180oor"
  end.

Definition getPlanDescription (planName : option string) : string :=
  match planName with
  | Some planName =>
      if String.eqb planName "Portfolio Builder" then
        "Unlimited access to all Microburbs features and reports"
      else if String.eqb planName "Advanced" then
        "Extended access with 20 suburb reports and 30 property reports per month"
      else if String.eqb planName "Essentials" then
        "Basic access with 2 suburb reports and 5 property reports per month"
      else "Basic access to Microburbs features"
  | None => "Basic access to Microburbs features"
  end.

(** [year === currentYear && month - 1 === currentMonth], with [month]
    and [year] the second and third piece of the date. *)
Definition inCurrentMonth (today : Today) (order : Order) : bool :=
  let pieces := map Js.Number (Js.split "-" (date order)) in
  let month := pieces !! 1%nat in
  let year := pieces !! 2%nat in
  Js.strictEq year (getFullYear today)
  && Js.strictEq (Some (Js.minus month 1)) (getMonth today).

(** The body of [orders.forEach]; [used] is the pair
    ([propertyReportsUsed], [suburbReportsUsed]). *)
Definition countOrder (today : Today) (used : Z * Z) (order : Order) : Z * Z :=
  if inCurrentMonth today order then
    if String.eqb (report_category order) "Property" then (used.1 + 1, used.2)
    else if String.eqb (report_category order) "Suburb" then (used.1, used.2 + 1)
    else used
  else used.

Definition countOrders (today : Today) (orders : list Order) : Z * Z :=
  fold_left (countOrder today) orders (0, 0).

(** [GET()]; [sessionNow] is the time [getSession] reads, [upstream] the
    outcome of the fetch and [today] the date read inside the count. *)
Definition GET (sessionNow : Z) (upstream : Upstream) (today : Today) : M Response :=
  user ← getCurrentUser sessionNow;
  match user with
  | None =>
      mret {| status := 401; body := ErrorBody false "Not authenticated" |}
  | Some user =>
      console_log "[Subscription API] User:";;
      match getPlanDetails (User.bestPlanId user) with
      | Catalog.Undefined =>
          (* reading [planDetails.name] throws; the outer [catch] answers *)
          console_log "Subscription API error:";;
          mret {| status := 500; body := ErrorBody false "An error occurred" |}
      | planDetails =>
          console_log "[Subscription API] Resolved plan:";;
          emit (FetchUserOrders (User.email user));;
          used ← match upstream with
                 | Orders orders => mret (countOrders today orders)
                 | NotOk => mret (0, 0)
                 | Rejected =>
                     console_log "[Subscription API] Failed to fetch usage from Flask:";;
                     mret (0, 0)
                 end;
          let propertyReportsUsed := used.1 in
          let suburbReportsUsed := used.2 in
          let propertyReportsLimit := Catalog.propertyReportsOf planDetails in
          let suburbReportsLimit := Catalog.suburbReportsOf planDetails in
          let propertyReportsLeft :=
            if Js.strictEq propertyReportsLimit (-1) then Js.Num (-1)
            else Js.Math_max 0 (Js.minus propertyReportsLimit propertyReportsUsed) in
          let suburbReportsLeft :=
            if Js.strictEq suburbReportsLimit (-1) then Js.Num (-1)
            else Js.Math_max 0 (Js.minus suburbReportsLimit suburbReportsUsed) in
          let isUnlimited := Js.geq (Catalog.tierOf planDetails) 3 in
          let hasAdvancedFeatures := Js.geq (Catalog.tierOf planDetails) 2 in
          let subscriptionData :=
            {| plan :=
                 {| plan_id := Catalog.idOf planDetails;
                    plan_name := Catalog.nameOf planDetails;
                    plan_tier := Catalog.tierOf planDetails;
                    description := getPlanDescription (Catalog.nameOf planDetails) |};
               usage :=
                 {| propertyReportsUsed := propertyReportsUsed;
                    propertyReportsLimit := propertyReportsLimit;
                    propertyReportsLeft := propertyReportsLeft;
                    suburbReportsUsed := suburbReportsUsed;
                    suburbReportsLimit := suburbReportsLimit;
                    suburbReportsLeft := suburbReportsLeft |};
               features :=
                 {| suburbFinder :=
                      if isUnlimited || hasAdvancedFeatures then unlimited else limited;
                    propertyFinder :=
                      if isUnlimited || hasAdvancedFeatures then unlimited else limited;
                    csvExport := hasAdvancedFeatures;
                    prioritySupport := isUnlimited |} |} in
          mret {| status := 200; body := SubscriptionBody true subscriptionData |}
      end
  end.

End Subscription.


(** ** Notions the specification uses *)
Module Notions.

(** [p] occurs in [s] as a substring. *)
Definition occursIn (p s : string) : Prop :=
  ∃ before after : string, s = (before ++ p ++ after)%string.

(** An active plan string matches a rule of the resolver: the rule's
    pattern occurs in it, case-insensitively. *)
Definition matchesRule (planId : string) (rule : Memberstack.Rule) : Prop :=
  occursIn (Memberstack.pattern rule) (Js.toLowerCase planId).

Definition topTierId : string := "pln_portfolio-builder-fb6b0fzp".

Definition freeTierId : string := "pln_basic--n5180oor".

(** The rules of the top tier open the hierarchy. *)
Definition topBlock : list Memberstack.Rule := take 5 Memberstack.hierarchy.

(** [s] is a non-empty run of decimal digits that reads as [z]. *)
Definition numeral (s : string) (z : Z) : Prop :=
  s ≠ "" ∧ Js.decimalFrom 0 s = Some z.

(** [s] is a date in day-month-year form, the three numbers separated
    by hyphens. *)
Definition dayMonthYear (s : string) (day month year : Z) : Prop :=
  ∃ d m y : string,
    s = (d ++ "-" ++ m ++ "-" ++ y)%string
    ∧ numeral d day ∧ numeral m month ∧ numeral y year.

(** What [Date] reads for today: a month index from 0 to 11 and a year in
    the range of time values. *)
Definition calendar (today : Subscription.Today) : Prop :=
  0 ≤ Subscription.getMonth today ≤ 11
  ∧ -271821 ≤ Subscription.getFullYear today ≤ 275760.

(** The date of [order] is a day of the current month. *)
Definition thisMonth (today : Subscription.Today) (order : Subscription.Order) : Prop :=
  ∃ day month year,
    dayMonthYear (Subscription.date order) day month year
    ∧ month = Subscription.getMonth today + 1 ∧ year = Subscription.getFullYear today.

(** The date of [order] is a day of another month. *)
Definition otherMonth (today : Subscription.Today) (order : Subscription.Order) : Prop :=
  ∃ day month year,
    dayMonthYear (Subscription.date order) day month year
    ∧ ¬ (month = Subscription.getMonth today + 1 ∧ year = Subscription.getFullYear today).

(** The categories the endpoint keeps a count of. *)
Definition metered (order : Subscription.Order) : Prop :=
  Subscription.report_category order = "Property"
  ∨ Subscription.report_category order = "Suburb".

(** The usage the endpoint reports for an outcome of the fetch: the
    count over the orders of an [ok] response, zero otherwise. *)
Definition usageOf (today : Subscription.Today) (upstream : Subscription.Upstream) : Z * Z :=
  match upstream with
  | Subscription.Orders orders => Subscription.countOrders today orders
  | _ => (0, 0)
  end.

(** Remaining quota as the specification words it. *)
Definition remaining (limit used : Z) : Z :=
  if decide (limit = -1) then -1 else Z.max 0 (limit - used).

End Notions.

Import Notions.

(** ** Sample data for the worked examples *)
Module Sample.

Definition session (bestPlanId : option string) : UserSession.t :=
  {| UserSession.id := "sid-1"; UserSession.userEmail := "member@example.com";
     UserSession.memberstackId := "mem_1"; UserSession.firstName := "Ada";
     UserSession.lastName := "Lee";
     UserSession.activePlans := match bestPlanId with Some p => [p] | None => [] end;
     UserSession.bestPlanId := bestPlanId; UserSession.createdAt := 0;
     UserSession.lastAccessed := 0; UserSession.expiresAt := 86400000;
     UserSession.isActive := true |}.

(** A browser signed in on the plan [bestPlanId]. *)
Definition signedIn (bestPlanId : option string) : Session.World :=
  {| Session.cookie := Some "sid-1";
     Session.sessions := {[ "sid-1" := session bestPlanId ]};
     Session.trace := [] |}.

(** A browser without a cookie, on a store that holds one session. *)
Definition anonymous : Session.World :=
  {| Session.cookie := None;
     Session.sessions := {[ "sid-1" := session None ]};
     Session.trace := [] |}.

(** The first of November 2026. *)
Definition today : Subscription.Today :=
  {| Subscription.getFullYear := 2026; Subscription.getMonth := 10 |}.

Definition order (category date : string) : Subscription.Order :=
  {| Subscription.report_category := category; Subscription.date := date |}.

End Sample.

(** ** The rest of the authentication layer

    The member lookups of [MemberstackClient], [getMemberById] and
    [getMember], catch every failure and answer null, so a handler sees
    them as functions from the id or the email to a member or none.  What
    the vendor answers to either request is an argument of the handlers
    below.  The [env] field of a request only selects the client these
    lookups belong to. *)
Module Member.

Record PlanConnection := { planId : string; status : string }.

Record t := {
  id : string;
  email : string;                 (* [auth.email] *)
  first_name : option string;     (* [customFields['first-name']] *)
  last_name : option string;      (* [customFields['last-name']] *)
  planConnections : list PlanConnection
}.

Definition getActivePlanIds (member : t) : list string :=
  map planId
    (List.filter (λ conn, String.eqb (status conn) "ACTIVE") (planConnections member)).

(** A member as the answer of the vendor may have it: the interface
    [MemberstackMember] promises [auth], [customFields] and
    [planConnections], the answer holds each of them or not. *)
Record CustomFields := { first : option string; last : option string }.

Record Raw := {
  raw_id : string;
  raw_auth : option string;                           (* [auth.email] *)
  raw_customFields : option CustomFields;
  raw_planConnections : option (list PlanConnection)
}.

(** A member that has every field of the interface. *)
Definition raw (member : t) : Raw :=
  {| raw_id := id member;
     raw_auth := Some (email member);
     raw_customFields :=
       Some {| first := first_name member; last := last_name member |};
     raw_planConnections := Some (planConnections member) |}.

(** [getActivePlanIds(member)] on an answer of the vendor: reading
    [planConnections.filter] throws when there are no [planConnections],
    which is none here. *)
Definition activePlanIds (member : Raw) : option (list string) :=
  match raw_planConnections member with
  | Some connections =>
      Some (map planId
              (List.filter (λ conn, String.eqb (status conn) "ACTIVE") connections))
  | None => None
  end.

(** [client.getMemberById(memberId)] and [client.getMember(email)] on the
    member of the vendor's answer, none when the request fails or finds
    nobody.  The first hands the member on.  The second logs
    [member.auth.email] before it returns: on a member without [auth]
    that line throws, and the [catch] of the method answers null. *)
Definition getMemberById (answer : option Raw) : option Raw := answer.

Definition getMember (answer : option Raw) : option Raw :=
  match answer with
  | Some member =>
      match raw_auth member with
      | Some _ => Some member
      | None => None
      end
  | None => None
  end.

(** [member.customFields?.['first-name']] and
    [member.customFields?.['last-name']]. *)
Definition firstName (member : Raw) : option string :=
  match raw_customFields member with
  | Some fields => first fields
  | None => None
  end.

Definition lastName (member : Raw) : option string :=
  match raw_customFields member with
  | Some fields => last fields
  | None => None
  end.

End Member.

Module Auth.
Import Session.

(** A field of a parsed request body, or a query parameter: absent or a
    string. *)
Definition present (field : option string) : bool :=
  match field with
  | Some s => Js.truthy s
  | None => false
  end.

(** [a || b] for strings that may be absent. *)
Definition orElse (a : option string) (b : option string) : option string :=
  if present a then a else b.

(** [a || ''] *)
Definition orEmpty (a : option string) : string :=
  match a with
  | Some s => s
  | None => ""
  end.

Record LoginRequest := {
  login_email : option string;
  login_memberstackToken : option string;
  login_memberstackId : option string;
  login_firstName : option string;
  login_lastName : option string
}.

Record SignupRequest := {
  signup_email : option string;
  signup_firstName : option string;
  signup_lastName : option string;
  signup_plan : option string;
  signup_memberstackToken : option string
}.

Record AuthResponse := {
  success : bool;
  user : option User.t;
  error : option string;
  redirectUrl : option string
}.

Record Reply := { status : Z; body : AuthResponse }.

Definition failure (code : Z) (message : string) : Reply :=
  {| status := code;
     body := {| success := false; user := None; error := Some message;
                redirectUrl := None |} |}.

Definition welcome (u : User.t) : Reply :=
  {| status := 200;
     body := {| success := true; user := Some u; error := None;
                redirectUrl := Some "/members-area" |} |}.

(** The [try] block of the login route.  The result is the response the
    block returns, or none when a statement of it throws: [request.json()]
    on a body that is no JSON or is [null] ([body] is none then),
    [member.auth.email] on a member without [auth], and [getActivePlanIds]
    on a member without [planConnections].  [vendorById] and
    [vendorByEmail] give the member the vendor answers with. *)
Definition login_try (vendorById vendorByEmail : string → option Member.Raw)
    (uuid : string) (now : Z) (body : option LoginRequest) : M (option Reply) :=
  match body with
  | None => mret None
  | Some request =>
      console_log "[Login] Attempting login for email:";;
      match login_email request, login_memberstackToken request with
      | Some email, Some memberstackToken =>
          if negb (Js.truthy email) || negb (Js.truthy memberstackToken) then
            mret (Some (failure 400 "Email and token are required"))
          else
            let memberstackId := login_memberstackId request in
            member ← match memberstackId with
                     | Some memberId =>
                         if Js.truthy memberId then
                           console_log "[Login] Fetching member by ID:";;
                           mret (Member.getMemberById (vendorById memberId))
                         else mret None
                     | None => mret None
                     end;
            member ← match member with
                     | Some found => mret (Some found)
                     | None =>
                         console_log "[Login] Fetching member by email:";;
                         mret (Member.getMember (vendorByEmail email))
                     end;
            match member with
            | None =>
                console_log "[Login] Member found:";;
                if present memberstackId then
                  console_log "[Login] Using client-provided data for session";;
                  let user :=
                    {| User.id := orEmpty memberstackId;
                       User.email := email;
                       User.firstName := orEmpty (orElse (login_firstName request) (Some ""));
                       User.lastName := orEmpty (orElse (login_lastName request) (Some ""));
                       User.activePlans := ["pln_basic--n5180oor"];
                       User.bestPlanId := Some "pln_basic--n5180oor";
                       User.memberstackId := orEmpty memberstackId |} in
                  createSession user uuid now;;
                  mret (Some (welcome user))
                else mret (Some (failure 404 "User not found"))
            | Some member =>
                match Member.raw_auth member with
                | None => mret None
                | Some memberEmail =>
                    console_log "[Login] Member found:";;
                    match Member.activePlanIds member with
                    | None => mret None
                    | Some activePlans =>
                        let bestPlanId := Memberstack.getBestPlanId activePlans in
                        let user :=
                          {| User.id := Member.raw_id member;
                             User.email := memberEmail;
                             User.firstName :=
                               orEmpty (orElse (Member.firstName member)
                                          (orElse (login_firstName request) (Some "")));
                             User.lastName :=
                               orEmpty (orElse (Member.lastName member)
                                          (orElse (login_lastName request) (Some "")));
                             User.activePlans := activePlans;
                             User.bestPlanId := bestPlanId;
                             User.memberstackId := Member.raw_id member |} in
                        console_log "[Login] Creating session for user:";;
                        createSession user uuid now;;
                        mret (Some (welcome user))
                    end
                end
            end
      | _, _ => mret (Some (failure 400 "Email and token are required"))
      end
  end.

(** [POST] of the login route: the [try] block and its [catch]. *)
Definition login_POST (vendorById vendorByEmail : string → option Member.Raw)
    (uuid : string) (now : Z) (body : option LoginRequest) : M Reply :=
  outcome ← login_try vendorById vendorByEmail uuid now body;
  match outcome with
  | Some reply => mret reply
  | None =>
      console_log "Login error:";;
      mret (failure 500 "An error occurred during login")
  end.

(** The login route on a request body that parses and on a vendor whose
    members have every field of the interface: the lookups of the client
    then answer what the vendor does. *)
Definition login (getMemberById getMember : string → option Member.t)
    (uuid : string) (now : Z) (request : LoginRequest) : M Reply :=
  login_POST (λ memberId, Member.raw <$> getMemberById memberId)
    (λ email, Member.raw <$> getMember email) uuid now (Some request).

(** The [try] block of the signup route; [dateNow] is what [Date.now()]
    reads for the temporary id.  It throws, besides on the body, on a
    member without [planConnections], without [auth] or without
    [customFields], which the route reads unguarded. *)
Definition signup_try (vendorByEmail : string → option Member.Raw)
    (dateNow : Z) (uuid : string) (now : Z) (body : option SignupRequest)
    : M (option Reply) :=
  match body with
  | None => mret None
  | Some request =>
      match signup_email request, signup_memberstackToken request with
      | Some email, Some memberstackToken =>
          if negb (Js.truthy email) || negb (Js.truthy memberstackToken) then
            mret (Some (failure 400 "Email and token are required"))
          else
            let plan := signup_plan request in
            match Member.getMember (vendorByEmail email) with
            | None =>
                let user :=
                  {| User.id := "temp_" ++ pretty dateNow;
                     User.email := email;
                     User.firstName := orEmpty (orElse (signup_firstName request) (Some ""));
                     User.lastName := orEmpty (orElse (signup_lastName request) (Some ""));
                     User.activePlans :=
                       if present plan then [orEmpty plan] else ["pln_basic--n5180oor"];
                     User.bestPlanId := orElse plan (Some "pln_basic--n5180oor");
                     User.memberstackId := "" |} in
                createSession user uuid now;;
                mret (Some (welcome user))
            | Some member =>
                match Member.activePlanIds member, Member.raw_auth member,
                      Member.raw_customFields member with
                | Some activePlans, Some memberEmail, Some customFields =>
                    let bestPlanId := Memberstack.getBestPlanId activePlans in
                    let user :=
                      {| User.id := Member.raw_id member;
                         User.email := memberEmail;
                         User.firstName :=
                           orEmpty (orElse (Member.first customFields)
                                      (orElse (signup_firstName request) (Some "")));
                         User.lastName :=
                           orEmpty (orElse (Member.last customFields)
                                      (orElse (signup_lastName request) (Some "")));
                         User.activePlans :=
                           if (0 <? length activePlans)%nat then activePlans
                           else if present plan then [orEmpty plan]
                                else ["pln_basic--n5180oor"];
                         User.bestPlanId :=
                           orElse bestPlanId (orElse plan (Some "pln_basic--n5180oor"));
                         User.memberstackId := Member.raw_id member |} in
                    createSession user uuid now;;
                    mret (Some (welcome user))
                | _, _, _ => mret None
                end
            end
      | _, _ => mret (Some (failure 400 "Email and token are required"))
      end
  end.

(** [POST] of the signup route: the [try] block and its [catch]. *)
Definition signup_POST (vendorByEmail : string → option Member.Raw)
    (dateNow : Z) (uuid : string) (now : Z) (body : option SignupRequest) : M Reply :=
  outcome ← signup_try vendorByEmail dateNow uuid now body;
  match outcome with
  | Some reply => mret reply
  | None =>
      console_log "Signup error:";;
      mret (failure 500 "An error occurred during signup")
  end.

(** The signup route on a request body that parses and on a vendor whose
    members have every field of the interface. *)
Definition signup (getMember : string → option Member.t)
    (dateNow : Z) (uuid : string) (now : Z) (request : SignupRequest) : M Reply :=
  signup_POST (λ email, Member.raw <$> getMember email) dateNow uuid now (Some request).

(** [GET] of the current-session route. *)
Definition me (now : Z) : M Reply :=
  user ← getCurrentUser now;
  match user with
  | None => mret (failure 401 "Not authenticated")
  | Some user =>
      mret {| status := 200;
              body := {| success := true; user := Some user; error := None;
                         redirectUrl := None |} |}
  end.

(** [GET] of the lightweight check: always 200, body [{logged_in}]. *)
Record CheckReply := { check_status : Z; logged_in : bool }.

Definition check (now : Z) : M CheckReply :=
  loggedIn ← isAuthenticated now;
  mret {| check_status := 200; logged_in := loggedIn |}.

End Auth.

(** ** The orders route *)
Module Orders.
Import Session.

Record Order := {
  order_id : string;
  user_email : string;
  client : string;
  report_category : string;
  location : string;
  pdf_report : string;
  url : string;
  date : string
}.

(** [SAMPLE_ORDERS]; [backendUrl] is [FLASK_BACKEND_URL]. *)
Definition SAMPLE_ORDERS (backendUrl : string) : list Order :=
  [ {| order_id := "ORD-2024-001"; user_email := "demo@microburbs.com"; client := "Direct";
       report_category := "Suburb"; location := "Parramatta, NSW";
       pdf_report := backendUrl ++ "/pdf_suburb_report?order_id=ORD-2024-001";
       url := "/suburb-reports/Parramatta"; date := "15-01-2024" |};
    {| order_id := "ORD-2024-002"; user_email := "demo@microburbs.com"; client := "Premium";
       report_category := "Property"; location := "123 Main Street, Sydney NSW 2000";
       pdf_report := backendUrl ++ "/pdf_property_report?order_id=ORD-2024-002";
       url := "/property-reports/GANSW123456789"; date := "12-01-2024" |};
    {| order_id := "ORD-2024-003"; user_email := "demo@microburbs.com"; client := "Direct";
       report_category := "Suburb"; location := "Bondi, NSW";
       pdf_report := backendUrl ++ "/pdf_suburb_report?order_id=ORD-2024-003";
       url := "/suburb-reports/Bondi"; date := "10-01-2024" |};
    {| order_id := "ORD-2024-004"; user_email := "demo@microburbs.com"; client := "Direct";
       report_category := "Property"; location := "45 Ocean View Drive, Bondi NSW 2026";
       pdf_report := backendUrl ++ "/pdf_property_report?order_id=ORD-2024-004";
       url := "/property-reports/GANSW987654321"; date := "08-01-2024" |};
    {| order_id := "ORD-2024-005"; user_email := "demo@microburbs.com"; client := "Premium";
       report_category := "Suburb"; location := "Manly, NSW";
       pdf_report := backendUrl ++ "/pdf_suburb_report?order_id=ORD-2024-005";
       url := "/suburb-reports/Manly"; date := "05-01-2024" |} ].

(** What the request to the backend comes to: a rejected promise, a
    response that is not [ok] (with its status), or the parsed body of an
    [ok] response, an array of orders or an object that may carry them
    under [orders]. *)
Inductive Upstream :=
| Rejected
| NotOk (code : Z)
| Array (orders : list Order)
| Object (orders : option (list Order)).

Inductive Body :=
| ErrorBody (success : bool) (error : string)
| OrdersBody (success : bool) (orders : list Order) (fallback : bool).

Record Response := { status : Z; body : Body }.

(** [{...o, user_email: email}] *)
Definition withEmail (email : string) (o : Order) : Order :=
  {| order_id := order_id o; user_email := email; client := client o;
     report_category := report_category o; location := location o;
     pdf_report := pdf_report o; url := url o; date := date o |}.

(** The category parameter is used when it is given and is not [All]. *)
Definition filtering (reportCategory : option string) : bool :=
  Auth.present reportCategory && negb (String.eqb (Auth.orEmpty reportCategory) "All").

(** [GET] of the orders route.  [emailParam] and [reportCategory] are the
    query parameters of the request; [flask] answers the request to the
    backend from the [email] and [report_category] parameters it is sent
    with. *)
Definition GET (backendUrl : string)
    (flask : option string → option string → Upstream)
    (sessionNow : Z) (emailParam reportCategory : option string) : M Response :=
  user ← getCurrentUser sessionNow;
  match user with
  | None => mret {| status := 401; body := ErrorBody false "Not authenticated" |}
  | Some user =>
      let email := Auth.orEmpty (Auth.orElse emailParam (Some (User.email user))) in
      console_log "[Orders API] Fetching from Flask:";;
      emit (FetchUserOrders email);;
      match flask (if Js.truthy email then Some email else None)
                  (if filtering reportCategory then reportCategory else None) with
      | Array orders =>
          console_log ("[Orders API] Got " ++ pretty (length orders) ++ " orders from Flask");;
          mret {| status := 200; body := OrdersBody true orders false |}
      | Object data =>
          let orders := match data with Some orders => orders | None => [] end in
          console_log ("[Orders API] Got " ++ pretty (length orders) ++ " orders from Flask");;
          mret {| status := 200; body := OrdersBody true orders false |}
      | upstream =>
          match upstream with
          | NotOk code => console_log ("[Orders API] Flask returned " ++ pretty code)
          | _ => console_log "[Orders API] Flask backend not available:"
          end;;
          console_log "[Orders API] Using sample data fallback";;
          let orders := SAMPLE_ORDERS backendUrl in
          let orders :=
            if filtering reportCategory then
              List.filter
                (λ o, String.eqb (report_category o) (Auth.orEmpty reportCategory)) orders
            else orders in
          let orders := map (withEmail (User.email user)) orders in
          mret {| status := 200; body := OrdersBody true orders true |}
      end
  end.

End Orders.

(** ** Helpers of the property search route *)
Module PropertySearch.

Definition isWhiteSpace (c : ascii) : bool :=
  let n := nat_of_ascii c in
  ((9 <=? n) && (n <=? 13) || (n =? 32))%nat.

Fixpoint trimStart (s : string) : string :=
  match s with
  | EmptyString => EmptyString
  | String c rest => if isWhiteSpace c then trimStart rest else s
  end.

(** [s] without its trailing white space. *)
Fixpoint trimEnd (s : string) : string :=
  match s with
  | EmptyString => EmptyString
  | String c rest =>
      match trimEnd rest with
      | EmptyString => if isWhiteSpace c then EmptyString else String c EmptyString
      | kept => String c kept
      end
  end.

Definition trim (s : string) : string := trimEnd (trimStart s).

Definition upperChar (c : ascii) : ascii :=
  let n := nat_of_ascii c in
  if ((97 <=? n) && (n <=? 122))%nat then ascii_of_nat (n - 32) else c.

Fixpoint toUpperCase (s : string) : string :=
  match s with
  | EmptyString => EmptyString
  | String c rest => String (upperChar c) (toUpperCase rest)
  end.

(** [s.substring(start, stop)] for [start <= stop]. *)
Definition substring (start stop : nat) (s : string) : string :=
  String.substring start (stop - start) s.

Definition parseSuburbFromAddress (displayName : string) : string :=
  let parts := Js.split "," displayName in
  if (1 <? length parts)%nat then trim (List.last parts "") else "".

Definition stateMap : gmap string string :=
  list_to_map
    [ ("NSW", "NSW"); ("VIC", "VIC"); ("QLD", "QLD"); ("WA", "WA");
      ("SA", "SA"); ("TAS", "TAS"); ("NT", "NT"); ("ACT", "ACT") ].

(** [stateMap[stateCode] || stateCode].  The code read is upper case, so
    it is none of the names [stateMap] inherits from [Object.prototype]. *)
Definition parseStateFromId (gnafId : string) : string :=
  if negb (Js.truthy gnafId) || (String.length gnafId <? 5)%nat then ""
  else
    let stateCode := toUpperCase (substring 2 5 gnafId) in
    match stateMap !! stateCode with
    | Some state => if Js.truthy state then state else stateCode
    | None => stateCode
    end.

End PropertySearch.

(** ** The region search route *)
Module RegionSearch.

(** [KNOWN_REGIONS], in the order of the literal: name and state.  Every
    entry has the type [SA3]. *)
Definition KNOWN_REGIONS : list (string * string) :=
  [ ("Eastern Suburbs - North", "NSW");
    ("Eastern Suburbs - South", "NSW");
    ("Sydney Inner City", "NSW");
    ("North Sydney - Mosman", "NSW");
    ("Ryde", "NSW");
    ("Parramatta", "NSW");
    ("Blacktown - North", "NSW");
    ("Blacktown - South-West", "NSW");
    ("Penrith", "NSW");
    ("Blue Mountains", "NSW");
    ("Inner West", "NSW");
    ("Canterbury", "NSW");
    ("Bankstown", "NSW");
    ("Sutherland - Menai - Heathcote", "NSW");
    ("Cronulla - Miranda - Caringbah", "NSW");
    ("St George", "NSW");
    ("Strathfield - Burwood - Ashfield", "NSW");
    ("Canada Bay", "NSW");
    ("Leichhardt", "NSW");
    ("Marrickville - Sydenham - Petersham", "NSW");
    ("Hornsby", "NSW");
    ("Ku-ring-gai", "NSW");
    ("Northern Beaches", "NSW");
    ("Pittwater", "NSW");
    ("Warringah", "NSW");
    ("Chatswood - Lane Cove", "NSW");
    ("Lower Northern Sydney", "NSW");
    ("Newcastle", "NSW");
    ("Lake Macquarie - East", "NSW");
    ("Lake Macquarie - West", "NSW");
    ("Maitland", "NSW");
    ("Central Coast", "NSW");
    ("Wollongong", "NSW");
    ("Melbourne City", "VIC");
    ("Port Phillip", "VIC");
    ("Stonnington - East", "VIC");
    ("Stonnington - West", "VIC");
    ("Boroondara", "VIC");
    ("Yarra", "VIC");
    ("Darebin - South", "VIC");
    ("Darebin - North", "VIC");
    ("Banyule", "VIC");
    ("Manningham - East", "VIC");
    ("Manningham - West", "VIC");
    ("Whitehorse - East", "VIC");
    ("Whitehorse - West", "VIC");
    ("Monash", "VIC");
    ("Glen Eira", "VIC");
    ("Bayside", "VIC");
    ("Kingston", "VIC");
    ("Greater Dandenong", "VIC");
    ("Casey - North", "VIC");
    ("Casey - South", "VIC");
    ("Frankston", "VIC");
    ("Mornington Peninsula", "VIC");
    ("Knox", "VIC");
    ("Maroondah", "VIC");
    ("Yarra Ranges", "VIC");
    ("Brisbane Inner", "QLD");
    ("Brisbane Inner - East", "QLD");
    ("Brisbane Inner - North", "QLD");
    ("Brisbane Inner - West", "QLD");
    ("Brisbane - South", "QLD");
    ("Brisbane - East", "QLD");
    ("Brisbane - North", "QLD");
    ("Brisbane - West", "QLD");
    ("Ipswich Inner", "QLD");
    ("Ipswich Hinterland", "QLD");
    ("Logan - Beaudesert", "QLD");
    ("Gold Coast - North", "QLD");
    ("Gold Coast - South", "QLD");
    ("Surfers Paradise", "QLD");
    ("Sunshine Coast", "QLD");
    ("Perth City", "WA");
    ("Fremantle", "WA");
    ("Cottesloe - Claremont", "WA");
    ("Melville", "WA");
    ("South Perth", "WA");
    ("Victoria Park", "WA");
    ("Canning", "WA");
    ("Gosnells", "WA");
    ("Armadale", "WA");
    ("Rockingham", "WA");
    ("Mandurah", "WA");
    ("Joondalup", "WA");
    ("Wanneroo", "WA");
    ("Stirling", "WA");
    ("Adelaide City", "SA");
    ("Adelaide Hills", "SA");
    ("Burnside", "SA");
    ("Campbelltown", "SA");
    ("Norwood - Payneham - St Peters", "SA");
    ("Unley", "SA");
    ("Holdfast Bay", "SA");
    ("Marion", "SA");
    ("Mitcham", "SA");
    ("Onkaparinga", "SA");
    ("Port Adelaide - East", "SA");
    ("Port Adelaide - West", "SA");
    ("Charles Sturt", "SA");
    ("West Torrens", "SA");
    ("Salisbury", "SA");
    ("Tea Tree Gully", "SA");
    ("Playford", "SA");
    ("North Canberra", "ACT");
    ("South Canberra", "ACT");
    ("Belconnen", "ACT");
    ("Gungahlin", "ACT");
    ("Tuggeranong", "ACT");
    ("Woden Valley", "ACT");
    ("Weston Creek", "ACT");
    ("Molonglo", "ACT");
    ("Hobart Inner", "TAS");
    ("Hobart - North East", "TAS");
    ("Hobart - North West", "TAS");
    ("Hobart - South and West", "TAS");
    ("Brighton", "TAS");
    ("Darwin City", "NT");
    ("Darwin Suburbs", "NT");
    ("Palmerston", "NT");
    ("Litchfield", "NT") ].

Record Region := { name : string; type : string; state : string }.

(** A suburb of the backend's answer: [information.sa3] and
    [information.state], either of which may be missing. *)
Record Suburb := { sa3 : option string; information_state : option string }.

(** What the suburb search of the backend comes to; an [ok] response may
    come without [results]. *)
Inductive Upstream :=
| Rejected
| NotOk
| Results (results : option (list Suburb)).

(** [state?.includes(text)] *)
Definition stateIncludes (st : option string) (text : string) : bool :=
  match st with
  | Some s => Js.includes s text
  | None => false
  end.

Definition regionState (st : option string) : string :=
  if stateIncludes st "New South Wales" then "NSW"
  else if stateIncludes st "Victoria" then "VIC"
  else if stateIncludes st "Queensland" then "QLD"
  else if stateIncludes st "Western Australia" then "WA"
  else if stateIncludes st "South Australia" then "SA"
  else if stateIncludes st "Tasmania" then "TAS"
  else if stateIncludes st "Northern Territory" then "NT"
  else if stateIncludes st "Australian Capital" then "ACT"
  else "".

(** [matchingRegions.find(r => r.name === n)], as a test. *)
Definition hasName (regions : list Region) (n : string) : bool :=
  existsb (λ r, String.eqb (name r) n) regions.

(** [sa3Regions.add(JSON.stringify(region))]: the set keeps the order of
    insertion, and two regions print alike exactly when they are equal. *)
Definition setAdd (sa3Regions : list Region) (region : Region) : list Region :=
  if existsb (λ r, String.eqb (name r) (name region) && String.eqb (type r) (type region)
                   && String.eqb (state r) (state region)) sa3Regions
  then sa3Regions else sa3Regions ++ [region].

(** The body of [suburbs.forEach]. *)
Definition collect (matchingRegions : list Region) (sa3Regions : list Region)
    (suburb : Suburb) : list Region :=
  match sa3 suburb with
  | Some sa3Name =>
      if Js.truthy sa3Name then
        if negb (hasName matchingRegions sa3Name) then
          setAdd sa3Regions
            {| name := sa3Name; type := "SA3";
               state := regionState (information_state suburb) |}
        else sa3Regions
      else sa3Regions
  | None => sa3Regions
  end.

(** The body of [sa3Regions.forEach]: [push] when the name is new. *)
Definition pushNew (matchingRegions : list Region) (region : Region) : list Region :=
  if negb (hasName matchingRegions (name region)) then matchingRegions ++ [region]
  else matchingRegions.

(** [GET] of the region search; [q] and [st] are the query parameters [q]
    and [state], and [suburbs] answers the suburb search for the query. *)
Definition GET (suburbs : string → Upstream) (q st : option string) : list Region :=
  let query := Auth.orEmpty (Auth.orElse q (Some "")) in
  let state := Auth.orEmpty (Auth.orElse st (Some "")) in
  if (String.length query <? 2)%nat then []
  else
    let queryLower := Js.toLowerCase query in
    let matchingRegions :=
      take 20
        (map (λ entry, {| name := entry.1; type := "SA3"; state := entry.2 |})
           (List.filter
              (λ entry, Js.includes (Js.toLowerCase entry.1) queryLower
                        && (negb (Js.truthy state) || String.eqb entry.2 state))
              KNOWN_REGIONS)) in
    match suburbs query with
    | Results data =>
        let found := match data with Some results => results | None => [] end in
        let sa3Regions := fold_left (collect matchingRegions) found [] in
        fold_left pushNew sa3Regions matchingRegions
    | _ => matchingRegions
    end.

End RegionSearch.

(** ** Further notions *)
Module More.

(** A browser polling its session at the given times, one after another. *)
Fixpoint polls (times : list Z) (w : Session.World) : Session.World :=
  match times with
  | [] => w
  | t :: rest => polls rest (Session.getSession t w).2
  end.

(** The user the session layer gives back for [user] stored under
    [sessionId]: the id is the session's. *)
Definition asSeenBySession (sessionId : string) (user : User.t) : User.t :=
  {| User.id := sessionId;
     User.email := User.email user;
     User.firstName := User.firstName user;
     User.lastName := User.lastName user;
     User.activePlans := User.activePlans user;
     User.bestPlanId := User.bestPlanId user;
     User.memberstackId := User.memberstackId user |}.

(** The record [createSession] builds for [user]. *)
Definition sessionFor (user : User.t) (sessionId : string) (now : Z) : UserSession.t :=
  {| UserSession.id := sessionId;
     UserSession.userEmail := User.email user;
     UserSession.memberstackId := User.memberstackId user;
     UserSession.firstName := User.firstName user;
     UserSession.lastName := User.lastName user;
     UserSession.activePlans := User.activePlans user;
     UserSession.bestPlanId := User.bestPlanId user;
     UserSession.createdAt := now;
     UserSession.lastAccessed := now;
     UserSession.expiresAt := now + Session.SESSION_DURATION_MS;
     UserSession.isActive := true |}.

(** The store once the record of the cookie, if any, is deleted. *)
Definition withoutCookieSession (w : Session.World) : gmap string UserSession.t :=
  match Session.cookie w with
  | Some existing =>
      if Js.truthy existing then delete existing (Session.sessions w)
      else Session.sessions w
  | None => Session.sessions w
  end.

(** The browser holds the cookie [uuid] or none, and a record under
    [uuid] expires at [expiry]. *)
Definition bounded (uuid : string) (expiry : Z) (w : Session.World) : Prop :=
  (Session.cookie w = None ∨ Session.cookie w = Some uuid)
  ∧ ∀ s, Session.sessions w !! uuid = Some s → UserSession.expiresAt s = expiry.

(** The browser holds the cookie [uuid], whose record is active, was
    created at [created] for [email] and expires at [expiry]. *)
Definition alive (uuid : string) (expiry created : Z) (email : string)
    (w : Session.World) : Prop :=
  Session.cookie w = Some uuid
  ∧ ∃ s, Session.sessions w !! uuid = Some s
         ∧ UserSession.isActive s = true
         ∧ UserSession.createdAt s = created
         ∧ UserSession.userEmail s = email
         ∧ UserSession.expiresAt s = expiry.

(** The member the login route ends up with: the one the id lookup
    finds when an id is sent, or else the one the email lookup finds. *)
Definition loginLookup {A} (getMemberById getMember : string → option A)
    (request : Auth.LoginRequest) : option A :=
  match (if Auth.present (Auth.login_memberstackId request)
         then getMemberById (Auth.orEmpty (Auth.login_memberstackId request))
         else None) with
  | Some member => Some member
  | None => getMember (Auth.orEmpty (Auth.login_email request))
  end.

(** The member the login route ends up with, by what the vendor answers
    to the two lookups of the client. *)
Definition clientLookup (vendorById vendorByEmail : string → option Member.Raw)
    (request : Auth.LoginRequest) : option Member.Raw :=
  loginLookup (λ memberId, Member.getMemberById (vendorById memberId))
    (λ email, Member.getMember (vendorByEmail email)) request.

(** A found member the login route can read: it has [auth] and
    [planConnections].  The signup route also reads [customFields]. *)
Definition readableAtLogin (member : Member.Raw) : Prop :=
  is_Some (Member.raw_auth member) ∧ is_Some (Member.raw_planConnections member).

Definition readableAtSignup (member : Member.Raw) : Prop :=
  readableAtLogin member ∧ is_Some (Member.raw_customFields member).

(** The region an entry of the table is listed as. *)
Definition regionOf (entry : string * string) : RegionSearch.Region :=
  {| RegionSearch.name := entry.1; RegionSearch.type := "SA3";
     RegionSearch.state := entry.2 |}.

(** An entry of the table answers a search: its name contains the query,
    case ignored, and its state is the one asked for when one is. *)
Definition regionMatch (query state : string) (entry : string * string) : Prop :=
  Notions.occursIn (Js.toLowerCase query) (Js.toLowerCase entry.1)
  ∧ (state = "" ∨ entry.2 = state).

(** The tier of a canonical plan id. *)
Definition tierOfId (planId : string) : option Z :=
  Catalog.tier <$> Catalog.PLANS !! planId.

Definition planTier (planId : string) : Z := default 0 (tierOfId planId).

(** The number of times [c] occurs in [s]. *)
Fixpoint occurrences (c : ascii) (s : string) : nat :=
  match s with
  | EmptyString => 0
  | String x rest => (if Ascii.eqb x c then 1 else 0) + occurrences c rest
  end.

(** A member the vendor reports with one plan connection. *)
Definition member (planId status : string) : Member.t :=
  {| Member.id := "mem_1"; Member.email := "member@example.com";
     Member.first_name := Some "Ada"; Member.last_name := None;
     Member.planConnections :=
       [ {| Member.planId := planId; Member.status := status |} ] |}.

(** A lookup that finds nobody, and one that finds [m] under [key]. *)
Definition nobody : string → option Member.t := λ _, None.

Definition only (key : string) (m : Member.t) : string → option Member.t :=
  λ k, if String.eqb k key then Some m else None.

(** A world with no cookie and an empty store. *)
Definition blank : Session.World :=
  {| Session.cookie := None; Session.sessions := ∅; Session.trace := [] |}.

End More.

Import More.

(** ** Strings *)
Section Strings.

Lemma append_cons (c : ascii) (s t : string) :
  (String c s ++ t)%string = String c (s ++ t)%string.
Proof. reflexivity. Qed.

Lemma append_nil_l (s : string) : ("" ++ s)%string = s.
Proof. reflexivity. Qed.

Lemma append_nil_r (s : string) : (s ++ "")%string = s.
Proof. induction s as [|c s IH]; [reflexivity | by rewrite append_cons, IH]. Qed.

Lemma append_assoc (a b c : string) : ((a ++ b) ++ c)%string = (a ++ (b ++ c))%string.
Proof. induction a as [|x a IH]; [reflexivity | by rewrite !append_cons, IH]. Qed.

Lemma startsWith_spec (s p : string) :
  Js.startsWith s p = true ↔ ∃ after, s = (p ++ after)%string.
Proof.
  revert s. induction p as [|a p IH]; intros s; simpl.
  - split; [intros _; by exists s | done].
  - destruct s as [|b s].
    + split; [done | intros [after H]; discriminate].
    + destruct (Ascii.eqb_spec a b) as [->|Hne].
      * rewrite IH. split; intros [after H]; exists after.
        -- by rewrite H.
        -- by injection H.
      * split; [done | intros [after H]; injection H; intros; congruence].
Qed.

Lemma includes_spec (s p : string) : Js.includes s p = true ↔ occursIn p s.
Proof.
  unfold occursIn. induction s as [|c s IH].
  - cbn [Js.includes]. rewrite orb_false_r, startsWith_spec. split.
    + intros [after H]. by exists "", after.
    + intros [before [after H]]. destruct before; [by exists after | discriminate].
  - cbn [Js.includes]. rewrite orb_true_iff, startsWith_spec, IH. split.
    + intros [[after H] | [before [after H]]].
      * by exists "", after.
      * exists (String c before), after. simpl. by rewrite H.
    + intros [before [after H]]. destruct before as [|c' before].
      * left. by exists after.
      * right. exists before, after. simpl in H. by injection H.
Qed.

Lemma includes_false_spec (s p : string) : Js.includes s p = false ↔ ¬ occursIn p s.
Proof. rewrite <- includes_spec. by destruct (Js.includes s p). Qed.

Lemma toLowerCase_truthy (s : string) : Js.truthy (Js.toLowerCase s) = Js.truthy s.
Proof. by destruct s. Qed.

Lemma truthy_spec (s : string) : Js.truthy s = true ↔ s ≠ "".
Proof. destruct s; simpl; split; done. Qed.

Lemma includes_truthy (s p : string) :
  p ≠ "" → Js.includes s p = true → Js.truthy s = true.
Proof. destruct s; [| done]. destruct p; [done | discriminate]. Qed.

End Strings.

(** ** The resolver loop *)
Section Resolver.
Import Memberstack.

(** What [find] returns satisfies the test, so it is a non-empty string
    whenever the pattern is. *)
Lemma find_match_truthy (pat : string) (ids : list string) (x : string) :
  pat ≠ "" →
  List.find (λ id, Js.includes (Js.toLowerCase id) pat) ids = Some x →
  Js.truthy x = true.
Proof.
  intros Hpat Hfind. apply find_some in Hfind as [_ Hinc].
  rewrite <- toLowerCase_truthy. by eapply includes_truthy.
Qed.

Lemma find_match_exists (pat : string) (ids : list string) (id : string) :
  id ∈ ids → Js.includes (Js.toLowerCase id) pat = true →
  is_Some (List.find (λ id, Js.includes (Js.toLowerCase id) pat) ids).
Proof.
  intros Hin Hinc.
  destruct (List.find _ ids) eqn:Hfind; [eauto |].
  apply list_elem_of_In in Hin.
  pose proof (find_none _ _ Hfind _ Hin) as Hno. simpl in Hno. congruence.
Qed.

Lemma find_match_none (pat : string) (ids : list string) :
  (∀ id, id ∈ ids → Js.includes (Js.toLowerCase id) pat = false) →
  List.find (λ id, Js.includes (Js.toLowerCase id) pat) ids = None.
Proof.
  intros Hno. destruct (List.find _ ids) eqn:Hfind; [| done].
  apply find_some in Hfind as [Hin Hinc]. apply list_elem_of_In in Hin.
  rewrite (Hno _ Hin) in Hinc. discriminate.
Qed.

(** A block of rules that all map to [target]: as soon as one of them
    matches some input, the loop returns [target], whatever follows. *)
Lemma firstMatch_block (target : string) (block rest : list Rule) (ids : list string) :
  Forall (λ r, mappedId r = target ∧ pattern r ≠ "") block →
  (∃ r id, r ∈ block ∧ id ∈ ids ∧ Js.includes (Js.toLowerCase id) (pattern r) = true) →
  firstMatch (block ++ rest) ids = Some target.
Proof.
  induction block as [|r0 block IH]; intros Hall (r & id & Hr & Hid & Hinc).
  - by apply elem_of_nil in Hr.
  - apply Forall_cons in Hall as [[Hmap Hpat] Hall]. cbn [app firstMatch].
    destruct (List.find _ ids) as [x|] eqn:Hfind.
    + rewrite (find_match_truthy _ _ _ Hpat Hfind). by rewrite Hmap.
    + apply elem_of_cons in Hr as [-> | Hr].
      * destruct (find_match_exists _ _ _ Hid Hinc) as [x Hx]. congruence.
      * apply IH; [done | by exists r, id].
Qed.

(** No rule matches any input: the loop falls through. *)
Lemma firstMatch_none (rules : list Rule) (ids : list string) :
  (∀ id r, id ∈ ids → r ∈ rules → Js.includes (Js.toLowerCase id) (pattern r) = false) →
  firstMatch rules ids = None.
Proof.
  induction rules as [|r rules IH]; intros Hno; [done |]. cbn [firstMatch].
  rewrite find_match_none.
  - apply IH. intros id r' Hid Hr'. apply Hno; [done | by apply list_elem_of_further].
  - intros id Hid. apply Hno; [done | apply list_elem_of_here].
Qed.

Lemma topBlock_complete (r : Rule) :
  r ∈ hierarchy → mappedId r = topTierId → r ∈ topBlock.
Proof.
  intros Hin Hmap. unfold hierarchy in Hin.
  repeat (apply elem_of_cons in Hin as [-> | Hin]);
    try discriminate Hmap; unfold topBlock; cbn; set_solver.
Qed.

End Resolver.

(** ** Plan resolution *)
Section PlanResolution.
Import Memberstack.

Lemma topBlock_rules :
  Forall (λ r, mappedId r = topTierId ∧ pattern r ≠ "") topBlock.
Proof. unfold topBlock. cbn. repeat constructor; done. Qed.

(** One top-tier match is enough, whatever else is active. *)
Lemma getBestPlanId_top_tier (activePlanIds : list string) (a : string) (top : Rule) :
  a ∈ activePlanIds → top ∈ hierarchy → mappedId top = topTierId → matchesRule a top →
  getBestPlanId activePlanIds = Some topTierId.
Proof.
  intros Ha Htop Hmap Hmatch. unfold getBestPlanId.
  change hierarchy with (topBlock ++ drop 5 hierarchy)%list.
  rewrite (firstMatch_block topTierId); [done | apply topBlock_rules |].
  exists top, a. split_and!; [by apply topBlock_complete | done | by apply includes_spec].
Qed.

(** The fallback of the resolver, for inputs no rule matches. *)
Lemma getBestPlanId_unmatched (activePlanIds : list string) :
  (∀ id rule, id ∈ activePlanIds → rule ∈ hierarchy → ¬ matchesRule id rule) →
  getBestPlanId activePlanIds = Js.orNull (head activePlanIds).
Proof.
  intros Hno. unfold getBestPlanId. rewrite firstMatch_none; [done |].
  intros id r Hid Hr. apply includes_false_spec. by apply Hno.
Qed.

(** A test that runs: no rule matches any of the inputs. *)
Lemma unmatched_by_test (activePlanIds : list string) :
  forallb (λ id, forallb (λ r, negb (Js.includes (Js.toLowerCase id) (pattern r))) hierarchy)
          activePlanIds = true →
  ∀ id rule, id ∈ activePlanIds → rule ∈ hierarchy → ¬ matchesRule id rule.
Proof.
  intros Htest id rule Hid Hrule. apply includes_false_spec.
  rewrite forallb_forall in Htest. apply list_elem_of_In in Hid, Hrule.
  specialize (Htest id Hid). rewrite forallb_forall in Htest.
  specialize (Htest rule Hrule). by apply negb_true_iff in Htest.
Qed.

End PlanResolution.

(** C1. Whenever some active plan string matches a top-tier pattern and
    some active plan string matches a lower-tier pattern, [getBestPlanId]
    returns the canonical id of the top tier,
    [pln_portfolio-builder-fb6b0fzp]. *)
Theorem getBestPlanId_top_tier_precedence
    (activePlanIds : list string) (a b : string) (top lower : Memberstack.Rule) :
  a ∈ activePlanIds → top ∈ Memberstack.hierarchy →
  Memberstack.mappedId top = topTierId → matchesRule a top →
  b ∈ activePlanIds → lower ∈ Memberstack.hierarchy →
  Memberstack.mappedId lower ≠ topTierId → matchesRule b lower →
  Memberstack.getBestPlanId activePlanIds = Some "pln_portfolio-builder-fb6b0fzp".
Proof.
  intros Ha Htop Hmap Hmatch _ _ _ _. by eapply getBestPlanId_top_tier.
Qed.

(** The example of the specification: an essentials plan next to a
    portfolio plan resolves to the portfolio-builder id. *)
Lemma getBestPlanId_essentials_and_portfolio :
  Memberstack.getBestPlanId ["xyz-essentials-123"; "xyz-portfolio-456"]
  = Some "pln_portfolio-builder-fb6b0fzp".
Proof.
  apply (getBestPlanId_top_tier_precedence
           ["xyz-essentials-123"; "xyz-portfolio-456"]
           "xyz-portfolio-456" "xyz-essentials-123"
           {| Memberstack.pattern := "portfolio";
              Memberstack.mappedId := "pln_portfolio-builder-fb6b0fzp" |}
           {| Memberstack.pattern := "essentials";
              Memberstack.mappedId := "pln_essentials-vb1k04zy" |}).
  - repeat constructor.
  - repeat constructor.
  - reflexivity.
  - exists "xyz-", "-456". reflexivity.
  - repeat constructor.
  - repeat constructor.
  - discriminate.
  - exists "xyz-", "-123". reflexivity.
Defined.

(** C2, as the code has it.  When no rule of the hierarchy matches any
    input string, [getBestPlanId] returns the first input string unchanged
    if that string is non-empty, and null if it is the empty string or the
    list is empty; it is a total function, so it never fails.  Downstream,
    [getPlanDetails] answers null exactly as it answers the free-tier id
    [pln_basic--n5180oor]: with the free-tier catalog entry. *)
Theorem getBestPlanId_fallback (activePlanIds : list string) :
  (∀ id rule, id ∈ activePlanIds → rule ∈ Memberstack.hierarchy → ¬ matchesRule id rule) →
  (∀ first rest, activePlanIds = first :: rest → first ≠ "" →
     Memberstack.getBestPlanId activePlanIds = Some first)
  ∧ (∀ rest, activePlanIds = "" :: rest → Memberstack.getBestPlanId activePlanIds = None)
  ∧ Memberstack.getBestPlanId [] = None
  ∧ Subscription.getPlanDetails None = Subscription.getPlanDetails (Some "pln_basic--n5180oor")
  ∧ ∃ free, Catalog.PLANS !! "pln_basic--n5180oor" = Some free
            ∧ Subscription.getPlanDetails None = Catalog.Entry free
            ∧ Catalog.tier free = 0
            ∧ Catalog.suburbReports free = 0
            ∧ Catalog.propertyReports free = 0.
Proof.
  intros Hno. split_and!.
  - intros first rest -> Hne. rewrite (getBestPlanId_unmatched _ Hno). simpl.
    apply truthy_spec in Hne. by rewrite Hne.
  - intros rest ->. by rewrite (getBestPlanId_unmatched _ Hno).
  - reflexivity.
  - by vm_compute.
  - eexists. split_and!; by vm_compute.
Qed.

(** The example of the specification: an unrecognised plan id is passed
    through. *)
Lemma getBestPlanId_unrecognized :
  Memberstack.getBestPlanId ["unrecognized-plan-id"] = Some "unrecognized-plan-id".
Proof.
  refine (proj1 (getBestPlanId_fallback ["unrecognized-plan-id"] _)
                "unrecognized-plan-id" [] eq_refl _).
  - apply unmatched_by_test. reflexivity.
  - discriminate.
Defined.

(** C2 as stated fails when the first input string is empty: no pattern
    occurs in it, the list is non-empty, and the result is null. *)
Lemma getBestPlanId_empty_first_string :
  ¬ (∀ activePlanIds : list string,
       activePlanIds ≠ [] →
       (∀ id rule, id ∈ activePlanIds → rule ∈ Memberstack.hierarchy →
                   ¬ matchesRule id rule) →
       Memberstack.getBestPlanId activePlanIds = head activePlanIds).
Proof.
  intros Hclaim. specialize (Hclaim [""]).
  assert (Memberstack.getBestPlanId [""] = Some "") as Habs; [| discriminate Habs].
  apply Hclaim; [discriminate |].
  apply unmatched_by_test. reflexivity.
Qed.

(** ** Plan lookup of the subscription endpoint *)
Section PlanLookup.
Import Subscription.

(** Ids that are neither catalog keys nor names on [Object.prototype]
    and carry no tier fragment fall to the free plan. *)
Lemma getPlanDetails_default (planId : string) :
  Catalog.PLANS !! planId = None →
  planId ∉ Catalog.objectPrototype →
  ¬ occursIn "portfolio" planId → ¬ occursIn "advanced" planId →
  ¬ occursIn "essentials" planId →
  getPlanDetails (Some planId) = Catalog.get freeTierId.
Proof.
  intros Hown Hproto Hp Ha He. unfold getPlanDetails.
  destruct (Js.truthy planId); [| done]. cbn [negb].
  unfold Catalog.hasProperty. rewrite Hown.
  rewrite bool_decide_eq_false_2 by (by intros [? ?]).
  rewrite bool_decide_eq_false_2 by done. cbn [orb].
  apply includes_false_spec in Hp, Ha, He. by rewrite Hp, Ha, He.
Qed.

End PlanLookup.

(** C10 at the plan id [constructor].  It is not a key of the catalog and
    contains none of the three fragments, yet [planId in PLANS] holds through
    the prototype chain, so [getPlanDetails] returns the inherited member
    and not the free-tier entry: no tier and no quotas can be read off it. *)
Theorem getPlanDetails_constructor :
  Catalog.PLANS !! "constructor" = None
  ∧ ¬ occursIn "portfolio" "constructor"
  ∧ ¬ occursIn "advanced" "constructor"
  ∧ ¬ occursIn "essentials" "constructor"
  ∧ Subscription.getPlanDetails (Some "constructor") = Catalog.Inherited "constructor"
  ∧ Subscription.getPlanDetails (Some "constructor") ≠ Catalog.get "pln_basic--n5180oor"
  ∧ Catalog.tierOf (Subscription.getPlanDetails (Some "constructor")) = None
  ∧ Catalog.suburbReportsOf (Subscription.getPlanDetails (Some "constructor")) = None
  ∧ Catalog.propertyReportsOf (Subscription.getPlanDetails (Some "constructor")) = None
  ∧ ∃ sub,
      (Subscription.GET 1000 Subscription.NotOk Sample.today
         (Sample.signedIn (Some "constructor"))).1
      = {| Subscription.status := 200;
           Subscription.body := Subscription.SubscriptionBody true sub |}
      ∧ Subscription.plan_name (Subscription.plan sub) = Some "Object"
      ∧ Subscription.plan_tier (Subscription.plan sub) = None
      ∧ Subscription.propertyReportsLeft (Subscription.usage sub) = Js.NaN
      ∧ Subscription.suburbReportsLeft (Subscription.usage sub) = Js.NaN.
Proof.
  split_and!; try (by vm_compute); try (by apply includes_false_spec).
  eexists. split; [by vm_compute | done].
Qed.

(** ** The session manager *)

(** Unfold the sequencing of a handler down to the operations on the
    [World], leaving the finite map of sessions alone. *)
Ltac run :=
  unfold Session.createSession, Session.getSession, Session.getCurrentUser,
    Session.destroySession, Session.isAuthenticated, Session.console_log, Session.emit,
    Session.cookies_get, Session.cookies_set, Session.cookies_delete,
    Session.sessionStore_get, Session.sessionStore_set, Session.sessionStore_delete,
    mbind, Session.M_bind, mret, Session.M_ret;
  cbn [fst snd Session.cookie Session.sessions Session.trace].

Ltac step := cbn [fst snd Session.cookie Session.sessions Session.trace].

Section SessionManager.
Import Session.

(** A session is usable at [now]: the test of [getSession], negated. *)
Lemma getSession_test (session : UserSession.t) (now : Z) :
  negb (UserSession.isActive session) || (UserSession.expiresAt session <? now) = false
  ↔ UserSession.isActive session = true ∧ now ≤ UserSession.expiresAt session.
Proof.
  rewrite orb_false_iff, negb_false_iff, Z.ltb_ge. done.
Qed.

Lemma createSession_cookie user uuid now w :
  cookie (createSession user uuid now w).2 = Some uuid.
Proof. reflexivity. Qed.

Lemma createSession_result user uuid now w :
  (createSession user uuid now w).1 = uuid.
Proof. reflexivity. Qed.

(** The store after [createSession]: the record of the cookie found, if
    any, is deleted, then the new record is written. *)
Lemma createSession_sessions user uuid now w :
  ∃ session,
    sessions (createSession user uuid now w).2 =
      <[uuid := session]>
        (match cookie w with
         | Some existing =>
             if Js.truthy existing then delete existing (sessions w) else sessions w
         | None => sessions w
         end)
    ∧ UserSession.id session = uuid
    ∧ UserSession.userEmail session = User.email user
    ∧ UserSession.isActive session = true
    ∧ UserSession.createdAt session = now
    ∧ UserSession.expiresAt session = now + SESSION_DURATION_MS.
Proof.
  eexists. split.
  - run. destruct (cookie w) as [existing|]; [destruct (Js.truthy existing) |];
      step; reflexivity.
  - split_and!; reflexivity.
Qed.

Lemma destroySession_cookie w : cookie (destroySession w).2 = None.
Proof. reflexivity. Qed.

Lemma destroySession_trace w : trace (destroySession w).2 = trace w.
Proof.
  run. destruct (cookie w) as [sessionId|]; [| done].
  destruct (Js.truthy sessionId); [| done]. step.
  by destruct (sessions w !! sessionId).
Qed.

Lemma destroySession_sessions w :
  sessions (destroySession w).2 =
    match cookie w with
    | Some sessionId =>
        if Js.truthy sessionId then delete sessionId (sessions w) else sessions w
    | None => sessions w
    end.
Proof.
  run. destruct (cookie w) as [sessionId|]; [| done].
  destruct (Js.truthy sessionId); [| done]. step.
  destruct (sessions w !! sessionId); step; [| done].
  apply delete_insert_eq.
Qed.

(** [getSession] on a cookie that names a stored record. *)
Lemma getSession_found w now sessionId session :
  cookie w = Some sessionId → sessionId ≠ "" → sessions w !! sessionId = Some session →
  getSession now w =
    if negb (UserSession.isActive session) || (UserSession.expiresAt session <? now)
    then (None,
          {| cookie := None; sessions := delete sessionId (sessions w);
             trace := trace w ++ [Console "[Session] Session expired or inactive for user:"] |})
    else (Some (UserSession.setLastAccessed now session),
          {| cookie := Some sessionId;
             sessions := <[sessionId := UserSession.setLastAccessed now session]> (sessions w);
             trace := trace w ++ [Console "[Session] Valid session found for user:"] |}).
Proof.
  intros Hc Hne Hs. apply truthy_spec in Hne.
  run. rewrite Hc. step. rewrite Hne. cbn [negb]. rewrite Hs. step.
  destruct (negb (UserSession.isActive session) || (UserSession.expiresAt session <? now));
    step; by rewrite ?Hc.
Qed.

(** Whatever [getSession] finds, it leaves one line on the console; when
    it returns none, the line is one of three. *)
Lemma getSession_none_trace w now :
  (getSession now w).1 = None →
  ∃ line, trace (getSession now w).2 = (trace w ++ [Console line])%list
          ∧ line ∈ [ "[Session] No session cookie found";
                     "[Session] Session not found in store for ID:";
                     "[Session] Session expired or inactive for user:" ].
Proof.
  run. destruct (cookie w) as [sessionId|]; step; [| intros _; eexists; split; [done | set_solver]].
  destruct (Js.truthy sessionId); cbn [negb]; step;
    [| intros _; eexists; split; [done | set_solver]].
  destruct (sessions w !! sessionId) as [session|]; step;
    [| intros _; eexists; split; [done | set_solver]].
  destruct (negb (UserSession.isActive session) || (UserSession.expiresAt session <? now));
    step; [intros _; eexists; split; [done | set_solver] | discriminate].
Qed.

Lemma getCurrentUser_getSession w now :
  getCurrentUser now w =
    (match (getSession now w).1 with
     | None => None
     | Some session =>
         Some {| User.id := UserSession.id session;
                 User.email := UserSession.userEmail session;
                 User.firstName := UserSession.firstName session;
                 User.lastName := UserSession.lastName session;
                 User.activePlans := UserSession.activePlans session;
                 User.bestPlanId := UserSession.bestPlanId session;
                 User.memberstackId := UserSession.memberstackId session |}
     end, (getSession now w).2).
Proof.
  unfold getCurrentUser, mbind, M_bind, mret, M_ret. cbn [fst snd].
  by destruct (getSession now w).1.
Qed.

Lemma world_eq (w1 w2 : World) :
  cookie w1 = cookie w2 → sessions w1 = sessions w2 → trace w1 = trace w2 → w1 = w2.
Proof. destruct w1, w2; simpl; by intros -> -> ->. Qed.

End SessionManager.

(** C3. [createSession] deletes the record of the cookie it finds before it
    stores the new record.  Hence two calls in sequence, the second on the
    cookie the first has set, leave the first session id without a record
    and the second with a valid one; when the store held nothing but the
    record of the initial cookie, that record is the only one left.  The
    ids are those [uuidv4] gives: non-empty and distinct. *)
Theorem createSession_twice
    (w : Session.World) (user1 user2 : User.t) (id1 id2 : string) (t1 t2 : Z) :
  id1 ≠ "" → id1 ≠ id2 →
  let w1 := (Session.createSession user1 id1 t1 w).2 in
  let w2 := (Session.createSession user2 id2 t2 w1).2 in
  (∀ existing, Session.cookie w = Some existing → existing ≠ "" →
     ∃ session1, Session.sessions w1 = <[id1 := session1]> (delete existing (Session.sessions w)))
  ∧ is_Some (Session.sessions w1 !! id1)
  ∧ Session.sessions w2 !! id1 = None
  ∧ Session.cookie w2 = Some id2
  ∧ ∃ session2,
      Session.sessions w2 !! id2 = Some session2
      ∧ UserSession.id session2 = id2
      ∧ UserSession.isActive session2 = true
      ∧ t2 < UserSession.expiresAt session2
      ∧ ((∀ k, is_Some (Session.sessions w !! k) → Session.cookie w = Some k ∧ k ≠ "") →
         Session.sessions w2 = {[ id2 := session2 ]}).
Proof.
  intros Hid1 Hne w1 w2.
  destruct (createSession_sessions user1 id1 t1 w) as (s1 & Hw1 & _).
  destruct (createSession_sessions user2 id2 t2 w1) as (s2 & Hw2 & Hid & _ & Hact & _ & Hexp).
  fold w1 in Hw1. fold w2 in Hw2.
  assert (Session.cookie w1 = Some id1) as Hc1 by reflexivity.
  rewrite Hc1 in Hw2. apply truthy_spec in Hid1. rewrite Hid1 in Hw2.
  split_and!.
  - intros existing Hc Hex. exists s1. rewrite Hw1, Hc.
    apply truthy_spec in Hex. by rewrite Hex.
  - rewrite Hw1, lookup_insert_eq. eauto.
  - rewrite Hw2, lookup_insert_ne, lookup_delete_eq; done.
  - reflexivity.
  - exists s2. split_and!.
    + by rewrite Hw2, lookup_insert_eq.
    + done.
    + done.
    + rewrite Hexp. unfold Session.SESSION_DURATION_MS. lia.
    + intros Honly. rewrite Hw2. apply map_eq. intros k.
      destruct (decide (k = id2)) as [-> | Hk2].
      { by rewrite lookup_insert_eq, lookup_singleton_eq. }
      rewrite lookup_insert_ne, lookup_singleton_ne by done.
      destruct (decide (k = id1)) as [-> | Hk1].
      { by rewrite lookup_delete_eq. }
      rewrite lookup_delete_ne, Hw1, lookup_insert_ne by done.
      destruct (Session.cookie w) as [existing|] eqn:Hc.
      * destruct (Js.truthy existing) eqn:Hex.
        -- destruct (decide (k = existing)) as [-> | Hke].
           ++ by rewrite lookup_delete_eq.
           ++ rewrite lookup_delete_ne by done.
              destruct (Session.sessions w !! k) eqn:Hk; [| done].
              destruct (Honly k) as [Heq _]; [eauto | congruence].
        -- destruct (Session.sessions w !! k) eqn:Hk; [| done].
           destruct (Honly k) as [Heq Hnonempty]; [eauto |].
           injection Heq as <-. apply truthy_spec in Hnonempty. congruence.
      * destruct (Session.sessions w !! k) eqn:Hk; [| done].
        destruct (Honly k) as [Heq _]; [eauto | discriminate].
Qed.

(** Two logins in a row from a browser that is signed in: of the three
    session ids it has held, only the last has a record. *)
Lemma createSession_twice_example :
  let user := {| User.id := "mem_1"; User.email := "member@example.com";
                 User.firstName := "Ada"; User.lastName := "Lee";
                 User.activePlans := ["pln_advanced-ni690fz3"];
                 User.bestPlanId := Some "pln_advanced-ni690fz3";
                 User.memberstackId := "mem_1" |} in
  let w := Sample.signedIn (Some "pln_advanced-ni690fz3") in
  let w1 := (Session.createSession user "sid-2" 2000 w).2 in
  let w2 := (Session.createSession user "sid-3" 3000 w1).2 in
  Session.sessions w2 !! "sid-1" = None
  ∧ Session.sessions w2 !! "sid-2" = None
  ∧ is_Some (Session.sessions w2 !! "sid-3")
  ∧ size (Session.sessions w2) = 1%nat.
Proof.
  intros user w w1 w2.
  assert ("sid-2" ≠ "") as Hnonempty by discriminate.
  assert ("sid-2" ≠ "sid-3") as Hfresh by discriminate.
  destruct (createSession_twice w user user "sid-2" "sid-3" 2000 3000 Hnonempty Hfresh)
    as (_ & _ & Hgone & _ & session2 & _ & _ & _ & _ & Honly).
  fold w1 in Hgone, Honly. fold w2 in Hgone, Honly.
  assert (Session.sessions w2 = {[ "sid-3" := session2 ]}) as Hw2.
  { apply Honly. intros k [s Hk]. destruct (decide (k = "sid-1")) as [-> | Hk1].
    - split; [reflexivity | discriminate].
    - unfold w, Sample.signedIn in Hk. cbn [Session.sessions] in Hk.
      rewrite lookup_singleton_ne in Hk by done. discriminate. }
  rewrite Hw2. split_and!.
  - by rewrite lookup_singleton_ne.
  - by rewrite lookup_singleton_ne.
  - rewrite lookup_singleton_eq. eauto.
  - apply map_size_singleton.
Defined.

(** C4, as the code has it.  For a cookie that names a stored record,
    [getSession] returns the record (its [lastAccessed] refreshed, and
    written back) if and only if the record is active and [now] is not past
    [expiresAt], that is [now <= expiresAt]; otherwise, an expired record
    with the active flag still set included, it deletes the record, clears
    the cookie and returns none. *)
Theorem getSession_valid_iff
    (w : Session.World) (now : Z) (sessionId : string) (session : UserSession.t) :
  Session.cookie w = Some sessionId → sessionId ≠ "" →
  Session.sessions w !! sessionId = Some session →
  let valid := UserSession.isActive session = true ∧ now ≤ UserSession.expiresAt session in
  let r := Session.getSession now w in
  (is_Some r.1 ↔ valid)
  ∧ (valid →
       r.1 = Some (UserSession.setLastAccessed now session)
       ∧ Session.sessions r.2
         = <[sessionId := UserSession.setLastAccessed now session]> (Session.sessions w)
       ∧ Session.cookie r.2 = Some sessionId)
  ∧ (¬ valid →
       r.1 = None
       ∧ Session.sessions r.2 = delete sessionId (Session.sessions w)
       ∧ Session.cookie r.2 = None).
Proof.
  intros Hc Hne Hs valid r. subst r.
  rewrite (getSession_found w now sessionId session Hc Hne Hs).
  destruct (negb (UserSession.isActive session) || (UserSession.expiresAt session <? now))
    eqn:Htest; cbn [fst snd Session.cookie Session.sessions].
  - assert (¬ valid) as Hinvalid.
    { intros Hv. apply getSession_test in Hv. congruence. }
    split_and!; [split; [by intros [? ?] | done] | done | done].
  - apply getSession_test in Htest.
    split_and!; [split; [done | eauto] | done | done].
Qed.

(** A record that expired while still flagged active: looking it up one
    millisecond late deletes it and clears the cookie. *)
Lemma getSession_expired_example :
  let r := Session.getSession 86400001 (Sample.signedIn None) in
  r.1 = None ∧ Session.sessions r.2 !! "sid-1" = None ∧ Session.cookie r.2 = None.
Proof.
  intros r.
  destruct (getSession_valid_iff (Sample.signedIn None) 86400001 "sid-1" (Sample.session None))
    as (_ & _ & Hinvalid).
  - reflexivity.
  - discriminate.
  - apply lookup_singleton_eq.
  - destruct Hinvalid as (Hr & Hstore & Hcookie).
    + simpl. lia.
    + fold r in Hr, Hstore, Hcookie. split_and!; [done | | done].
      rewrite Hstore. apply lookup_delete_eq.
Defined.

(** C4 as stated fails at the instant [now = expiresAt]: the code tests
    [expiresAt < now], so the record is still returned although
    [now < expiresAt] does not hold. *)
Lemma getSession_at_expiry_instant :
  ¬ (∀ (w : Session.World) (now : Z) (sessionId : string) (session : UserSession.t),
       Session.cookie w = Some sessionId → sessionId ≠ "" →
       Session.sessions w !! sessionId = Some session →
       (is_Some (Session.getSession now w).1
        ↔ UserSession.isActive session = true ∧ now < UserSession.expiresAt session)).
Proof.
  intros Hclaim.
  destruct (Hclaim (Sample.signedIn None) 86400000 "sid-1" (Sample.session None))
    as [Hreturned _].
  - reflexivity.
  - discriminate.
  - apply lookup_singleton_eq.
  - destruct Hreturned as [_ Hlt]; [| simpl in Hlt; lia].
    rewrite (getSession_found (Sample.signedIn None) 86400000 "sid-1" (Sample.session None));
      [by eexists | reflexivity | discriminate | apply lookup_singleton_eq].
Qed.

(** C9. [destroySession] always ends with the cookie cleared and raises
    nothing (the model is total); run again it changes nothing more.  With
    no cookie on the request it is a no-op: store, cookie and trace are as
    before.  With a cookie that names no record the store is unchanged. *)
Theorem destroySession_idempotent (w : Session.World) :
  Session.cookie (Session.destroySession w).2 = None
  ∧ (Session.destroySession (Session.destroySession w).2).2 = (Session.destroySession w).2
  ∧ (Session.cookie w = None → (Session.destroySession w).2 = w)
  ∧ (Session.cookie w = Some "" →
       Session.sessions (Session.destroySession w).2 = Session.sessions w)
  ∧ (∀ sessionId, Session.cookie w = Some sessionId →
       Session.sessions w !! sessionId = None →
       Session.sessions (Session.destroySession w).2 = Session.sessions w).
Proof.
  split_and!.
  - apply destroySession_cookie.
  - apply world_eq.
    + by rewrite !destroySession_cookie.
    + by rewrite (destroySession_sessions (Session.destroySession w).2), destroySession_cookie.
    + by rewrite !destroySession_trace.
  - intros Hc. apply world_eq.
    + by rewrite destroySession_cookie.
    + by rewrite destroySession_sessions, Hc.
    + apply destroySession_trace.
  - intros Hc. by rewrite destroySession_sessions, Hc.
  - intros sessionId Hc Hnone. rewrite destroySession_sessions, Hc.
    destruct (Js.truthy sessionId); [| done]. by apply delete_id.
Qed.

(** Logging out of a browser that holds no cookie, on a store with someone
    else's session: nothing changes. *)
Lemma destroySession_no_cookie_example :
  (Session.destroySession Sample.anonymous).2 = Sample.anonymous.
Proof.
  exact (proj1 (proj2 (proj2 (destroySession_idempotent Sample.anonymous))) eq_refl).
Defined.

(** ** The subscription endpoint *)
Section Endpoint.
Import Session Subscription.

Lemma GET_unauthenticated sessionNow upstream today w :
  (getCurrentUser sessionNow w).1 = None →
  GET sessionNow upstream today w
  = ({| status := 401; body := ErrorBody false "Not authenticated" |},
     (getCurrentUser sessionNow w).2).
Proof.
  intros Hnone. unfold GET, mbind, M_bind. cbn [fst snd].
  destruct (getCurrentUser sessionNow w) as [user w']. simpl in Hnone. by subst user.
Qed.

(** The left-over the handler computes from a limit it read. *)
Lemma left_of_limit (limit used : Z) :
  (if Js.strictEq (Some (Js.Num limit)) (-1) then Js.Num (-1)
   else Js.Math_max 0 (Js.minus (Some (Js.Num limit)) used))
  = Js.Num (remaining limit used).
Proof.
  unfold remaining. cbn [Js.strictEq Js.minus Js.Math_max].
  destruct (Z.eqb_spec limit (-1)); case_decide; done.
Qed.

(** The response for a user whose plan lookup gave a catalog entry. *)
Lemma GET_entry sessionNow upstream today w user entry :
  (getCurrentUser sessionNow w).1 = Some user →
  getPlanDetails (User.bestPlanId user) = Catalog.Entry entry →
  let used := usageOf today upstream in
  (GET sessionNow upstream today w).1 =
    {| status := 200;
       body := SubscriptionBody true
         {| plan := {| plan_id := Some (Catalog.id entry);
                       plan_name := Some (Catalog.name entry);
                       plan_tier := Some (Js.Num (Catalog.tier entry));
                       description := getPlanDescription (Some (Catalog.name entry)) |};
            usage := {| propertyReportsUsed := used.1;
                        propertyReportsLimit := Some (Js.Num (Catalog.propertyReports entry));
                        propertyReportsLeft :=
                          Js.Num (remaining (Catalog.propertyReports entry) used.1);
                        suburbReportsUsed := used.2;
                        suburbReportsLimit := Some (Js.Num (Catalog.suburbReports entry));
                        suburbReportsLeft :=
                          Js.Num (remaining (Catalog.suburbReports entry) used.2) |};
            features := {| suburbFinder :=
                             if (3 <=? Catalog.tier entry) || (2 <=? Catalog.tier entry)
                             then unlimited else limited;
                           propertyFinder :=
                             if (3 <=? Catalog.tier entry) || (2 <=? Catalog.tier entry)
                             then unlimited else limited;
                           csvExport := 2 <=? Catalog.tier entry;
                           prioritySupport := 3 <=? Catalog.tier entry |} |} |}.
Proof.
  intros Huser Hplan used. unfold GET, mbind, M_bind. cbn [fst snd].
  destruct (getCurrentUser sessionNow w) as [u w']. simpl in Huser. subst u.
  cbn [fst snd]. rewrite Hplan.
  rewrite <- !left_of_limit.
  destruct upstream; reflexivity.
Qed.

End Endpoint.

(** ** Counting the orders of the month *)
Section Counting.
Import Subscription.

Variable today : Today.

(** What one order adds to the pair of counters. *)
Lemma countOrder_adds (used : Z * Z) (order : Order) :
  countOrder today used order
  = (used.1 + (countOrder today (0, 0) order).1,
     used.2 + (countOrder today (0, 0) order).2).
Proof.
  destruct used as [p s]. unfold countOrder.
  destruct (inCurrentMonth today order); cbn [fst snd].
  - destruct (String.eqb _ "Property"); cbn [fst snd]; [f_equal; lia |].
    destruct (String.eqb _ "Suburb"); cbn [fst snd]; f_equal; lia.
  - f_equal; lia.
Qed.

Lemma fold_countOrder (orders : list Order) (used : Z * Z) :
  fold_left (countOrder today) orders used
  = (used.1 + (countOrders today orders).1, used.2 + (countOrders today orders).2).
Proof.
  unfold countOrders. revert used.
  induction orders as [|order orders IH]; intros used; cbn [fold_left].
  - destruct used; cbn [fst snd]. f_equal; lia.
  - rewrite IH, (IH (countOrder today (0, 0) order)), (countOrder_adds used).
    cbn [fst snd]. f_equal; lia.
Qed.

Lemma countOrders_cons (order : Order) (orders : list Order) :
  countOrders today (order :: orders)
  = ((countOrder today (0, 0) order).1 + (countOrders today orders).1,
     (countOrder today (0, 0) order).2 + (countOrders today orders).2).
Proof. unfold countOrders at 1. cbn [fold_left]. apply fold_countOrder. Qed.

Lemma countOrders_app (before after : list Order) :
  countOrders today (before ++ after)
  = ((countOrders today before).1 + (countOrders today after).1,
     (countOrders today before).2 + (countOrders today after).2).
Proof.
  unfold countOrders at 1. rewrite fold_left_app.
  rewrite fold_countOrder. fold (countOrders today before). done.
Qed.

(** The loop counts, per category, the orders of the current month. *)
Lemma countOrders_filter (orders : list Order) :
  countOrders today orders
  = (Z.of_nat (length (List.filter
       (λ o, inCurrentMonth today o && String.eqb (report_category o) "Property") orders)),
     Z.of_nat (length (List.filter
       (λ o, inCurrentMonth today o && String.eqb (report_category o) "Suburb") orders))).
Proof.
  induction orders as [|order orders IH]; [done |].
  rewrite countOrders_cons, IH. cbn [List.filter fst snd]. unfold countOrder.
  destruct (inCurrentMonth today order); cbn [andb fst snd]; [| done].
  destruct (String.eqb_spec (report_category order) "Property") as [Hp | Hp].
  - rewrite Hp. cbn [String.eqb Ascii.eqb Bool.eqb fst snd length]. f_equal; lia.
  - destruct (String.eqb (report_category order) "Suburb");
      cbn [fst snd length]; f_equal; lia.
Qed.

Lemma countOrders_nonneg (orders : list Order) :
  0 ≤ (countOrders today orders).1 ∧ 0 ≤ (countOrders today orders).2.
Proof. rewrite countOrders_filter. cbn [fst snd]. lia. Qed.

End Counting.

(** ** Reading a day-month-year date *)
Section Dates.

Lemma digit_not_hyphen (c : ascii) (d : Z) :
  Js.digitValue c = Some d → Ascii.eqb c "-" = false.
Proof.
  intros Hd. destruct (Ascii.eqb_spec c "-") as [-> | Hne]; [discriminate | done].
Qed.

(** A run of digits holds no separator: [split] reads through it. *)
Lemma splitFrom_digits (s cur : string) (acc z : Z) :
  Js.decimalFrom acc s = Some z →
  Js.splitFrom "-" cur s = [(cur ++ s)%string]
  ∧ ∀ rest, Js.splitFrom "-" cur (s ++ String "-" rest)
            = (cur ++ s)%string :: Js.splitFrom "-" "" rest.
Proof.
  revert cur acc. induction s as [|c s IH]; intros cur acc Hdec.
  - rewrite append_nil_r. split; [done |]. intros rest. cbn. done.
  - cbn [Js.decimalFrom] in Hdec.
    destruct (Js.digitValue c) as [d|] eqn:Hd; [| discriminate].
    pose proof (digit_not_hyphen c d Hd) as Hc.
    destruct (IH (cur ++ String c "")%string _ Hdec) as [IH1 IH2].
    assert ((cur ++ String c "") ++ s = cur ++ String c s)%string as Happ.
    { by rewrite append_assoc. }
    split.
    + cbn [Js.splitFrom]. by rewrite Hc, IH1, Happ.
    + intros rest. rewrite append_cons. cbn [Js.splitFrom]. by rewrite Hc, IH2, Happ.
Qed.

(** A decimal digit is a digit of radix ten and nothing else the grammar
    of numeric literals gives a meaning to. *)
Lemma digit_plain (c : ascii) (d : Z) :
  Js.digitValue c = Some d →
  Js.radixDigit 10 c = Some d ∧ 0 ≤ d ≤ 9
  ∧ Js.isStrWhiteSpace c = false
  ∧ Ascii.eqb c "+" = false ∧ Ascii.eqb c "-" = false ∧ Ascii.eqb c "." = false
  ∧ Ascii.eqb "I" c = false
  ∧ (Ascii.eqb c "x" || Ascii.eqb c "X") = false
  ∧ (Ascii.eqb c "o" || Ascii.eqb c "O") = false
  ∧ (Ascii.eqb c "b" || Ascii.eqb c "B") = false.
Proof.
  destruct c as [[] [] [] [] [] [] [] []]; intros Hd; vm_compute in Hd;
    try discriminate Hd; injection Hd as <-; by vm_compute.
Qed.

Lemma decimalFrom_lower (s : string) (acc z : Z) :
  0 ≤ acc → Js.decimalFrom acc s = Some z → acc ≤ z.
Proof.
  revert acc. induction s as [|c s IH]; intros acc Hacc; cbn [Js.decimalFrom].
  - intros [= <-]. lia.
  - destruct (Js.digitValue c) as [d|] eqn:Hd; [| done].
    destruct (digit_plain c d Hd) as (_ & Hrange & _).
    intros Hdec. apply IH in Hdec; lia.
Qed.

(** [readDigits] reads a run of decimal digits to its end. *)
Lemma readDigits_digits (s : string) (acc : Z) (count : nat) (z : Z) :
  Js.decimalFrom acc s = Some z →
  Js.readDigits 10 acc count s = (z, (count + String.length s)%nat, "").
Proof.
  revert acc count. induction s as [|c s IH]; intros acc count; cbn [Js.decimalFrom].
  - intros [= <-]. cbn. by rewrite Nat.add_0_r.
  - destruct (Js.digitValue c) as [d|] eqn:Hd; [| done].
    destruct (digit_plain c d Hd) as (Hradix & _).
    intros Hdec. cbn [Js.readDigits String.length]. rewrite Hradix, (IH _ (S count) Hdec).
    do 2 f_equal. lia.
Qed.

(** A numeral is a literal: its mantissa is its value, its exponent 0. *)
Lemma Number_literal (s : string) (z : Z) :
  numeral s z →
  Js.Number s = Js.numberOfLiteral (Js.Finite false z 0).
Proof.
  intros [Hne Hdec]. destruct s as [|c s]; [done |].
  pose proof Hdec as Hread. apply (readDigits_digits _ 0 0%nat) in Hread.
  cbn [Js.decimalFrom] in Hdec.
  destruct (Js.digitValue c) as [d|] eqn:Hd; [| done].
  destruct (digit_plain c d Hd) as (_ & _ & Hws & Hplus & Hminus & _ & HI & _).
  unfold Js.Number. cbn [Js.skipWhiteSpace]. rewrite Hws.
  assert (Js.nonDecimalLiteral (String c s) = None) as ->.
  { destruct s as [|c' s]; [done |]. cbn [Js.nonDecimalLiteral Js.decimalFrom] in Hdec |- *.
    destruct (Ascii.eqb c "0"); [| done].
    destruct (Js.digitValue c') as [d'|] eqn:Hd'; [| done].
    destruct (digit_plain c' d' Hd') as (_ & _ & _ & _ & _ & _ & _ & -> & -> & ->). done. }
  unfold Js.decimalLiteral. rewrite Hplus, Hminus.
  unfold Js.unsignedLiteral. cbn [Js.stripPrefix]. rewrite HI.
  unfold Js.unsignedDecimal. rewrite Hread. cbn [String.length Nat.add Nat.eqb].
  by cbn [Js.onlyWhiteSpace Js.skipWhiteSpace].
Qed.

Lemma roundHalfEven_whole (n : Z) : Js.roundHalfEven n 1 = n.
Proof. unfold Js.roundHalfEven. rewrite Z.div_1_r, Z.mod_1_r. done. Qed.

Lemma roundHalfEven_lower (num den : Z) : num / den ≤ Js.roundHalfEven num den.
Proof.
  unfold Js.roundHalfEven.
  destruct (_ <? den); [lia |]. destruct (den <? _); [lia |].
  destruct (Z.even _); lia.
Qed.

(** An integer below [2^53] is a double; a larger one is rounded to a
    double that is no smaller than [2^53], or to the infinity. *)
Lemma toDouble_integer (z : Z) :
  0 < z →
  (z < 2 ^ 53 → Js.toDouble z 0 = Js.Num z)
  ∧ (2 ^ 53 ≤ z →
     (∃ z', Js.toDouble z 0 = Js.Num z' ∧ 2 ^ 53 ≤ z')
     ∨ Js.toDouble z 0 = Js.Infinity false).
Proof.
  intros Hpos. unfold Js.toDouble.
  change (0 <=? 0) with true. cbn iota.
  rewrite Z.pow_0_r, Z.mul_1_r. change (Z.log2 1) with 0. rewrite Z.sub_0_r.
  pose proof (Z.log2_nonneg z) as Hlog.
  destruct (Z.log2_spec z Hpos) as [Hlow Hhigh].
  assert ((0 <=? Z.log2 z) = true) as -> by (apply Z.leb_le; lia).
  assert ((z <? 1 * 2 ^ Z.log2 z) = false) as -> by (apply Z.ltb_ge; lia).
  rewrite Z.max_l by lia.
  split.
  - intros Hsmall. assert (Z.log2 z < 53) as Hlt by (by apply Z.log2_lt_pow2).
    assert ((0 <=? 52 - Z.log2 z) = true) as -> by (apply Z.leb_le; lia).
    rewrite roundHalfEven_whole.
    assert (0 < 2 ^ (52 - Z.log2 z)) as Hpow by (apply Z.pow_pos_nonneg; lia).
    rewrite Z.mod_mul, Z.div_mul by lia. done.
  - intros Hlarge. assert (53 ≤ Z.log2 z) as Hge by (by apply Z.log2_le_pow2).
    assert ((0 <=? 52 - Z.log2 z) = false) as -> by (apply Z.leb_gt; lia).
    replace (- (52 - Z.log2 z)) with (Z.log2 z - 52) by lia. rewrite Z.mul_1_l.
    set (scale := 2 ^ (Z.log2 z - 52)).
    assert (0 < scale) as Hscale by (apply Z.pow_pos_nonneg; lia).
    assert (2 ^ 52 * scale = 2 ^ Z.log2 z) as Hsplit.
    { unfold scale. rewrite <- Z.pow_add_r by lia. f_equal. lia. }
    assert (2 ^ 52 ≤ z / scale) as Hquot.
    { apply Z.div_le_lower_bound; lia. }
    pose proof (roundHalfEven_lower z scale) as Hround.
    destruct (2 ^ 1024 <=? _); [by right |]. left. eexists. split; [done |].
    assert (2 ≤ scale) as Htwo.
    { change 2 with (2 ^ 1) at 1. apply Z.pow_le_mono_r; lia. }
    transitivity (2 ^ 52 * scale).
    + change (2 ^ 53) with (2 ^ 52 * 2). apply Z.mul_le_mono_nonneg_l; lia.
    + apply Z.mul_le_mono_nonneg_r; lia.
Qed.

(** What [Number] makes of a numeral. *)
Lemma Number_numeral (s : string) (z : Z) :
  numeral s z →
  0 ≤ z
  ∧ (z < 2 ^ 53 → Js.Number s = Js.Num z)
  ∧ (2 ^ 53 ≤ z →
     (∃ z', Js.Number s = Js.Num z' ∧ 2 ^ 53 ≤ z') ∨ Js.Number s = Js.Infinity false).
Proof.
  intros Hnum. rewrite (Number_literal s z Hnum).
  assert (0 ≤ z) as Hz by (apply (decimalFrom_lower s 0 z); [lia | apply Hnum]).
  split; [done |]. cbn [Js.numberOfLiteral].
  destruct (Z.eqb_spec z 0) as [-> | Hnz].
  - split; [done | intros Hlarge; by vm_compute in Hlarge].
  - apply toDouble_integer. lia.
Qed.

(** The test [Number(s) === k] on a numeral, for a [k] that is a double. *)
Lemma strictEq_numeral (s : string) (z k : Z) :
  numeral s z → k < 2 ^ 53 →
  Js.strictEq (Some (Js.Number s)) k = true ↔ z = k.
Proof.
  intros Hnum Hk. destruct (Number_numeral s z Hnum) as (Hz & Hsmall & Hlarge).
  destruct (Z.lt_ge_cases z (2 ^ 53)) as [Hlt | Hge].
  - rewrite (Hsmall Hlt). cbn [Js.strictEq]. apply Z.eqb_eq.
  - destruct (Hlarge Hge) as [(z' & -> & Hz') | ->]; cbn [Js.strictEq].
    + rewrite Z.eqb_eq. lia.
    + split; [done | lia].
Qed.

(** The test [Number(s) - 1 === k]. *)
Lemma strictEq_minus_numeral (s : string) (z k : Z) :
  numeral s z → k + 1 < 2 ^ 53 →
  Js.strictEq (Some (Js.minus (Some (Js.Number s)) 1)) k = true ↔ z = k + 1.
Proof.
  intros Hnum Hk. destruct (Number_numeral s z Hnum) as (Hz & Hsmall & Hlarge).
  destruct (Z.lt_ge_cases z (2 ^ 53)) as [Hlt | Hge].
  - rewrite (Hsmall Hlt). cbn [Js.strictEq Js.minus]. rewrite Z.eqb_eq. lia.
  - destruct (Hlarge Hge) as [(z' & -> & Hz') | ->]; cbn [Js.strictEq Js.minus].
    + rewrite Z.eqb_eq. lia.
    + split; [done | lia].
Qed.

Lemma split_dayMonthYear (s : string) (day month year : Z) :
  dayMonthYear s day month year →
  ∃ d m y, Js.split "-" s = [d; m; y]
           ∧ numeral d day ∧ numeral m month ∧ numeral y year.
Proof.
  intros (d & m & y & -> & Hd & Hm & Hy). exists d, m, y. split; [| done].
  unfold Js.split.
  destruct (splitFrom_digits d "" 0 day (proj2 Hd)) as [_ Hd2].
  destruct (splitFrom_digits m "" 0 month (proj2 Hm)) as [_ Hm2].
  destruct (splitFrom_digits y "" 0 year (proj2 Hy)) as [Hy1 _].
  change ("-" ++ m ++ "-" ++ y)%string with (String "-" (m ++ String "-" y))%string.
  by rewrite Hd2, Hm2, Hy1, !append_nil_l.
Qed.

(** The month test of the handler on a well-formed date. *)
Lemma inCurrentMonth_spec today order (day month year : Z) :
  calendar today →
  dayMonthYear (Subscription.date order) day month year →
  Subscription.inCurrentMonth today order = true
  ↔ month = Subscription.getMonth today + 1 ∧ year = Subscription.getFullYear today.
Proof.
  intros [Hmonth Hyear] Hdate. unfold Subscription.inCurrentMonth.
  destruct (split_dayMonthYear _ _ _ _ Hdate) as (d & m & y & -> & _ & Hm & Hy).
  cbn [map lookup list_lookup].
  rewrite andb_true_iff, (strictEq_numeral y year _ Hy), (strictEq_minus_numeral m month _ Hm).
  - lia.
  - change (2 ^ 53) with 9007199254740992. lia.
  - change (2 ^ 53) with 9007199254740992. lia.
Qed.

End Dates.

(** ** Order histories *)
Section Histories.
Import Subscription.

(** The count does not depend on the order of the history. *)
Lemma countOrders_Permutation today (orders orders' : list Order) :
  orders ≡ₚ orders' → countOrders today orders = countOrders today orders'.
Proof.
  induction 1 as [| o l l' _ IH | o o' l | l l' l'' _ IH1 _ IH2].
  - done.
  - by rewrite !countOrders_cons, IH.
  - rewrite !countOrders_cons. cbn [fst snd]. f_equal; lia.
  - by rewrite IH1.
Qed.

(** An order of the current month in a metered category adds one to the
    counter of its category. *)
Lemma countOrder_thisMonth today (order : Order) :
  calendar today → thisMonth today order →
  countOrder today (0, 0) order
  = if String.eqb (report_category order) "Property" then (1, 0)
    else if String.eqb (report_category order) "Suburb" then (0, 1)
    else (0, 0).
Proof.
  intros Hcal (day & month & year & Hdate & Hmonth).
  unfold countOrder.
  by rewrite (proj2 (inCurrentMonth_spec today order day month year Hcal Hdate) Hmonth).
Qed.

(** An order of another month, or of a category without a counter, adds
    nothing. *)
Lemma countOrder_outside today (order : Order) :
  calendar today → otherMonth today order ∨ ¬ metered order →
  countOrder today (0, 0) order = (0, 0).
Proof.
  intros Hcal [(day & month & year & Hdate & Hother) | Hcategory]; unfold countOrder.
  - destruct (inCurrentMonth today order) eqn:Htest; [| done].
    apply (inCurrentMonth_spec today order day month year Hcal Hdate) in Htest. done.
  - destruct (inCurrentMonth today order); [| done].
    destruct (String.eqb_spec (report_category order) "Property") as [Hp | _].
    { destruct Hcategory. by left. }
    destruct (String.eqb_spec (report_category order) "Suburb") as [Hs | _]; [| done].
    destruct Hcategory. by right.
Qed.

Lemma countOrders_outside today (orders : list Order) :
  calendar today →
  (∀ o, o ∈ orders → otherMonth today o ∨ ¬ metered o) →
  countOrders today orders = (0, 0).
Proof.
  intros Hcal. induction orders as [|o orders IH]; intros Hout; [done |].
  rewrite countOrders_cons, IH, (countOrder_outside today o Hcal).
  - done.
  - apply Hout, list_elem_of_here.
  - intros o' Ho'. by apply Hout, list_elem_of_further.
Qed.

End Histories.

(** ** Responses of the subscription endpoint *)
Section Responses.
Import Session Subscription.

(** The response when the plan lookup came back with an inherited
    member: nothing numeric can be read off it. *)
Lemma GET_inherited sessionNow upstream today w user key :
  (getCurrentUser sessionNow w).1 = Some user →
  getPlanDetails (User.bestPlanId user) = Catalog.Inherited key →
  let used := usageOf today upstream in
  (GET sessionNow upstream today w).1 =
    {| status := 200;
       body := SubscriptionBody true
         {| plan := {| plan_id := None;
                       plan_name := Catalog.nameOf (Catalog.Inherited key);
                       plan_tier := None;
                       description :=
                         getPlanDescription (Catalog.nameOf (Catalog.Inherited key)) |};
            usage := {| propertyReportsUsed := used.1;
                        propertyReportsLimit := None;
                        propertyReportsLeft := Js.NaN;
                        suburbReportsUsed := used.2;
                        suburbReportsLimit := None;
                        suburbReportsLeft := Js.NaN |};
            features := {| suburbFinder := limited; propertyFinder := limited;
                           csvExport := false; prioritySupport := false |} |} |}.
Proof.
  intros Huser Hplan used. unfold GET, mbind, M_bind. cbn [fst snd].
  destruct (getCurrentUser sessionNow w) as [u w']. simpl in Huser. subst u.
  cbn [fst snd]. rewrite Hplan.
  destruct upstream; reflexivity.
Qed.

Lemma GET_undefined sessionNow upstream today w user :
  (getCurrentUser sessionNow w).1 = Some user →
  getPlanDetails (User.bestPlanId user) = Catalog.Undefined →
  (GET sessionNow upstream today w).1
  = {| status := 500; body := ErrorBody false "An error occurred" |}.
Proof.
  intros Huser Hplan. unfold GET, mbind, M_bind. cbn [fst snd].
  destruct (getCurrentUser sessionNow w) as [u w']. simpl in Huser. subst u.
  cbn [fst snd]. by rewrite Hplan.
Qed.

(** A subscription body comes from a signed-in user whose plan lookup
    gave a catalog entry or an inherited member. *)
Lemma GET_subscription_inv sessionNow upstream today w sub :
  body (GET sessionNow upstream today w).1 = SubscriptionBody true sub →
  ∃ user, (getCurrentUser sessionNow w).1 = Some user
          ∧ ((∃ entry, getPlanDetails (User.bestPlanId user) = Catalog.Entry entry)
             ∨ (∃ key, getPlanDetails (User.bestPlanId user) = Catalog.Inherited key)).
Proof.
  intros Hbody. destruct (getCurrentUser sessionNow w).1 as [user|] eqn:Huser.
  - exists user. split; [done |].
    destruct (getPlanDetails (User.bestPlanId user)) as [entry|key|] eqn:Hplan; [eauto | eauto |].
    rewrite (GET_undefined _ upstream today _ _ Huser Hplan) in Hbody. discriminate.
  - rewrite (GET_unauthenticated _ _ _ _ Huser) in Hbody. discriminate.
Qed.

(** The usage a subscription body reports is the count of the loop. *)
Lemma GET_usage sessionNow upstream today w sub :
  body (GET sessionNow upstream today w).1 = SubscriptionBody true sub →
  propertyReportsUsed (usage sub) = (usageOf today upstream).1
  ∧ suburbReportsUsed (usage sub) = (usageOf today upstream).2.
Proof.
  intros Hbody.
  destruct (GET_subscription_inv _ _ _ _ _ Hbody) as (user & Huser & [[entry Hplan] | [key Hplan]]).
  - rewrite (GET_entry _ upstream today _ _ _ Huser Hplan) in Hbody.
    cbn [body] in Hbody. by injection Hbody as <-.
  - rewrite (GET_inherited _ upstream today _ _ _ Huser Hplan) in Hbody.
    cbn [body] in Hbody. by injection Hbody as <-.
Qed.

End Responses.

(** C5. In every subscription response, for a plan limit [L] and the usage
    [U] reported next to it: if [L = -1] the remaining quota is [-1]
    (unlimited) whatever [U] is, and otherwise it is [max(0, L - U)], never
    negative. *)
Theorem remaining_quota sessionNow upstream today w sub :
  Subscription.body (Subscription.GET sessionNow upstream today w).1
  = Subscription.SubscriptionBody true sub →
  let u := Subscription.usage sub in
  (∀ L, Subscription.propertyReportsLimit u = Some (Js.Num L) →
     (L = -1 → Subscription.propertyReportsLeft u = Js.Num (-1))
     ∧ (L ≠ -1 →
        ∃ left, Subscription.propertyReportsLeft u = Js.Num left
                ∧ left = Z.max 0 (L - Subscription.propertyReportsUsed u) ∧ 0 ≤ left))
  ∧ (∀ L, Subscription.suburbReportsLimit u = Some (Js.Num L) →
     (L = -1 → Subscription.suburbReportsLeft u = Js.Num (-1))
     ∧ (L ≠ -1 →
        ∃ left, Subscription.suburbReportsLeft u = Js.Num left
                ∧ left = Z.max 0 (L - Subscription.suburbReportsUsed u) ∧ 0 ≤ left)).
Proof.
  intros Hbody u. subst u.
  destruct (GET_subscription_inv _ _ _ _ _ Hbody) as (user & Huser & [[entry Hplan] | [key Hplan]]).
  - rewrite (GET_entry _ upstream today _ _ _ Huser Hplan) in Hbody.
    cbn [Subscription.body] in Hbody. injection Hbody as <-.
    cbn [Subscription.usage Subscription.propertyReportsLimit Subscription.propertyReportsLeft
         Subscription.propertyReportsUsed Subscription.suburbReportsLimit
         Subscription.suburbReportsLeft Subscription.suburbReportsUsed].
    unfold remaining.
    split; intros L [= <-]; (split; intros HL; [by rewrite decide_True |]);
      rewrite decide_False by done; eexists; split_and!; [done | done | lia | done | done | lia].
  - rewrite (GET_inherited _ upstream today _ _ _ Huser Hplan) in Hbody.
    cbn [Subscription.body] in Hbody. injection Hbody as <-.
    split; intros L; discriminate.
Qed.

(** The example of the specification: limit 5, usage 7, remaining 0. *)
Lemma remaining_quota_example :
  let orders := repeat (Sample.order "Property" "01-11-2026") 7 in
  let r := Subscription.GET 1000 (Subscription.Orders orders) Sample.today
             (Sample.signedIn (Some "pln_essentials-vb1k04zy")) in
  ∃ sub, Subscription.body r.1 = Subscription.SubscriptionBody true sub
         ∧ Subscription.propertyReportsLimit (Subscription.usage sub) = Some (Js.Num 5)
         ∧ Subscription.propertyReportsUsed (Subscription.usage sub) = 7
         ∧ Subscription.propertyReportsLeft (Subscription.usage sub) = Js.Num 0.
Proof.
  intros orders r. eexists. split; [by vm_compute |]. split; [reflexivity |].
  split; [reflexivity |]. subst r.
  lazymatch goal with
  | |- Subscription.propertyReportsLeft (Subscription.usage ?s) = _ =>
      assert (Subscription.body
                (Subscription.GET 1000 (Subscription.Orders orders) Sample.today
                   (Sample.signedIn (Some "pln_essentials-vb1k04zy"))).1
              = Subscription.SubscriptionBody true s) as Hbody
        by (by vm_compute);
      destruct (proj1 (remaining_quota _ _ _ _ _ Hbody) 5 eq_refl) as [_ Hleft]
  end.
  destruct Hleft as (left & Hl & -> & _); [discriminate |]. exact Hl.
Defined.

(** C6. For an order whose date is in day-month-year form, the usage the
    endpoint reports includes the order if and only if the month and the
    year read from the date are the current month and year and its
    category is [Property] or [Suburb]; an order of another calendar month
    adds nothing, however close to the rollover, and neither does an order
    of any other category.  The response with the order in the history is
    compared with the response without it; [today] is a reading of
    [Date]. *)
Theorem usage_counts_current_month
    sessionNow today w before after order (day month year : Z) sub sub' :
  calendar today →
  dayMonthYear (Subscription.date order) day month year →
  Subscription.body
    (Subscription.GET sessionNow (Subscription.Orders (before ++ order :: after)) today w).1
  = Subscription.SubscriptionBody true sub →
  Subscription.body
    (Subscription.GET sessionNow (Subscription.Orders (before ++ after)) today w).1
  = Subscription.SubscriptionBody true sub' →
  let sameMonth :=
    month = Subscription.getMonth today + 1 ∧ year = Subscription.getFullYear today in
  let property s := Subscription.propertyReportsUsed (Subscription.usage s) in
  let suburb s := Subscription.suburbReportsUsed (Subscription.usage s) in
  (property sub + suburb sub = property sub' + suburb sub' + 1 ↔ sameMonth ∧ metered order)
  ∧ (sameMonth → Subscription.report_category order = "Property" →
       property sub = property sub' + 1 ∧ suburb sub = suburb sub')
  ∧ (sameMonth → Subscription.report_category order = "Suburb" →
       property sub = property sub' ∧ suburb sub = suburb sub' + 1)
  ∧ (¬ (sameMonth ∧ metered order) →
       property sub = property sub' ∧ suburb sub = suburb sub').
Proof.
  intros Hcal Hdate Hwith Hwithout sameMonth property suburb.
  subst property suburb. cbn beta.
  destruct (GET_usage _ _ _ _ _ Hwith) as [-> ->].
  destruct (GET_usage _ _ _ _ _ Hwithout) as [-> ->].
  cbn [usageOf].
  rewrite !countOrders_app, countOrders_cons. cbn [fst snd].
  pose proof (inCurrentMonth_spec today order day month year Hcal Hdate) as Hmonth.
  fold sameMonth in Hmonth. unfold Subscription.countOrder, metered.
  destruct (Subscription.inCurrentMonth today order).
  - assert sameMonth as Hsame by (by apply Hmonth).
    destruct (String.eqb_spec (Subscription.report_category order) "Property") as [Hp | Hp].
    + cbn [fst snd]. rewrite Hp.
      split_and!; [split; [by auto | lia] | intros _ _; lia | intros _ ?; discriminate
                  | intros Hnot; destruct Hnot; by auto].
    + destruct (String.eqb_spec (Subscription.report_category order) "Suburb") as [Hs | Hs].
      * cbn [fst snd]. rewrite Hs.
        split_and!; [split; [by auto | lia] | intros _ ?; discriminate | intros _ _; lia
                    | intros Hnot; destruct Hnot; by auto].
      * cbn [fst snd].
        split_and!; [split; [lia | intros [_ [? | ?]]; done] | done | done | intros _; lia].
  - assert (¬ sameMonth) as Hother.
    { intros Hsame. apply Hmonth in Hsame. discriminate. }
    cbn [fst snd].
    split_and!; [split; [lia | intros [? _]; done] | done | done | intros _; lia].
Qed.

(** An order of the last day of October, seen on the first of November:
    it is not part of the November usage. *)
Lemma usage_counts_rollover_example :
  let october := Sample.order "Property" "31-10-2026" in
  let november := Sample.order "Suburb" "01-11-2026" in
  let w := Sample.signedIn (Some "pln_essentials-vb1k04zy") in
  ∃ sub sub',
    Subscription.body
      (Subscription.GET 1000 (Subscription.Orders ([november] ++ october :: [])) Sample.today w).1
    = Subscription.SubscriptionBody true sub
    ∧ Subscription.body
        (Subscription.GET 1000 (Subscription.Orders ([november] ++ [])) Sample.today w).1
      = Subscription.SubscriptionBody true sub'
    ∧ Subscription.propertyReportsUsed (Subscription.usage sub)
      = Subscription.propertyReportsUsed (Subscription.usage sub')
    ∧ Subscription.suburbReportsUsed (Subscription.usage sub)
      = Subscription.suburbReportsUsed (Subscription.usage sub').
Proof.
  intros october november w. eexists. eexists.
  split; [by vm_compute |]. split; [by vm_compute |].
  lazymatch goal with
  | |- Subscription.propertyReportsUsed (Subscription.usage ?s) =
       Subscription.propertyReportsUsed (Subscription.usage ?s') ∧ _ =>
      assert (Subscription.body
                (Subscription.GET 1000
                   (Subscription.Orders ([november] ++ october :: [])) Sample.today w).1
              = Subscription.SubscriptionBody true s) as Hwith by (by vm_compute);
      assert (Subscription.body
                (Subscription.GET 1000
                   (Subscription.Orders ([november] ++ [])) Sample.today w).1
              = Subscription.SubscriptionBody true s') as Hwithout by (by vm_compute)
  end.
  assert (calendar Sample.today) as Hcal.
  { unfold calendar. simpl. lia. }
  assert (dayMonthYear (Subscription.date october) 31 10 2026) as Hdate.
  { exists "31", "10", "2026". repeat split; discriminate. }
  destruct (usage_counts_current_month 1000 Sample.today w [november] [] october
              31 10 2026 _ _ Hcal Hdate Hwith Hwithout)
    as (_ & _ & _ & Hother).
  apply Hother. simpl. lia.
Defined.

(** C6 as stated fails for an order of a category the endpoint keeps no
    count of: a [Region] order of the first of November 2026, seen that
    day, has the current month and year and yet adds nothing. *)
Lemma usage_skips_other_category :
  ¬ (∀ sessionNow today w before after order (day month year : Z) sub sub',
       calendar today →
       dayMonthYear (Subscription.date order) day month year →
       Subscription.body
         (Subscription.GET sessionNow (Subscription.Orders (before ++ order :: after))
            today w).1
       = Subscription.SubscriptionBody true sub →
       Subscription.body
         (Subscription.GET sessionNow (Subscription.Orders (before ++ after)) today w).1
       = Subscription.SubscriptionBody true sub' →
       (Subscription.propertyReportsUsed (Subscription.usage sub)
        + Subscription.suburbReportsUsed (Subscription.usage sub)
        = Subscription.propertyReportsUsed (Subscription.usage sub')
          + Subscription.suburbReportsUsed (Subscription.usage sub') + 1
        ↔ month = Subscription.getMonth today + 1
          ∧ year = Subscription.getFullYear today)).
Proof.
  intros Hclaim.
  pose (region := Sample.order "Region" "01-11-2026").
  pose (w := Sample.signedIn (Some "pln_essentials-vb1k04zy")).
  assert (∃ sub,
            Subscription.body
              (Subscription.GET 1000 (Subscription.Orders ([] ++ region :: []))
                 Sample.today w).1
            = Subscription.SubscriptionBody true sub
            ∧ Subscription.propertyReportsUsed (Subscription.usage sub) = 0
            ∧ Subscription.suburbReportsUsed (Subscription.usage sub) = 0)
    as (sub & Hwith & Hp & Hs).
  { eexists. split; [by vm_compute | done]. }
  assert (∃ sub',
            Subscription.body
              (Subscription.GET 1000 (Subscription.Orders ([] ++ [])) Sample.today w).1
            = Subscription.SubscriptionBody true sub'
            ∧ Subscription.propertyReportsUsed (Subscription.usage sub') = 0
            ∧ Subscription.suburbReportsUsed (Subscription.usage sub') = 0)
    as (sub' & Hwithout & Hp' & Hs').
  { eexists. split; [by vm_compute | done]. }
  assert (calendar Sample.today) as Hcal.
  { unfold calendar. simpl. lia. }
  assert (dayMonthYear (Subscription.date region) 1 11 2026) as Hdate.
  { exists "01", "11", "2026". repeat split; discriminate. }
  destruct (Hclaim 1000 Sample.today w [] [] region 1 11 2026 sub sub'
              Hcal Hdate Hwith Hwithout) as [_ Hcounted].
  rewrite Hp, Hs, Hp', Hs' in Hcounted.
  assert (0 + 0 = 0 + 0 + 1) as Habs; [| discriminate Habs].
  apply Hcounted. by vm_compute.
Qed.

(** C7. A valid session on the plan [pln_advanced-ni690fz3], with an order
    history that holds one [Property] order and one [Suburb] order dated in
    the current month and, besides them and in any order, only orders of
    another month or of a category without a counter: the endpoint answers
    plan Advanced, tier 2, one property report used and 29 left, one suburb
    report used and 19 left, CSV export on and priority support off. *)
Theorem advanced_subscription
    (w : Session.World) (sessionNow : Z) (today : Subscription.Today)
    (orders others : list Subscription.Order) (property suburb : Subscription.Order)
    (sessionId : string) (session : UserSession.t) :
  Session.cookie w = Some sessionId → sessionId ≠ "" →
  Session.sessions w !! sessionId = Some session →
  UserSession.isActive session = true → sessionNow ≤ UserSession.expiresAt session →
  UserSession.bestPlanId session = Some "pln_advanced-ni690fz3" →
  calendar today →
  orders ≡ₚ property :: suburb :: others →
  Subscription.report_category property = "Property" → thisMonth today property →
  Subscription.report_category suburb = "Suburb" → thisMonth today suburb →
  (∀ o, o ∈ others → otherMonth today o ∨ ¬ metered o) →
  ∃ sub,
    (Subscription.GET sessionNow (Subscription.Orders orders) today w).1
    = {| Subscription.status := 200;
         Subscription.body := Subscription.SubscriptionBody true sub |}
    ∧ Subscription.plan_name (Subscription.plan sub) = Some "Advanced"
    ∧ Subscription.plan_tier (Subscription.plan sub) = Some (Js.Num 2)
    ∧ Subscription.propertyReportsUsed (Subscription.usage sub) = 1
    ∧ Subscription.propertyReportsLeft (Subscription.usage sub) = Js.Num 29
    ∧ Subscription.suburbReportsUsed (Subscription.usage sub) = 1
    ∧ Subscription.suburbReportsLeft (Subscription.usage sub) = Js.Num 19
    ∧ Subscription.csvExport (Subscription.features sub) = true
    ∧ Subscription.prioritySupport (Subscription.features sub) = false.
Proof.
  intros Hc Hne Hs Hactive Hexp Hplan Hcal Horders Hpcat Hpdate Hscat Hsdate Hothers.
  assert (∃ user, (Session.getCurrentUser sessionNow w).1 = Some user
                  ∧ User.bestPlanId user = Some "pln_advanced-ni690fz3")
    as (user & Huser & Hbest).
  { rewrite getCurrentUser_getSession, (getSession_found w sessionNow sessionId session Hc Hne Hs).
    rewrite (proj2 (getSession_test session sessionNow)) by done.
    cbn [fst]. eexists. split; [reflexivity | exact Hplan]. }
  assert (∃ entry, Subscription.getPlanDetails (User.bestPlanId user) = Catalog.Entry entry
                   ∧ Catalog.name entry = "Advanced" ∧ Catalog.tier entry = 2
                   ∧ Catalog.propertyReports entry = 30 ∧ Catalog.suburbReports entry = 20)
    as (entry & Hentry & Hname & Htier & Hp & Hsub).
  { rewrite Hbest. eexists. split; [by vm_compute | done]. }
  assert (Subscription.countOrders today orders = (1, 1)) as Hcount.
  { rewrite (countOrders_Permutation today _ _ Horders), !countOrders_cons.
    rewrite (countOrder_thisMonth today property Hcal Hpdate), Hpcat.
    rewrite (countOrder_thisMonth today suburb Hcal Hsdate), Hscat.
    by rewrite (countOrders_outside today others Hcal Hothers). }
  eexists. split.
  - rewrite (surjective_pairing (Subscription.GET _ _ _ _)) at 1.
    rewrite (GET_entry _ (Subscription.Orders orders) today _ _ _ Huser Hentry).
    cbn [fst]. reflexivity.
  - cbn [Subscription.plan Subscription.usage Subscription.features Subscription.plan_name
         Subscription.plan_tier Subscription.propertyReportsUsed
         Subscription.propertyReportsLeft Subscription.suburbReportsUsed
         Subscription.suburbReportsLeft Subscription.csvExport Subscription.prioritySupport
         usageOf].
    rewrite Hcount, Hname, Htier, Hp, Hsub.
    split_and!; reflexivity.
Qed.

(** The scenario of the specification, on the first of November 2026. *)
Lemma advanced_subscription_example :
  let orders := [ Sample.order "Property" "01-11-2026";
                  Sample.order "Suburb" "01-11-2026";
                  Sample.order "Suburb" "31-10-2026" ] in
  ∃ sub,
    (Subscription.GET 1000 (Subscription.Orders orders) Sample.today
       (Sample.signedIn (Some "pln_advanced-ni690fz3"))).1
    = {| Subscription.status := 200;
         Subscription.body := Subscription.SubscriptionBody true sub |}
    ∧ Subscription.plan_name (Subscription.plan sub) = Some "Advanced"
    ∧ Subscription.plan_tier (Subscription.plan sub) = Some (Js.Num 2)
    ∧ Subscription.propertyReportsUsed (Subscription.usage sub) = 1
    ∧ Subscription.propertyReportsLeft (Subscription.usage sub) = Js.Num 29
    ∧ Subscription.suburbReportsUsed (Subscription.usage sub) = 1
    ∧ Subscription.suburbReportsLeft (Subscription.usage sub) = Js.Num 19
    ∧ Subscription.csvExport (Subscription.features sub) = true
    ∧ Subscription.prioritySupport (Subscription.features sub) = false.
Proof.
  intros orders.
  apply (advanced_subscription (Sample.signedIn (Some "pln_advanced-ni690fz3")) 1000
           Sample.today orders [Sample.order "Suburb" "31-10-2026"]
           (Sample.order "Property" "01-11-2026") (Sample.order "Suburb" "01-11-2026")
           "sid-1" (Sample.session (Some "pln_advanced-ni690fz3"))).
  - reflexivity.
  - discriminate.
  - apply lookup_singleton_eq.
  - reflexivity.
  - simpl. lia.
  - reflexivity.
  - unfold calendar. simpl. lia.
  - reflexivity.
  - reflexivity.
  - exists 1, 11, 2026. split; [| by vm_compute].
    exists "01", "11", "2026". repeat split; discriminate.
  - reflexivity.
  - exists 1, 11, 2026. split; [| by vm_compute].
    exists "01", "11", "2026". repeat split; discriminate.
  - intros o ->%list_elem_of_singleton. left. exists 31, 10, 2026. split.
    + exists "31", "10", "2026". repeat split; discriminate.
    + simpl. lia.
Defined.

(** C8. Without a valid session ([getCurrentUser] returns none) the
    endpoint answers 401 with [{success: false, error: "Not authenticated"}]
    and does nothing else: the world is the one [getCurrentUser] left, whose
    only new event is the console line of the session lookup, so no order
    is fetched and no plan is resolved. *)
Theorem subscription_requires_session
    (sessionNow : Z) (upstream : Subscription.Upstream) (today : Subscription.Today)
    (w : Session.World) :
  (Session.getCurrentUser sessionNow w).1 = None →
  let r := Subscription.GET sessionNow upstream today w in
  r.1 = {| Subscription.status := 401;
           Subscription.body := Subscription.ErrorBody false "Not authenticated" |}
  ∧ r.2 = (Session.getCurrentUser sessionNow w).2
  ∧ (∃ line, Session.trace r.2 = (Session.trace w ++ [Session.Console line])%list
             ∧ line ∈ [ "[Session] No session cookie found";
                        "[Session] Session not found in store for ID:";
                        "[Session] Session expired or inactive for user:" ])
  ∧ (∀ email, Session.FetchUserOrders email ∈ Session.trace r.2 →
              Session.FetchUserOrders email ∈ Session.trace w)
  ∧ (Session.Console "[Subscription API] Resolved plan:" ∈ Session.trace r.2 →
     Session.Console "[Subscription API] Resolved plan:" ∈ Session.trace w).
Proof.
  intros Hnone r. subst r. rewrite (GET_unauthenticated _ upstream today _ Hnone).
  cbn [fst snd].
  assert (∃ line, Session.trace (Session.getCurrentUser sessionNow w).2
                  = (Session.trace w ++ [Session.Console line])%list
                  ∧ line ∈ [ "[Session] No session cookie found";
                             "[Session] Session not found in store for ID:";
                             "[Session] Session expired or inactive for user:" ])
    as (line & Htrace & Hline).
  { rewrite getCurrentUser_getSession in Hnone |- *. cbn [fst snd] in Hnone |- *.
    apply getSession_none_trace.
    by destruct (Session.getSession sessionNow w).1. }
  split_and!; [done | done | by exists line | |].
  - intros email. rewrite Htrace, elem_of_app, list_elem_of_singleton.
    intros [Hin | Heq]; [done | discriminate].
  - rewrite Htrace, elem_of_app, list_elem_of_singleton.
    intros [Hin | Heq]; [done |]. injection Heq as <-.
    repeat (apply elem_of_cons in Hline as [Hline | Hline]; [discriminate |]).
    by apply elem_of_nil in Hline.
Qed.

(** The scenario of the specification: an anonymous request. *)
Lemma subscription_anonymous_example :
  let r := Subscription.GET 1000
             (Subscription.Orders [Sample.order "Property" "01-11-2026"])
             Sample.today Sample.anonymous in
  r.1 = {| Subscription.status := 401;
           Subscription.body := Subscription.ErrorBody false "Not authenticated" |}
  ∧ Session.trace r.2 = [Session.Console "[Session] No session cookie found"].
Proof.
  intros r.
  destruct (subscription_requires_session 1000
              (Subscription.Orders [Sample.order "Property" "01-11-2026"])
              Sample.today Sample.anonymous eq_refl) as (Hresponse & Hworld & _).
  split; [exact Hresponse |]. fold r in Hworld. rewrite Hworld. reflexivity.
Defined.

(** * Further properties of the code *)

(** ** The resolver, rule by rule *)
Section ResolverRules.
Import Memberstack.

Lemma hierarchy_patterns : Forall (λ r, pattern r ≠ "") hierarchy.
Proof. unfold hierarchy. repeat constructor; done. Qed.

(** Rules that match nothing are passed over. *)
Lemma firstMatch_skip (before rest : list Rule) (ids : list string) :
  (∀ r id, r ∈ before → id ∈ ids → ¬ matchesRule id r) →
  firstMatch (before ++ rest) ids = firstMatch rest ids.
Proof.
  induction before as [|r0 before IH]; intros Hno; [done |].
  cbn [app firstMatch]. rewrite find_match_none.
  - apply IH. intros r id Hr Hid. apply Hno; [by apply list_elem_of_further | done].
  - intros id Hid. apply includes_false_spec. apply Hno; [apply list_elem_of_here | done].
Qed.

(** A rule that matches decides, when its pattern is not empty. *)
Lemma firstMatch_here (rule : Rule) (rest : list Rule) (ids : list string) :
  pattern rule ≠ "" → (∃ id, id ∈ ids ∧ matchesRule id rule) →
  firstMatch (rule :: rest) ids = Some (mappedId rule).
Proof.
  intros Hpat (id & Hid & Hmatch).
  apply (firstMatch_block (mappedId rule) [rule] rest ids).
  - by repeat constructor.
  - exists rule, id. split_and!; [apply list_elem_of_here | done | by apply includes_spec].
Qed.

(** The loop only looks at which strings are among the inputs. *)
Lemma firstMatch_same_elements (rules : list Rule) (ids ids' : list string) :
  Forall (λ r, pattern r ≠ "") rules →
  (∀ id, id ∈ ids ↔ id ∈ ids') →
  firstMatch rules ids = firstMatch rules ids'.
Proof.
  intros Hpat Hsame. induction Hpat as [|r rules Hr _ IH]; [done |].
  cbn [firstMatch].
  destruct (List.find _ ids) as [x|] eqn:Hx; destruct (List.find _ ids') as [y|] eqn:Hy.
  - by rewrite (find_match_truthy _ _ _ Hr Hx), (find_match_truthy _ _ _ Hr Hy).
  - apply find_some in Hx as [Hin Hinc]. apply list_elem_of_In, Hsame, list_elem_of_In in Hin.
    pose proof (find_none _ _ Hy _ Hin) as Hno. simpl in Hno. congruence.
  - apply find_some in Hy as [Hin Hinc]. apply list_elem_of_In, Hsame, list_elem_of_In in Hin.
    pose proof (find_none _ _ Hx _ Hin) as Hno. simpl in Hno. congruence.
  - exact IH.
Qed.

(** Some rule matches: the loop returns the id of one of the rules. *)
Lemma firstMatch_some (rules : list Rule) (ids : list string) :
  Forall (λ r, pattern r ≠ "") rules →
  (∃ r id, r ∈ rules ∧ id ∈ ids ∧ matchesRule id r) →
  ∃ r, r ∈ rules ∧ firstMatch rules ids = Some (mappedId r).
Proof.
  intros Hpat. induction Hpat as [|r0 rules Hr0 _ IH]; intros (r & id & Hr & Hid & Hmatch).
  - by apply elem_of_nil in Hr.
  - cbn [firstMatch]. destruct (List.find _ ids) as [x|] eqn:Hx.
    + rewrite (find_match_truthy _ _ _ Hr0 Hx). exists r0. split; [apply list_elem_of_here | done].
    + apply elem_of_cons in Hr as [-> | Hr].
      * apply includes_spec in Hmatch.
        destruct (find_match_exists _ _ _ Hid Hmatch) as [y Hy]. congruence.
      * destruct IH as (r' & Hr' & Hfm); [by exists r, id |].
        exists r'. split; [by apply list_elem_of_further | done].
Qed.

Lemma firstMatch_from_rules (rules : list Rule) (ids : list string) (m : string) :
  firstMatch rules ids = Some m → ∃ r, r ∈ rules ∧ mappedId r = m.
Proof.
  induction rules as [|r0 rules IH]; [done |]. cbn [firstMatch].
  destruct (List.find _ ids) as [x|].
  - destruct (Js.truthy x).
    + intros [= <-]. exists r0. split; [apply list_elem_of_here | done].
    + intros Hfm. destruct (IH Hfm) as (r & Hr & Hm).
      exists r. split; [by apply list_elem_of_further | done].
  - intros Hfm. destruct (IH Hfm) as (r & Hr & Hm).
    exists r. split; [by apply list_elem_of_further | done].
Qed.

(** A test that runs: none of [rules] matches any of the inputs. *)
Lemma rules_unmatched_by_test (rules : list Rule) (ids : list string) :
  forallb (λ r, forallb (λ id, negb (Js.includes (Js.toLowerCase id) (pattern r))) ids)
          rules = true →
  ∀ r id, r ∈ rules → id ∈ ids → ¬ matchesRule id r.
Proof.
  intros Htest r id Hr Hid. apply includes_false_spec.
  rewrite forallb_forall in Htest. apply list_elem_of_In in Hid, Hr.
  specialize (Htest r Hr). rewrite forallb_forall in Htest.
  specialize (Htest id Hid). by apply negb_true_iff in Htest.
Qed.

Lemma getBestPlanId_of_firstMatch (ids : list string) (m : string) :
  firstMatch hierarchy ids = Some m → getBestPlanId ids = Some m.
Proof. intros Hfm. unfold getBestPlanId. by rewrite Hfm. Qed.

End ResolverRules.

(** X1. [getBestPlanId] returns the id of the first rule of the hierarchy,
    in its order, that matches some input: rules before it that match
    nothing are passed over, rules after it are not looked at. *)
Theorem getBestPlanId_first_matching_rule
    (activePlanIds : list string) (before after : list Memberstack.Rule)
    (rule : Memberstack.Rule) :
  Memberstack.hierarchy = (before ++ rule :: after)%list →
  (∀ r id, r ∈ before → id ∈ activePlanIds → ¬ matchesRule id r) →
  (∃ id, id ∈ activePlanIds ∧ matchesRule id rule) →
  Memberstack.getBestPlanId activePlanIds = Some (Memberstack.mappedId rule).
Proof.
  intros Hsplit Hbefore Hrule. apply getBestPlanId_of_firstMatch.
  rewrite Hsplit, firstMatch_skip by done. apply firstMatch_here; [| done].
  pose proof hierarchy_patterns as Hpat. rewrite Hsplit in Hpat.
  apply Forall_app in Hpat as [_ Hpat]. by apply Forall_cons in Hpat as [Hpat _].
Qed.

(** A starter plan next to a pro plan resolves to the advanced id. *)
Lemma getBestPlanId_first_matching_rule_example :
  Memberstack.getBestPlanId ["acme-starter-monthly"; "acme-PRO-yearly"]
  = Some "pln_advanced-ni690fz3".
Proof.
  apply (getBestPlanId_first_matching_rule
           ["acme-starter-monthly"; "acme-PRO-yearly"]
           (take 6 Memberstack.hierarchy) (drop 7 Memberstack.hierarchy)
           {| Memberstack.pattern := "pro"; Memberstack.mappedId := "pln_advanced-ni690fz3" |}).
  - reflexivity.
  - apply rules_unmatched_by_test. reflexivity.
  - exists "acme-PRO-yearly". split; [repeat constructor |].
    exists "acme-", "-yearly". reflexivity.
Defined.

(** X2. When some rule matches, the result depends only on which strings
    are among the inputs: their order and repetitions do not matter. *)
Theorem getBestPlanId_order_irrelevant (activePlanIds reordered : list string) :
  (∀ id, id ∈ activePlanIds ↔ id ∈ reordered) →
  (∃ rule id, rule ∈ Memberstack.hierarchy ∧ id ∈ activePlanIds ∧ matchesRule id rule) →
  Memberstack.getBestPlanId reordered = Memberstack.getBestPlanId activePlanIds.
Proof.
  intros Hsame Hmatch.
  destruct (firstMatch_some _ _ hierarchy_patterns Hmatch) as (r & _ & Hfm).
  rewrite (getBestPlanId_of_firstMatch _ _ Hfm).
  apply getBestPlanId_of_firstMatch.
  by rewrite <- (firstMatch_same_elements _ _ _ hierarchy_patterns Hsame).
Qed.

Lemma getBestPlanId_order_irrelevant_example :
  Memberstack.getBestPlanId ["x-portfolio"; "x-essentials"; "x-essentials"]
  = Memberstack.getBestPlanId ["x-essentials"; "x-portfolio"].
Proof.
  apply (getBestPlanId_order_irrelevant ["x-essentials"; "x-portfolio"]
           ["x-portfolio"; "x-essentials"; "x-essentials"]).
  - intros id. rewrite !elem_of_cons, !elem_of_nil. tauto.
  - exists {| Memberstack.pattern := "essentials";
              Memberstack.mappedId := "pln_essentials-vb1k04zy" |}, "x-essentials".
    split_and!; [repeat constructor | repeat constructor |].
    exists "x-", "". reflexivity.
Defined.

(** ** The resolver and the catalog *)
Section ResolverCatalog.
Import Memberstack.

(** Every entry of the catalog sits under its own id; quotas are counts
    or -1, and -1 goes with the top tier. *)
Lemma catalog_entry (key : string) (plan : Catalog.Plan) :
  Catalog.PLANS !! key = Some plan →
  Catalog.id plan = key
  ∧ 0 ≤ Catalog.tier plan ≤ 3
  ∧ -1 ≤ Catalog.suburbReports plan ∧ -1 ≤ Catalog.propertyReports plan
  ∧ (Catalog.suburbReports plan = -1 ↔ Catalog.tier plan = 3)
  ∧ (Catalog.propertyReports plan = -1 ↔ Catalog.tier plan = 3).
Proof.
  intros Hin. apply elem_of_list_to_map_2 in Hin.
  repeat (apply elem_of_cons in Hin as [[= -> ->] | Hin]);
    [cbn; split_and!; (reflexivity || lia) .. |].
  by apply elem_of_nil in Hin.
Qed.

(** The plan lookup answers with entries of the catalog only. *)
Lemma getPlanDetails_entry (planId : option string) (plan : Catalog.Plan) :
  Subscription.getPlanDetails planId = Catalog.Entry plan →
  Catalog.PLANS !! Catalog.id plan = Some plan.
Proof.
  assert (∀ key, Catalog.get key = Catalog.Entry plan →
                 Catalog.PLANS !! Catalog.id plan = Some plan) as Hget.
  { intros key. unfold Catalog.get.
    destruct (Catalog.PLANS !! key) as [p|] eqn:Hkey.
    - intros [= ->]. by rewrite (proj1 (catalog_entry _ _ Hkey)).
    - by case_bool_decide. }
  unfold Subscription.getPlanDetails. destruct planId as [planId|]; [| apply Hget].
  repeat (match goal with |- context [if ?b then _ else _] => destruct b end);
    apply Hget.
Qed.

(** The rules map to ids of the catalog, on which the lookup and the
    resolver agree. *)
Lemma rule_target (r : Rule) :
  r ∈ hierarchy →
  ∃ plan, mappedId r = Catalog.id plan
          ∧ Catalog.PLANS !! Catalog.id plan = Some plan
          ∧ Subscription.getPlanDetails (Some (Catalog.id plan)) = Catalog.Entry plan
          ∧ getBestPlanId [Catalog.id plan] = Some (Catalog.id plan).
Proof.
  intros Hr. unfold hierarchy in Hr.
  repeat (apply elem_of_cons in Hr as [-> | Hr]).
  all: try (by apply elem_of_nil in Hr).
  all: lazymatch goal with
       | |- ∃ plan, mappedId ?rule = _ ∧ _ =>
           let found := eval vm_compute in (Catalog.PLANS !! mappedId rule) in
           lazymatch found with Some ?plan => exists plan end
       end.
  all: split_and!; by vm_compute.
Qed.

Lemma hierarchy_descending :
  StronglySorted (λ r r', planTier (mappedId r') ≤ planTier (mappedId r)) hierarchy.
Proof.
  unfold hierarchy.
  repeat (apply SSorted_cons; [| repeat constructor; by vm_compute]).
  constructor.
Qed.

(** On rules in descending order of tier, more inputs never lower the
    tier of the result. *)
Lemma firstMatch_monotone (rules : list Rule) (ids more : list string) (m : string) :
  StronglySorted (λ r r', planTier (mappedId r') ≤ planTier (mappedId r)) rules →
  Forall (λ r, pattern r ≠ "") rules →
  (∀ id, id ∈ ids → id ∈ more) →
  firstMatch rules ids = Some m →
  ∃ m', firstMatch rules more = Some m' ∧ planTier m ≤ planTier m'.
Proof.
  intros Hsorted Hpat Hsub. revert m.
  induction Hsorted as [|r rules Hsorted IH Hr]; intros m; [done |].
  apply Forall_cons in Hpat as [Hpr Hpat]. cbn [firstMatch].
  destruct (List.find _ ids) as [x|] eqn:Hx.
  - rewrite (find_match_truthy _ _ _ Hpr Hx). intros [= <-].
    apply find_some in Hx as [Hin Hinc]. apply list_elem_of_In, Hsub in Hin.
    destruct (find_match_exists _ _ _ Hin Hinc) as [y Hy].
    rewrite Hy, (find_match_truthy _ _ _ Hpr Hy). eexists. split; [done | lia].
  - intros Hfm. destruct (List.find _ more) as [y|] eqn:Hy.
    + rewrite (find_match_truthy _ _ _ Hpr Hy). eexists. split; [done |].
      destruct (firstMatch_from_rules _ _ _ Hfm) as (r' & Hr' & <-).
      rewrite List.Forall_forall in Hr. apply Hr. by apply list_elem_of_In.
    + by apply IH.
Qed.

End ResolverCatalog.

(** X3. With plans in descending order of tier in the hierarchy, a member
    never loses by holding more plans: when some rule matches, the plan
    resolved for a larger set of active plans has a tier at least as high. *)
Theorem getBestPlanId_more_plans_never_lower (activePlanIds more : list string) :
  (∀ id, id ∈ activePlanIds → id ∈ more) →
  (∃ rule id, rule ∈ Memberstack.hierarchy ∧ id ∈ activePlanIds ∧ matchesRule id rule) →
  ∃ best best' tier tier',
    Memberstack.getBestPlanId activePlanIds = Some best
    ∧ Memberstack.getBestPlanId more = Some best'
    ∧ tierOfId best = Some tier ∧ tierOfId best' = Some tier'
    ∧ tier ≤ tier'.
Proof.
  intros Hsub Hmatch.
  destruct (firstMatch_some _ _ hierarchy_patterns Hmatch) as (r & Hr & Hfm).
  destruct (firstMatch_monotone _ _ more _ hierarchy_descending hierarchy_patterns Hsub Hfm)
    as (best' & Hfm' & Hle).
  destruct (firstMatch_from_rules _ _ _ Hfm') as (r' & Hr' & <-).
  destruct (rule_target r Hr) as (plan & Hid & Hplan & _).
  destruct (rule_target r' Hr') as (plan' & Hid' & Hplan' & _).
  rewrite Hid in Hfm, Hle. rewrite Hid' in Hfm', Hle.
  unfold planTier, tierOfId in Hle. rewrite Hplan, Hplan' in Hle. cbn in Hle.
  exists (Catalog.id plan), (Catalog.id plan'), (Catalog.tier plan), (Catalog.tier plan').
  unfold tierOfId. rewrite Hplan, Hplan'.
  split_and!; [by apply getBestPlanId_of_firstMatch
              | by apply getBestPlanId_of_firstMatch | done | done | done].
Qed.

Lemma getBestPlanId_more_plans_example :
  ∃ best best' tier tier',
    Memberstack.getBestPlanId ["x-essentials"] = Some best
    ∧ Memberstack.getBestPlanId ["x-essentials"; "x-premium"] = Some best'
    ∧ tierOfId best = Some tier ∧ tierOfId best' = Some tier'
    ∧ tier ≤ tier'.
Proof.
  apply (getBestPlanId_more_plans_never_lower ["x-essentials"] ["x-essentials"; "x-premium"]).
  - intros id. rewrite !elem_of_cons, !elem_of_nil. tauto.
  - exists {| Memberstack.pattern := "essentials";
              Memberstack.mappedId := "pln_essentials-vb1k04zy" |}, "x-essentials".
    split_and!; [repeat constructor | repeat constructor |].
    exists "x-", "". reflexivity.
Defined.

(** X4. When some rule matches, the resolved id is a key of the catalog:
    the plan lookup of the subscription endpoint finds its entry, and
    resolving the resolved id again gives it back. *)
Theorem getBestPlanId_lands_in_catalog (activePlanIds : list string) :
  (∃ rule id, rule ∈ Memberstack.hierarchy ∧ id ∈ activePlanIds ∧ matchesRule id rule) →
  ∃ plan,
    Memberstack.getBestPlanId activePlanIds = Some (Catalog.id plan)
    ∧ Catalog.PLANS !! Catalog.id plan = Some plan
    ∧ Subscription.getPlanDetails (Memberstack.getBestPlanId activePlanIds)
      = Catalog.Entry plan
    ∧ Memberstack.getBestPlanId [Catalog.id plan] = Some (Catalog.id plan).
Proof.
  intros Hmatch.
  destruct (firstMatch_some _ _ hierarchy_patterns Hmatch) as (r & Hr & Hfm).
  destruct (rule_target r Hr) as (plan & Hid & Hplan & Hdetails & Hagain).
  exists plan. rewrite (getBestPlanId_of_firstMatch _ _ Hfm), Hid. done.
Qed.

Lemma getBestPlanId_lands_in_catalog_example :
  ∃ plan,
    Memberstack.getBestPlanId ["Team-Plan-2024"] = Some (Catalog.id plan)
    ∧ Catalog.PLANS !! Catalog.id plan = Some plan
    ∧ Subscription.getPlanDetails (Memberstack.getBestPlanId ["Team-Plan-2024"])
      = Catalog.Entry plan
    ∧ Memberstack.getBestPlanId [Catalog.id plan] = Some (Catalog.id plan).
Proof.
  apply (getBestPlanId_lands_in_catalog ["Team-Plan-2024"]).
  exists {| Memberstack.pattern := "team";
            Memberstack.mappedId := "pln_portfolio-builder-fb6b0fzp" |}, "Team-Plan-2024".
  split_and!; [repeat constructor | repeat constructor |].
  exists "", "-plan-2024". reflexivity.
Defined.

(** ** The session layer, operation by operation *)
Section SessionSteps.
Import Session.

Lemma createSession_stored user uuid now w :
  cookie (createSession user uuid now w).2 = Some uuid
  ∧ sessions (createSession user uuid now w).2
    = <[uuid := sessionFor user uuid now]> (withoutCookieSession w).
Proof.
  split; [reflexivity |]. unfold withoutCookieSession. run.
  destruct (cookie w) as [existing|]; [destruct (Js.truthy existing) |]; step; reflexivity.
Qed.

(** [getSession] without a cookie, or with an empty one. *)
Lemma getSession_no_cookie w now :
  Auth.present (cookie w) = false →
  getSession now w
  = (None, {| cookie := cookie w; sessions := sessions w;
              trace := trace w ++ [Console "[Session] No session cookie found"] |}).
Proof.
  unfold Auth.present. run. destruct (cookie w) as [sessionId|] eqn:Hc; step.
  - intros ->. cbn [negb]. step. by rewrite Hc.
  - intros _. by rewrite Hc.
Qed.

(** [getSession] on a cookie that names no record. *)
Lemma getSession_dangling w now sessionId :
  cookie w = Some sessionId → sessionId ≠ "" → sessions w !! sessionId = None →
  getSession now w
  = (None, {| cookie := None; sessions := sessions w;
              trace := trace w ++ [Console "[Session] Session not found in store for ID:"] |}).
Proof.
  intros Hc Hne Hs. apply truthy_spec in Hne. run. rewrite Hc. step.
  rewrite Hne. cbn [negb]. by rewrite Hs.
Qed.

(** What [getSession] returns is what the cookie names, active and not
    past its expiry. *)
Lemma getSession_some_inv w now session :
  (getSession now w).1 = Some session →
  ∃ sessionId stored,
    cookie w = Some sessionId ∧ sessionId ≠ ""
    ∧ sessions w !! sessionId = Some stored
    ∧ UserSession.isActive stored = true ∧ now ≤ UserSession.expiresAt stored
    ∧ session = UserSession.setLastAccessed now stored.
Proof.
  destruct (Auth.present (cookie w)) eqn:Hpresent.
  - unfold Auth.present in Hpresent. destruct (cookie w) as [sessionId|] eqn:Hc; [| done].
    apply truthy_spec in Hpresent.
    destruct (sessions w !! sessionId) as [stored|] eqn:Hs.
    + rewrite (getSession_found w now sessionId stored Hc Hpresent Hs).
      destruct (negb _ || _) eqn:Htest; cbn [fst]; [done |].
      intros [= <-]. apply getSession_test in Htest as [Hactive Hexp].
      by exists sessionId, stored.
    + by rewrite (getSession_dangling w now sessionId Hc Hpresent Hs).
  - by rewrite (getSession_no_cookie w now Hpresent).
Qed.

(** [getSession] changes no record but the one the cookie names. *)
Lemma getSession_frame w now k :
  cookie w ≠ Some k → sessions (getSession now w).2 !! k = sessions w !! k.
Proof.
  intros Hk. destruct (Auth.present (cookie w)) eqn:Hpresent.
  - unfold Auth.present in Hpresent. destruct (cookie w) as [sessionId|] eqn:Hc; [| done].
    apply truthy_spec in Hpresent. assert (sessionId ≠ k) by congruence.
    destruct (sessions w !! sessionId) as [stored|] eqn:Hs.
    + rewrite (getSession_found w now sessionId stored Hc Hpresent Hs).
      destruct (negb _ || _); cbn [snd sessions].
      * by rewrite lookup_delete_ne.
      * by rewrite lookup_insert_ne.
    + by rewrite (getSession_dangling w now sessionId Hc Hpresent Hs).
  - by rewrite (getSession_no_cookie w now Hpresent).
Qed.

(** The handlers that start with [getCurrentUser] leave the cookie and
    the store as [getSession] leaves them. *)
Lemma getCurrentUser_state w now :
  cookie (getCurrentUser now w).2 = cookie (getSession now w).2
  ∧ sessions (getCurrentUser now w).2 = sessions (getSession now w).2.
Proof. by rewrite getCurrentUser_getSession. Qed.

Lemma GET_state sessionNow upstream today w :
  cookie (Subscription.GET sessionNow upstream today w).2 = cookie (getSession sessionNow w).2
  ∧ sessions (Subscription.GET sessionNow upstream today w).2
    = sessions (getSession sessionNow w).2.
Proof.
  destruct (getCurrentUser_state w sessionNow) as [<- <-].
  unfold Subscription.GET, mbind, M_bind. cbn [fst snd].
  destruct (getCurrentUser sessionNow w) as [[user|] w']; cbn [fst snd]; [| done].
  destruct (Subscription.getPlanDetails _); [| | done]; destruct upstream; done.
Qed.

Lemma me_run w now :
  Auth.me now w
  = (match (getCurrentUser now w).1 with
     | None => Auth.failure 401 "Not authenticated"
     | Some user =>
         {| Auth.status := 200;
            Auth.body := {| Auth.success := true; Auth.user := Some user;
                            Auth.error := None; Auth.redirectUrl := None |} |}
     end, (getCurrentUser now w).2).
Proof.
  unfold Auth.me, mbind, M_bind, mret, M_ret. cbn [fst snd].
  by destruct (getCurrentUser now w) as [[user|] w'].
Qed.

Lemma check_run w now :
  Auth.check now w
  = ({| Auth.check_status := 200;
        Auth.logged_in := bool_decide (is_Some (getSession now w).1) |},
     (getSession now w).2).
Proof. reflexivity. Qed.

End SessionSteps.

(** X5. No operation of the session layer, and no handler built on it,
    changes the record of a session other than the one the request's
    cookie names and, for [createSession], the one it creates. *)
Theorem other_sessions_untouched (w : Session.World) (other : string) :
  Session.cookie w ≠ Some other →
  (∀ user uuid now, uuid ≠ other →
     Session.sessions (Session.createSession user uuid now w).2 !! other
     = Session.sessions w !! other)
  ∧ (∀ now, Session.sessions (Session.getSession now w).2 !! other
            = Session.sessions w !! other)
  ∧ Session.sessions (Session.destroySession w).2 !! other = Session.sessions w !! other
  ∧ (∀ now upstream today,
       Session.sessions (Subscription.GET now upstream today w).2 !! other
       = Session.sessions w !! other)
  ∧ (∀ now, Session.sessions (Auth.me now w).2 !! other = Session.sessions w !! other).
Proof.
  intros Hother.
  assert (withoutCookieSession w !! other = Session.sessions w !! other) as Hwithout.
  { unfold withoutCookieSession. destruct (Session.cookie w) as [existing|]; [| done].
    destruct (Js.truthy existing); [| done].
    rewrite lookup_delete_ne; [done | congruence]. }
  split_and!.
  - intros user uuid now Hne.
    rewrite (proj2 (createSession_stored user uuid now w)), lookup_insert_ne; done.
  - intros now. by apply getSession_frame.
  - rewrite destroySession_sessions. exact Hwithout.
  - intros now upstream today. rewrite (proj2 (GET_state now upstream today w)).
    by apply getSession_frame.
  - intros now. rewrite me_run. cbn [snd].
    rewrite (proj2 (getCurrentUser_state w now)). by apply getSession_frame.
Qed.

(** Another browser logs in and out next to a signed-in one. *)
Lemma other_sessions_untouched_example :
  let w := {| Session.cookie := Some "sid-9";
              Session.sessions := Session.sessions (Sample.signedIn None);
              Session.trace := [] |} in
  Session.sessions (Session.destroySession w).2 !! "sid-1" = Some (Sample.session None).
Proof.
  intros w.
  assert (Session.cookie w ≠ Some "sid-1") as Hother by discriminate.
  destruct (other_sessions_untouched w "sid-1" Hother) as (_ & _ & Hdestroy & _).
  rewrite Hdestroy. apply lookup_singleton_eq.
Defined.

(** X6. After [createSession], and until the session expires, the
    current-session route answers 200 with the user the session was made
    for, except that the id it reports is the session id; the lightweight
    check reports [logged_in: true]. *)
Theorem me_after_createSession
    (w : Session.World) (user : User.t) (uuid : string) (created now : Z) :
  uuid ≠ "" → now ≤ created + Session.SESSION_DURATION_MS →
  let w1 := (Session.createSession user uuid created w).2 in
  (Auth.me now w1).1
  = {| Auth.status := 200;
       Auth.body := {| Auth.success := true;
                       Auth.user := Some (asSeenBySession uuid user);
                       Auth.error := None; Auth.redirectUrl := None |} |}
  ∧ Auth.logged_in (Auth.check now w1).1 = true.
Proof.
  intros Hne Hnow w1.
  destruct (createSession_stored user uuid created w) as [Hc Hs]. fold w1 in Hc, Hs.
  assert (Session.getSession now w1
          = (Some (UserSession.setLastAccessed now (sessionFor user uuid created)),
             {| Session.cookie := Some uuid;
                Session.sessions :=
                  <[uuid := UserSession.setLastAccessed now (sessionFor user uuid created)]>
                    (Session.sessions w1);
                Session.trace :=
                  Session.trace w1
                  ++ [Session.Console "[Session] Valid session found for user:"] |}))
    as Hget.
  { rewrite (getSession_found w1 now uuid (sessionFor user uuid created) Hc Hne).
    - rewrite (proj2 (getSession_test _ now)); [done |]. by split.
    - by rewrite Hs, lookup_insert_eq. }
  split.
  - rewrite me_run, getCurrentUser_getSession, Hget. reflexivity.
  - rewrite check_run, Hget. reflexivity.
Qed.

Lemma me_after_createSession_example :
  let user := {| User.id := "mem_1"; User.email := "member@example.com";
                 User.firstName := "Ada"; User.lastName := "Lee";
                 User.activePlans := []; User.bestPlanId := None;
                 User.memberstackId := "mem_1" |} in
  let w1 := (Session.createSession user "sid-7" 1000 blank).2 in
  Auth.user (Auth.body (Auth.me 2000 w1).1) = Some (asSeenBySession "sid-7" user).
Proof.
  intros user w1.
  assert ("sid-7" ≠ "") as Hne by discriminate.
  assert (2000 ≤ 1000 + Session.SESSION_DURATION_MS) as Hnow by (by vm_compute).
  destruct (me_after_createSession blank user "sid-7" 1000 2000 Hne Hnow) as [Hme _].
  fold w1 in Hme. by rewrite Hme.
Defined.

(** ** The lifetime of a session *)
Section Lifetime.
Import Session.

Variables (uuid : string) (expiry : Z).
Hypothesis uuid_nonempty : uuid ≠ "".

Lemma getSession_bounded w now :
  bounded uuid expiry w → bounded uuid expiry (getSession now w).2.
Proof.
  intros [[Hc | Hc] Hexp].
  - rewrite getSession_no_cookie by (by rewrite Hc). split; [by left | done].
  - destruct (sessions w !! uuid) as [stored|] eqn:Hs.
    + rewrite (getSession_found w now uuid stored Hc uuid_nonempty Hs).
      destruct (negb _ || _); cbn [snd cookie sessions]; (split; [auto |]).
      * intros s. cbn [sessions]. by rewrite lookup_delete_eq.
      * intros s. cbn [sessions]. rewrite lookup_insert_eq. intros [= <-].
        exact (Hexp stored eq_refl).
    + rewrite (getSession_dangling w now uuid Hc uuid_nonempty Hs).
      split; [by left |]. cbn [snd sessions]. by rewrite Hs.
Qed.

Lemma polls_bounded times w : bounded uuid expiry w → bounded uuid expiry (polls times w).
Proof.
  revert w. induction times as [|t times IH]; intros w Hw; [done |].
  cbn [polls]. by apply IH, getSession_bounded.
Qed.

Lemma getSession_after_expiry w now :
  bounded uuid expiry w → expiry < now → (getSession now w).1 = None.
Proof.
  intros [[Hc | Hc] Hexp] Hlate.
  - by rewrite getSession_no_cookie by (by rewrite Hc).
  - destruct (sessions w !! uuid) as [stored|] eqn:Hs.
    + rewrite (getSession_found w now uuid stored Hc uuid_nonempty Hs).
      specialize (Hexp stored eq_refl).
      destruct (negb _ || _) eqn:Htest; [done |].
      apply getSession_test in Htest. lia.
    + by rewrite (getSession_dangling w now uuid Hc uuid_nonempty Hs).
Qed.

Lemma getSession_alive created email w now :
  alive uuid expiry created email w → now ≤ expiry →
  alive uuid expiry created email (getSession now w).2
  ∧ ∃ s, (getSession now w).1 = Some s
         ∧ UserSession.createdAt s = created
         ∧ UserSession.userEmail s = email
         ∧ UserSession.expiresAt s = expiry
         ∧ UserSession.lastAccessed s = now.
Proof.
  intros (Hc & stored & Hs & Hactive & Hcreated & Hemail & Hexp) Hnow.
  rewrite (getSession_found w now uuid stored Hc uuid_nonempty Hs).
  rewrite (proj2 (getSession_test stored now)) by (split; [done | lia]).
  cbn [fst snd]. split.
  - split; [done |]. exists (UserSession.setLastAccessed now stored).
    cbn [sessions]. by rewrite lookup_insert_eq.
  - by exists (UserSession.setLastAccessed now stored).
Qed.

Lemma polls_alive created email times w :
  alive uuid expiry created email w → (∀ t, t ∈ times → t ≤ expiry) →
  alive uuid expiry created email (polls times w).
Proof.
  revert w. induction times as [|t times IH]; intros w Hw Htimes; [done |].
  cbn [polls]. apply IH.
  - apply getSession_alive; [done |]. apply Htimes, list_elem_of_here.
  - intros x Hx. by apply Htimes, list_elem_of_further.
Qed.

End Lifetime.

(** X7. A session lives 24 hours from its creation, whatever is read in
    between: after any sequence of [getSession] calls, a lookup later than
    [created + 24h] answers none; and as long as every lookup comes no
    later than that, each one returns the session, its creation and expiry
    times unchanged and its [lastAccessed] set to the time of the lookup. *)
Theorem session_lives_24_hours
    (w : Session.World) (user : User.t) (uuid : string) (created : Z)
    (times : list Z) (now : Z) :
  uuid ≠ "" →
  let w1 := (Session.createSession user uuid created w).2 in
  let r := Session.getSession now (polls times w1) in
  (created + 86400000 < now → r.1 = None)
  ∧ ((∀ t, t ∈ times → t ≤ created + 86400000) → now ≤ created + 86400000 →
     ∃ session,
       r.1 = Some session
       ∧ UserSession.userEmail session = User.email user
       ∧ UserSession.createdAt session = created
       ∧ UserSession.expiresAt session = created + 86400000
       ∧ UserSession.lastAccessed session = now).
Proof.
  intros Hne w1 r. subst r.
  destruct (createSession_stored user uuid created w) as [Hc Hs]. fold w1 in Hc, Hs.
  split.
  - intros Hlate. apply (getSession_after_expiry uuid (created + 86400000) Hne); [| done].
    apply polls_bounded; [done |]. split; [by right |].
    intros s. rewrite Hs, lookup_insert_eq. by intros [= <-].
  - intros Htimes Hnow.
    assert (alive uuid (created + 86400000) created (User.email user) (polls times w1))
      as Halive.
    { apply polls_alive; [done | | done]. split; [done |].
      exists (sessionFor user uuid created). rewrite Hs, lookup_insert_eq. done. }
    destruct (getSession_alive uuid (created + 86400000) Hne created (User.email user)
                _ now Halive Hnow) as [_ (s & Hr & Hcreated & Hemail & Hexp & Hlast)].
    by exists s.
Qed.

(** A session made at time 0 and read twice within the day is gone one
    millisecond after the day is over. *)
Lemma session_lives_24_hours_example :
  let user := {| User.id := "mem_1"; User.email := "member@example.com";
                 User.firstName := "Ada"; User.lastName := "Lee";
                 User.activePlans := []; User.bestPlanId := None;
                 User.memberstackId := "mem_1" |} in
  let w1 := (Session.createSession user "sid-7" 0 blank).2 in
  (Session.getSession 86400001 (polls [3600000; 86399999] w1)).1 = None.
Proof.
  intros user w1.
  assert ("sid-7" ≠ "") as Hne by discriminate.
  destruct (session_lives_24_hours blank user "sid-7" 0 [3600000; 86399999] 86400001 Hne)
    as [Hlate _].
  apply Hlate. lia.
Defined.

(** X8. Logging out ends the session: after [createSession] and then
    [destroySession] the record is gone, the cookie is cleared, and every
    later lookup, current-session request and check finds nobody. *)
Theorem logout_ends_session
    (w : Session.World) (user : User.t) (uuid : string) (created now : Z) :
  uuid ≠ "" →
  let w1 := (Session.createSession user uuid created w).2 in
  let w2 := (Session.destroySession w1).2 in
  Session.cookie w2 = None
  ∧ Session.sessions w2 !! uuid = None
  ∧ (Session.getSession now w2).1 = None
  ∧ (Auth.me now w2).1 = Auth.failure 401 "Not authenticated"
  ∧ Auth.logged_in (Auth.check now w2).1 = false.
Proof.
  intros Hne w1 w2.
  destruct (createSession_stored user uuid created w) as [Hc Hs]. fold w1 in Hc, Hs.
  assert (Session.cookie w2 = None) as Hc2 by apply destroySession_cookie.
  assert ((Session.getSession now w2).1 = None) as Hget.
  { by rewrite getSession_no_cookie by (by rewrite Hc2). }
  split_and!.
  - done.
  - unfold w2. rewrite destroySession_sessions, Hc.
    apply truthy_spec in Hne. rewrite Hne. apply lookup_delete_eq.
  - done.
  - by rewrite me_run, getCurrentUser_getSession, Hget.
  - by rewrite check_run, Hget.
Qed.

Lemma logout_ends_session_example :
  let user := {| User.id := "mem_1"; User.email := "member@example.com";
                 User.firstName := "Ada"; User.lastName := "Lee";
                 User.activePlans := []; User.bestPlanId := None;
                 User.memberstackId := "mem_1" |} in
  let w1 := (Session.createSession user "sid-7" 0 (Sample.signedIn None)).2 in
  Auth.logged_in (Auth.check 10 (Session.destroySession w1).2).1 = false.
Proof.
  intros user w1.
  assert ("sid-7" ≠ "") as Hne by discriminate.
  by destruct (logout_ends_session (Sample.signedIn None) user "sid-7" 0 10 Hne)
    as (_ & _ & _ & _ & Hcheck).
Defined.

(** X9. A request is authenticated exactly when its cookie is non-empty
    and names a stored record that is active and not past its expiry.  The
    lightweight check and the current-session route agree on it, and leave
    the same world behind. *)
Theorem authenticated_iff (w : Session.World) (now : Z) :
  (Auth.logged_in (Auth.check now w).1 = true
   ↔ ∃ sessionId session,
       Session.cookie w = Some sessionId ∧ sessionId ≠ ""
       ∧ Session.sessions w !! sessionId = Some session
       ∧ UserSession.isActive session = true
       ∧ now ≤ UserSession.expiresAt session)
  ∧ (Auth.logged_in (Auth.check now w).1 = true ↔ Auth.status (Auth.me now w).1 = 200)
  ∧ Auth.check_status (Auth.check now w).1 = 200
  ∧ (Auth.check now w).2 = (Auth.me now w).2.
Proof.
  rewrite check_run, me_run, getCurrentUser_getSession. cbn [fst snd Auth.logged_in].
  split_and!.
  - rewrite bool_decide_eq_true. split.
    + intros [session Hsession].
      destruct (getSession_some_inv w now session Hsession)
        as (sessionId & stored & Hc & Hne & Hs & Hactive & Hexp & _).
      by exists sessionId, stored.
    + intros (sessionId & stored & Hc & Hne & Hs & Hactive & Hexp).
      rewrite (getSession_found w now sessionId stored Hc Hne Hs).
      rewrite (proj2 (getSession_test stored now)) by done. by eexists.
  - destruct (Session.getSession now w).1; cbn; split; (done || by eexists || intros [? ?]; done).
  - done.
  - done.
Qed.

(** X10. A cookie that names no record is treated as logged out:
    [getSession] answers none, clears the cookie and leaves the store as it
    is, so the next lookup finds no cookie at all. *)
Theorem dangling_cookie_cleared (w : Session.World) (sessionId : string) (now later : Z) :
  Session.cookie w = Some sessionId → sessionId ≠ "" →
  Session.sessions w !! sessionId = None →
  let r := Session.getSession now w in
  r.1 = None
  ∧ Session.cookie r.2 = None
  ∧ Session.sessions r.2 = Session.sessions w
  ∧ Session.getSession later r.2
    = (None, {| Session.cookie := None; Session.sessions := Session.sessions w;
                Session.trace :=
                  Session.trace r.2
                  ++ [Session.Console "[Session] No session cookie found"] |}).
Proof.
  intros Hc Hne Hs r. subst r. rewrite (getSession_dangling w now sessionId Hc Hne Hs).
  cbn [fst snd Session.cookie Session.sessions]. split_and!; [done | done | done |].
  by rewrite getSession_no_cookie.
Qed.

Lemma dangling_cookie_cleared_example :
  let w := {| Session.cookie := Some "sid-9";
              Session.sessions := Session.sessions (Sample.signedIn None);
              Session.trace := [] |} in
  (Session.getSession 10 w).1 = None
  ∧ Session.cookie (Session.getSession 10 w).2 = None.
Proof.
  intros w.
  destruct (dangling_cookie_cleared w "sid-9" 10 20) as (Hr & Hc & _).
  - reflexivity.
  - discriminate.
  - by apply lookup_singleton_ne.
  - by split.
Defined.

(** ** The login and signup routes *)

(** Unfold the sequencing of a route handler, leaving the operations of
    the session layer folded. *)
Ltac route :=
  unfold mbind, Session.M_bind, mret, Session.M_ret, Session.console_log, Session.emit;
  cbn [fst snd Session.cookie Session.sessions Session.trace].

(** The same on lookups whose members have every field. *)
Ltac typed :=
  cbn [fmap option_fmap option_map Member.raw Member.raw_auth Member.raw_id
       Member.raw_customFields Member.raw_planConnections Member.activePlanIds
       Member.getMember Member.getMemberById
       Member.firstName Member.lastName Member.first Member.last];
  route.

Section Routes.
Import Session.

(** The cookie and the store after [createSession] depend on the cookie
    and the store before, not on the trace. *)
Lemma createSession_after_logs user uuid now w w' :
  cookie w' = cookie w → sessions w' = sessions w →
  cookie (createSession user uuid now w').2 = Some uuid
  ∧ sessions (createSession user uuid now w').2
    = <[uuid := sessionFor user uuid now]> (withoutCookieSession w).
Proof.
  intros Hc Hs. destruct (createSession_stored user uuid now w') as [-> ->].
  split; [done |]. unfold withoutCookieSession. by rewrite Hc, Hs.
Qed.

(** Reading back the user of a record as [createSession] wrote it. *)
Lemma getCurrentUser_stored w user uuid created now :
  cookie w = Some uuid → uuid ≠ "" →
  sessions w !! uuid = Some (sessionFor user uuid created) →
  now ≤ created + SESSION_DURATION_MS →
  (getCurrentUser now w).1 = Some (asSeenBySession uuid user).
Proof.
  intros Hc Hne Hs Hnow.
  rewrite getCurrentUser_getSession, (getSession_found w now uuid _ Hc Hne Hs).
  rewrite (proj2 (getSession_test _ now)); [done |]. by split.
Qed.

(** A request without a usable email or token is turned away at once. *)
Lemma login_rejected getMemberById getMember uuid now request w :
  Auth.present (Auth.login_email request) = false
  ∨ Auth.present (Auth.login_memberstackToken request) = false →
  Auth.login getMemberById getMember uuid now request w
  = (Auth.failure 400 "Email and token are required",
     {| cookie := cookie w; sessions := sessions w;
        trace := trace w ++ [Console "[Login] Attempting login for email:"] |}).
Proof.
  unfold Auth.login, Auth.login_POST, Auth.login_try, Auth.present. route.
  destruct (Auth.login_email request) as [email|];
    destruct (Auth.login_memberstackToken request) as [token|]; try done.
  intros [-> | ->]; cbn [negb orb]; [done |]. by rewrite orb_true_r.
Qed.

(** The login route once a member is found, by id or, failing that, by
    email. *)
Lemma login_found getMemberById getMember uuid now request w email token member :
  Auth.login_email request = Some email → email ≠ "" →
  Auth.login_memberstackToken request = Some token → token ≠ "" →
  (∃ memberId, Auth.login_memberstackId request = Some memberId ∧ memberId ≠ ""
               ∧ getMemberById memberId = Some member)
  ∨ ((Auth.present (Auth.login_memberstackId request) = false
      ∨ ∃ memberId, Auth.login_memberstackId request = Some memberId
                    ∧ getMemberById memberId = None)
     ∧ getMember email = Some member) →
  ∃ user w',
    Auth.login getMemberById getMember uuid now request w
    = (Auth.welcome user, (createSession user uuid now w').2)
    ∧ cookie w' = cookie w ∧ sessions w' = sessions w
    ∧ User.id user = Member.id member
    ∧ User.email user = Member.email member
    ∧ User.memberstackId user = Member.id member
    ∧ User.activePlans user = Member.getActivePlanIds member
    ∧ User.bestPlanId user
      = Memberstack.getBestPlanId (Member.getActivePlanIds member).
Proof.
  intros Hemail Hne Htoken Hnt Hfound. apply truthy_spec in Hne, Hnt.
  unfold Auth.login, Auth.login_POST, Auth.login_try. rewrite Hemail, Htoken. route.
  rewrite Hne, Hnt. cbn [negb orb].
  destruct Hfound as [(memberId & Hid & Hidne & Hby) | [Hnoid Hby]].
  - apply truthy_spec in Hidne. rewrite Hid, Hidne. route. rewrite Hby. typed.
    eexists _, _. split; [reflexivity |]. by split_and!.
  - destruct (Auth.login_memberstackId request) as [memberId|] eqn:Hid.
    + destruct (Js.truthy memberId) eqn:Htruthy.
      * assert (getMemberById memberId = None) as Hnone.
        { destruct Hnoid as [Habsent | (memberId' & [= <-] & Hnone)]; [| done].
          unfold Auth.present in Habsent. congruence. }
        route. rewrite Hnone. typed. rewrite Hby. typed.
        eexists _, _. split; [reflexivity |]. by split_and!.
      * route. rewrite Hby. typed.
        eexists _, _. split; [reflexivity |]. by split_and!.
    + route. rewrite Hby. typed.
      eexists _, _. split; [reflexivity |]. by split_and!.
Qed.

Lemma loginLookup_found {A} (getMemberById getMember : string → option A) request email
    (member : A) :
  Auth.login_email request = Some email →
  loginLookup getMemberById getMember request = Some member →
  (∃ memberId, Auth.login_memberstackId request = Some memberId ∧ memberId ≠ ""
               ∧ getMemberById memberId = Some member)
  ∨ ((Auth.present (Auth.login_memberstackId request) = false
      ∨ ∃ memberId, Auth.login_memberstackId request = Some memberId
                    ∧ getMemberById memberId = None)
     ∧ getMember email = Some member).
Proof.
  intros Hemail. unfold loginLookup, Auth.present. rewrite Hemail. cbn [Auth.orEmpty].
  destruct (Auth.login_memberstackId request) as [memberId|]; [| intros ?; right; auto].
  cbn [Auth.orEmpty]. destruct (Js.truthy memberId) eqn:Htruthy; [| intros ?; right; auto].
  destruct (getMemberById memberId) as [found|] eqn:Hby.
  - intros [= <-]. left. exists memberId. by rewrite truthy_spec in Htruthy.
  - intros ?. right. split; [right; by exists memberId | done].
Qed.

(** Nobody is found and no member id was sent: 404, nothing stored. *)
Lemma login_not_found getMemberById getMember uuid now request w email token :
  Auth.login_email request = Some email → email ≠ "" →
  Auth.login_memberstackToken request = Some token → token ≠ "" →
  Auth.present (Auth.login_memberstackId request) = false →
  getMember email = None →
  ∃ w', Auth.login getMemberById getMember uuid now request w
        = (Auth.failure 404 "User not found", w')
        ∧ cookie w' = cookie w ∧ sessions w' = sessions w.
Proof.
  intros Hemail Hne Htoken Hnt Hnoid Hby. apply truthy_spec in Hne, Hnt.
  unfold Auth.login, Auth.login_POST, Auth.login_try. rewrite Hemail, Htoken. route.
  rewrite Hne, Hnt. cbn [negb orb].
  rewrite Hnoid. unfold Auth.present in Hnoid.
  destruct (Auth.login_memberstackId request) as [memberId|]; [rewrite Hnoid |];
    route; rewrite Hby; route; by eexists.
Qed.

(** Nobody is found but a member id was sent: the user is made of what
    the client sent, on the free plan. *)
Lemma login_client_data getMemberById getMember uuid now request w email token memberId :
  Auth.login_email request = Some email → email ≠ "" →
  Auth.login_memberstackToken request = Some token → token ≠ "" →
  Auth.login_memberstackId request = Some memberId → memberId ≠ "" →
  getMemberById memberId = None → getMember email = None →
  ∃ user w',
    Auth.login getMemberById getMember uuid now request w
    = (Auth.welcome user, (createSession user uuid now w').2)
    ∧ cookie w' = cookie w ∧ sessions w' = sessions w
    ∧ User.id user = memberId
    ∧ User.email user = email
    ∧ User.memberstackId user = memberId
    ∧ User.activePlans user = ["pln_basic--n5180oor"]
    ∧ User.bestPlanId user = Some "pln_basic--n5180oor".
Proof.
  intros Hemail Hne Htoken Hnt Hid Hidne Hbyid Hby. apply truthy_spec in Hne, Hnt, Hidne.
  unfold Auth.login, Auth.login_POST, Auth.login_try. rewrite Hemail, Htoken. route.
  rewrite Hne, Hnt. cbn [negb orb].
  unfold Auth.present. rewrite Hid, Hidne. route. rewrite Hbyid. typed. rewrite Hby. typed.
  eexists _, _. split; [reflexivity |]. by split_and!.
Qed.

(** A signup request without a usable email or token. *)
Lemma signup_rejected getMember dateNow uuid now request w :
  Auth.present (Auth.signup_email request) = false
  ∨ Auth.present (Auth.signup_memberstackToken request) = false →
  Auth.signup getMember dateNow uuid now request w
  = (Auth.failure 400 "Email and token are required", w).
Proof.
  unfold Auth.signup, Auth.signup_POST, Auth.signup_try, Auth.present. route.
  destruct (Auth.signup_email request) as [email|];
    destruct (Auth.signup_memberstackToken request) as [token|]; try done.
  intros [-> | ->]; cbn [negb orb]; [done |]. by rewrite orb_true_r.
Qed.

(** Every other signup request ends in a session. *)
Lemma signup_accepted getMember dateNow uuid now request w email token :
  Auth.signup_email request = Some email → email ≠ "" →
  Auth.signup_memberstackToken request = Some token → token ≠ "" →
  ∃ user,
    Auth.signup getMember dateNow uuid now request w
    = (Auth.welcome user, (createSession user uuid now w).2)
    ∧ match getMember email with
      | None =>
          User.id user = "temp_" ++ pretty dateNow
          ∧ User.email user = email
          ∧ User.memberstackId user = ""
          ∧ User.bestPlanId user
            = Auth.orElse (Auth.signup_plan request) (Some "pln_basic--n5180oor")
      | Some member =>
          User.id user = Member.id member
          ∧ User.email user = Member.email member
          ∧ User.memberstackId user = Member.id member
          ∧ User.bestPlanId user
            = Auth.orElse (Memberstack.getBestPlanId (Member.getActivePlanIds member))
                (Auth.orElse (Auth.signup_plan request) (Some "pln_basic--n5180oor"))
      end.
Proof.
  intros Hemail Hne Htoken Hnt. apply truthy_spec in Hne, Hnt.
  unfold Auth.signup, Auth.signup_POST, Auth.signup_try. rewrite Hemail, Htoken. route.
  rewrite Hne, Hnt. cbn [negb orb].
  destruct (getMember email) as [member|]; route; eexists; (split; [reflexivity | done]).
Qed.

(** [getBestPlanId] answers null or a non-empty string. *)
Lemma getBestPlanId_nonempty (ids : list string) (best : string) :
  Memberstack.getBestPlanId ids = Some best → best ≠ "".
Proof.
  unfold Memberstack.getBestPlanId.
  destruct (Memberstack.firstMatch _ ids) as [m|] eqn:Hfm.
  - intros [= <-]. destruct (firstMatch_from_rules _ _ _ Hfm) as (r & Hr & <-).
    destruct (rule_target r Hr) as (plan & -> & Hplan & _).
    intros Hempty. rewrite Hempty in Hplan. by vm_compute in Hplan.
  - destruct ids as [|first rest]; [done |]. cbn.
    destruct (Js.truthy first) eqn:Htruthy; [| done].
    intros [= <-]. by apply truthy_spec.
Qed.

(** The subscription endpoint on a world that holds the record
    [createSession] wrote for [user], whose plan lookup gives [entry]. *)
Lemma GET_after_createSession w user uuid created now upstream today entry :
  cookie w = Some uuid → uuid ≠ "" →
  sessions w !! uuid = Some (sessionFor user uuid created) →
  now ≤ created + SESSION_DURATION_MS →
  Subscription.getPlanDetails (User.bestPlanId user) = Catalog.Entry entry →
  ∃ sub,
    (Subscription.GET now upstream today w).1
    = {| Subscription.status := 200;
         Subscription.body := Subscription.SubscriptionBody true sub |}
    ∧ Subscription.plan_id (Subscription.plan sub) = Some (Catalog.id entry)
    ∧ Subscription.plan_name (Subscription.plan sub) = Some (Catalog.name entry)
    ∧ Subscription.plan_tier (Subscription.plan sub) = Some (Js.Num (Catalog.tier entry))
    ∧ Subscription.propertyReportsLimit (Subscription.usage sub)
      = Some (Js.Num (Catalog.propertyReports entry))
    ∧ Subscription.suburbReportsLimit (Subscription.usage sub)
      = Some (Js.Num (Catalog.suburbReports entry))
    ∧ Subscription.propertyReportsLeft (Subscription.usage sub)
      = Js.Num (remaining (Catalog.propertyReports entry) (usageOf today upstream).1)
    ∧ Subscription.suburbReportsLeft (Subscription.usage sub)
      = Js.Num (remaining (Catalog.suburbReports entry) (usageOf today upstream).2)
    ∧ Subscription.csvExport (Subscription.features sub) = (2 <=? Catalog.tier entry)
    ∧ Subscription.prioritySupport (Subscription.features sub) = (3 <=? Catalog.tier entry).
Proof.
  intros Hc Hne Hs Hnow Hplan.
  pose proof (getCurrentUser_stored w user uuid created now Hc Hne Hs Hnow) as Huser.
  eexists. split.
  - rewrite (GET_entry now upstream today w _ entry Huser Hplan). reflexivity.
  - by split_and!.
Qed.

(** The login route on a body that cannot be read. *)
Lemma login_POST_unreadable vendorById vendorByEmail uuid now w :
  Auth.login_POST vendorById vendorByEmail uuid now None w
  = (Auth.failure 500 "An error occurred during login",
     {| cookie := cookie w; sessions := sessions w;
        trace := trace w ++ [Console "Login error:"] |}).
Proof. reflexivity. Qed.

Lemma login_POST_rejected vendorById vendorByEmail uuid now request w :
  Auth.present (Auth.login_email request) = false
  ∨ Auth.present (Auth.login_memberstackToken request) = false →
  Auth.login_POST vendorById vendorByEmail uuid now (Some request) w
  = (Auth.failure 400 "Email and token are required",
     {| cookie := cookie w; sessions := sessions w;
        trace := trace w ++ [Console "[Login] Attempting login for email:"] |}).
Proof.
  unfold Auth.login_POST, Auth.login_try, Auth.present. route.
  destruct (Auth.login_email request) as [email|];
    destruct (Auth.login_memberstackToken request) as [token|]; try done.
  intros [-> | ->]; cbn [negb orb]; [done |]. by rewrite orb_true_r.
Qed.

(** The world a route leaves behind when it stops before a session is
    made: the cookie and the store of [w] and a longer trace. *)
Ltac settle w :=
  eexists {| Session.cookie := Session.cookie w; Session.sessions := Session.sessions w;
             Session.trace := _ |};
  split; [reflexivity |]; split; [reflexivity |]; try eexists; reflexivity.

(** The login route on a request with an email and a token, by what the
    lookups find. *)
Lemma login_POST_complete vendorById vendorByEmail uuid now request w email token :
  Auth.login_email request = Some email → email ≠ "" →
  Auth.login_memberstackToken request = Some token → token ≠ "" →
  ∃ w', cookie w' = cookie w ∧ sessions w' = sessions w
    ∧ match clientLookup vendorById vendorByEmail request with
      | Some member =>
          match Member.raw_auth member, Member.raw_planConnections member with
          | Some _, Some _ =>
              ∃ user, Auth.login_POST vendorById vendorByEmail uuid now (Some request) w
                      = (Auth.welcome user, (createSession user uuid now w').2)
          | _, _ =>
              Auth.login_POST vendorById vendorByEmail uuid now (Some request) w
              = (Auth.failure 500 "An error occurred during login", w')
          end
      | None =>
          if Auth.present (Auth.login_memberstackId request) then
            ∃ user, Auth.login_POST vendorById vendorByEmail uuid now (Some request) w
                    = (Auth.welcome user, (createSession user uuid now w').2)
          else
            Auth.login_POST vendorById vendorByEmail uuid now (Some request) w
            = (Auth.failure 404 "User not found", w')
      end.
Proof.
  intros Hemail Hne Htoken Hnt. apply truthy_spec in Hne, Hnt.
  unfold clientLookup, loginLookup, Auth.login_POST, Auth.login_try, Auth.present,
    Member.activePlanIds, Member.getMemberById.
  rewrite Hemail, Htoken. cbn [Auth.orEmpty]. route. rewrite Hne, Hnt. cbn [negb orb].
  destruct (Auth.login_memberstackId request) as [memberId|]; cbn [Auth.orEmpty].
  - destruct (Js.truthy memberId).
    + route. destruct (vendorById memberId) as [byId|]; route.
      * destruct (Member.raw_auth byId); [destruct (Member.raw_planConnections byId) |];
          route; settle w.
      * destruct (Member.getMember (vendorByEmail email)) as [byEmail|]; route.
        -- destruct (Member.raw_auth byEmail);
             [destruct (Member.raw_planConnections byEmail) |];
             route; settle w.
        -- settle w.
    + route. destruct (Member.getMember (vendorByEmail email)) as [byEmail|]; route.
      * destruct (Member.raw_auth byEmail);
          [destruct (Member.raw_planConnections byEmail) |];
          route; settle w.
      * settle w.
  - route. destruct (Member.getMember (vendorByEmail email)) as [byEmail|]; route.
    + destruct (Member.raw_auth byEmail);
        [destruct (Member.raw_planConnections byEmail) |];
        route; settle w.
    + settle w.
Qed.

(** The email lookup of the client never answers a member without
    [auth]. *)
Lemma getMember_auth (answer : option Member.Raw) (member : Member.Raw) :
  Member.getMember answer = Some member → is_Some (Member.raw_auth member).
Proof.
  unfold Member.getMember. destruct answer as [found|]; [| done].
  destruct (Member.raw_auth found) eqn:Hauth; [| done].
  intros [= <-]. by rewrite Hauth.
Qed.

Lemma signup_POST_unreadable vendorByEmail dateNow uuid now w :
  Auth.signup_POST vendorByEmail dateNow uuid now None w
  = (Auth.failure 500 "An error occurred during signup",
     {| cookie := cookie w; sessions := sessions w;
        trace := trace w ++ [Console "Signup error:"] |}).
Proof. reflexivity. Qed.

Lemma signup_POST_rejected vendorByEmail dateNow uuid now request w :
  Auth.present (Auth.signup_email request) = false
  ∨ Auth.present (Auth.signup_memberstackToken request) = false →
  Auth.signup_POST vendorByEmail dateNow uuid now (Some request) w
  = (Auth.failure 400 "Email and token are required", w).
Proof.
  unfold Auth.signup_POST, Auth.signup_try, Auth.present. route.
  destruct (Auth.signup_email request) as [email|];
    destruct (Auth.signup_memberstackToken request) as [token|]; try done.
  intros [-> | ->]; cbn [negb orb]; [done |]. by rewrite orb_true_r.
Qed.

(** The best plan of a signup is a resolved plan, the plan of the request
    or the free plan, whichever comes first, and so not empty. *)
Lemma signup_plan_nonempty (resolved plan : option string) :
  (∀ b, resolved = Some b → b ≠ "") →
  ∃ best, Auth.orElse resolved (Auth.orElse plan (Some "pln_basic--n5180oor")) = Some best
          ∧ best ≠ "".
Proof.
  intros Hresolved. unfold Auth.orElse, Auth.present.
  destruct resolved as [b|].
  - destruct (Js.truthy b) eqn:Hb; [exists b; split; [done | by apply truthy_spec] |].
    exfalso. apply (Hresolved b eq_refl). by destruct b.
  - destruct plan as [p|]; [| by eexists].
    destruct (Js.truthy p) eqn:Hp; [| by eexists].
    exists p. split; [done | by apply truthy_spec].
Qed.

(** The signup route on a request with an email and a token, by what the
    lookup finds. *)
Lemma signup_POST_complete vendorByEmail dateNow uuid now request w email token :
  Auth.signup_email request = Some email → email ≠ "" →
  Auth.signup_memberstackToken request = Some token → token ≠ "" →
  match Member.getMember (vendorByEmail email) with
  | Some member =>
      match Member.raw_planConnections member, Member.raw_auth member,
            Member.raw_customFields member with
      | Some _, Some _, Some _ =>
          ∃ user best,
            Auth.signup_POST vendorByEmail dateNow uuid now (Some request) w
            = (Auth.welcome user, (createSession user uuid now w).2)
            ∧ User.bestPlanId user = Some best ∧ best ≠ ""
      | _, _, _ =>
          Auth.signup_POST vendorByEmail dateNow uuid now (Some request) w
          = (Auth.failure 500 "An error occurred during signup",
             {| cookie := cookie w; sessions := sessions w;
                trace := trace w ++ [Console "Signup error:"] |})
      end
  | None =>
      ∃ user best,
        Auth.signup_POST vendorByEmail dateNow uuid now (Some request) w
        = (Auth.welcome user, (createSession user uuid now w).2)
        ∧ User.bestPlanId user = Some best ∧ best ≠ ""
  end.
Proof.
  intros Hemail Hne Htoken Hnt. apply truthy_spec in Hne, Hnt.
  unfold Auth.signup_POST, Auth.signup_try, Member.activePlanIds.
  rewrite Hemail, Htoken. route. rewrite Hne, Hnt. cbn [negb orb].
  destruct (Member.getMember (vendorByEmail email)) as [member|]; route.
  - destruct (Member.raw_planConnections member) as [connections|];
      [destruct (Member.raw_auth member); [destruct (Member.raw_customFields member) |] |];
      route; try reflexivity.
    destruct (signup_plan_nonempty
                (Memberstack.getBestPlanId
                   (map Member.planId
                      (List.filter (λ conn, String.eqb (Member.status conn) "ACTIVE")
                         connections)))
                (Auth.signup_plan request)) as (best & Hbest & Hnonempty).
    { intros b Hb. by apply (getBestPlanId_nonempty _ _ Hb). }
    eexists _, best. split; [reflexivity |]. by split.
  - destruct (signup_plan_nonempty None (Auth.signup_plan request))
      as (best & Hbest & Hnonempty); [done |].
    eexists _, best. split; [reflexivity |]. by split.
Qed.

End Routes.

(** Close a goal one of whose hypotheses, a statement about what the
    lookups found, cannot hold. *)
Ltac quiet :=
  solve [ repeat match goal with
                 | H : _ ∧ _ |- _ => destruct H
                 | H : _ ∨ _ |- _ => destruct H
                 | H : ∃ _, _ |- _ => destruct H
                 | H : Some _ = Some _ |- _ => injection H as <-
                 | H : ¬ (_ ∧ _) |- _ =>
                     destruct H; unfold is_Some; repeat split; eauto
                 end;
          (done || congruence) ].

(** X11. The login route answers 400, 404, 500 or 200 and nothing else.  A
    body that cannot be read is answered 500 by the [catch].  On a body
    that can: 400 exactly when the email or the token is missing or empty;
    404 exactly when both are there, neither lookup finds a member and no
    member id was sent; 500 exactly when both are there and the member
    found has no [auth] or no [planConnections]; 200 in every other case.
    Only a 200 creates a session; the other answers leave the cookie and
    the store as they were. *)
Theorem login_outcomes
    (vendorById vendorByEmail : string → option Member.Raw) (uuid : string) (now : Z)
    (body : option Auth.LoginRequest) (w : Session.World) :
  let r := Auth.login_POST vendorById vendorByEmail uuid now body w in
  match body with
  | None => Auth.status r.1 = 500
  | Some request =>
      let complete := Auth.present (Auth.login_email request)
                      && Auth.present (Auth.login_memberstackToken request) in
      let found := clientLookup vendorById vendorByEmail request in
      let idSent := Auth.present (Auth.login_memberstackId request) in
      (Auth.status r.1 = 400 ↔ complete = false)
      ∧ (Auth.status r.1 = 404 ↔ complete = true ∧ found = None ∧ idSent = false)
      ∧ (Auth.status r.1 = 500
         ↔ complete = true ∧ ∃ member, found = Some member ∧ ¬ readableAtLogin member)
      ∧ (Auth.status r.1 = 200
         ↔ complete = true
           ∧ ((∃ member, found = Some member ∧ readableAtLogin member)
              ∨ (found = None ∧ idSent = true)))
  end
  ∧ (Auth.status r.1 = 200 →
       Auth.success (Auth.body r.1) = true
       ∧ Session.cookie r.2 = Some uuid ∧ is_Some (Session.sessions r.2 !! uuid))
  ∧ (Auth.status r.1 ≠ 200 →
       Auth.success (Auth.body r.1) = false
       ∧ Session.cookie r.2 = Session.cookie w
       ∧ Session.sessions r.2 = Session.sessions w).
Proof.
  intros r. subst r. destruct body as [request|].
  2: { rewrite login_POST_unreadable. cbn. by split_and!. }
  cbn zeta.
  destruct (Auth.present (Auth.login_email request)
            && Auth.present (Auth.login_memberstackToken request)) eqn:Hcomplete.
  - apply andb_true_iff in Hcomplete as [He Ht]. unfold Auth.present in He, Ht.
    destruct (Auth.login_email request) as [email|] eqn:Hemail; [| done].
    destruct (Auth.login_memberstackToken request) as [token|] eqn:Htoken; [| done].
    apply truthy_spec in He, Ht.
    destruct (login_POST_complete vendorById vendorByEmail uuid now request w email token
                Hemail He Htoken Ht) as (w' & Hc & Hs & Hrun).
    unfold readableAtLogin.
    destruct (clientLookup vendorById vendorByEmail request) as [member|].
    + destruct (Member.raw_auth member) as [memberEmail|] eqn:Hauth;
        [destruct (Member.raw_planConnections member) as [connections|] eqn:Hconnections |].
      * destruct Hrun as (user & ->).
        destruct (createSession_after_logs user uuid now w w' Hc Hs) as [Hc' Hs'].
        cbn [fst snd Auth.welcome Auth.status Auth.body Auth.success].
        rewrite Hc', Hs', lookup_insert_eq.
        split_and!; try done; try (split; [done | intros [_ ?]; quiet]).
        split; [| done]. intros _. split; [done |]. left. exists member.
        rewrite Hauth, Hconnections. by split_and!.
      * rewrite Hrun. cbn [fst snd Auth.failure Auth.status Auth.body Auth.success].
        rewrite Hc, Hs.
        split_and!; try done; try (split; [done | intros [_ ?]; quiet]).
        -- split; [| done]. intros _. split; [done |]. exists member. split; [done |].
           rewrite Hconnections. by intros [_ [? ?]].
        -- split; [done |]. intros [_ [(m & [= <-] & _ & Hsome) | [? _]]]; [| done].
           rewrite Hconnections in Hsome. by destruct Hsome.
      * rewrite Hrun. cbn [fst snd Auth.failure Auth.status Auth.body Auth.success].
        rewrite Hc, Hs.
        split_and!; try done; try (split; [done | intros [_ ?]; quiet]).
        -- split; [| done]. intros _. split; [done |]. exists member. split; [done |].
           rewrite Hauth. by intros [[? ?] _].
        -- split; [done |]. intros [_ [(m & [= <-] & Hsome & _) | [? _]]]; [| done].
           rewrite Hauth in Hsome. by destruct Hsome.
    + destruct (Auth.present (Auth.login_memberstackId request)).
      * destruct Hrun as (user & ->).
        destruct (createSession_after_logs user uuid now w w' Hc Hs) as [Hc' Hs'].
        cbn [fst snd Auth.welcome Auth.status Auth.body Auth.success].
        rewrite Hc', Hs', lookup_insert_eq.
        split_and!; try done; try (split; [done | intros [_ ?]; quiet]).
        split; [| done]. intros _. split; [done |]. by right.
      * rewrite Hrun. cbn [fst snd Auth.failure Auth.status Auth.body Auth.success].
        rewrite Hc, Hs.
        split_and!; try done; try (split; [done | intros [_ ?]; quiet]).
  - apply andb_false_iff in Hcomplete. rewrite login_POST_rejected by done.
    cbn [fst snd Auth.failure Auth.status Auth.body Auth.success Session.cookie
         Session.sessions].
    split_and!; try done; split; try done; by intros [? _].
Qed.

(** A member the id lookup finds without [auth]: the route answers 500 and
    nobody is signed in. *)
Lemma login_outcomes_example :
  let member := {| Member.raw_id := "mem_1"; Member.raw_auth := None;
                   Member.raw_customFields := None;
                   Member.raw_planConnections := Some [] |} in
  let request := {| Auth.login_email := Some "member@example.com";
                    Auth.login_memberstackToken := Some "token";
                    Auth.login_memberstackId := Some "mem_1";
                    Auth.login_firstName := None; Auth.login_lastName := None |} in
  let r := Auth.login_POST (λ _, Some member) (λ _, None) "sid-7" 1000 (Some request)
             blank in
  Auth.status r.1 = 500 ∧ Session.cookie r.2 = None ∧ Session.sessions r.2 = ∅.
Proof.
  intros member request r.
  pose proof (login_outcomes (λ _, Some member) (λ _, None) "sid-7" 1000 (Some request)
                blank) as Houtcomes.
  cbn zeta in Houtcomes. fold r in Houtcomes.
  destruct Houtcomes as [(_ & _ & Hbroken & _) (_ & Hnone)].
  assert (Auth.status r.1 = 500) as Hstatus.
  { apply Hbroken. split; [reflexivity |]. exists member. split; [reflexivity |].
    intros [[email Hemail] _]. discriminate Hemail. }
  split; [exact Hstatus |].
  destruct Hnone as (_ & Hcookie & Hstore); [rewrite Hstatus; discriminate |].
  split; [exact Hcookie | exact Hstore].
Defined.

(** X12. When a lookup finds the member, by id first and by email
    otherwise, the session is made from the vendor's record: its email is
    the member's, not the one in the request, and its best plan is resolved
    from the ACTIVE plan connections only.  The current-session route then
    reports this user, under the session id. *)
Theorem login_uses_vendor_record
    (getMemberById getMember : string → option Member.t) (uuid : string) (now later : Z)
    (request : Auth.LoginRequest) (w : Session.World) (email token : string)
    (member : Member.t) :
  Auth.login_email request = Some email → email ≠ "" →
  Auth.login_memberstackToken request = Some token → token ≠ "" →
  loginLookup getMemberById getMember request = Some member →
  uuid ≠ "" → later ≤ now + Session.SESSION_DURATION_MS →
  let r := Auth.login getMemberById getMember uuid now request w in
  ∃ user,
    r.1 = Auth.welcome user
    ∧ User.id user = Member.id member
    ∧ User.email user = Member.email member
    ∧ User.activePlans user = Member.getActivePlanIds member
    ∧ User.bestPlanId user = Memberstack.getBestPlanId (Member.getActivePlanIds member)
    ∧ Session.sessions r.2 !! uuid = Some (sessionFor user uuid now)
    ∧ Auth.user (Auth.body (Auth.me later r.2).1) = Some (asSeenBySession uuid user).
Proof.
  intros Hemail He Htoken Ht Hfound Hne Hlater r. subst r.
  destruct (login_found getMemberById getMember uuid now request w email token member
              Hemail He Htoken Ht (loginLookup_found _ _ _ _ _ Hemail Hfound))
    as (user & w' & -> & Hc & Hs & Hid & Hmail & _ & Hplans & Hbest).
  destruct (createSession_after_logs user uuid now w w' Hc Hs) as [Hc' Hs'].
  assert (Session.sessions (Session.createSession user uuid now w').2 !! uuid
          = Some (sessionFor user uuid now)) as Hstored.
  { by rewrite Hs', lookup_insert_eq. }
  exists user. cbn [fst snd]. split_and!; try done.
  rewrite me_run. cbn [fst].
  by rewrite (getCurrentUser_stored _ user uuid now later Hc' Hne Hstored Hlater).
Qed.

(** The vendor knows the member under another email than the one typed:
    the session carries the vendor's. *)
Lemma login_uses_vendor_record_example :
  let request := {| Auth.login_email := Some "typed@example.com";
                    Auth.login_memberstackToken := Some "token";
                    Auth.login_memberstackId := Some "mem_1";
                    Auth.login_firstName := None; Auth.login_lastName := None |} in
  let m := member "acme-pro-monthly" "ACTIVE" in
  let r := Auth.login (only "mem_1" m) nobody "sid-7" 1000 request blank in
  ∃ user,
    r.1 = Auth.welcome user
    ∧ User.email user = "member@example.com"
    ∧ User.bestPlanId user = Some "pln_advanced-ni690fz3".
Proof.
  intros request m r.
  destruct (login_uses_vendor_record (only "mem_1" m) nobody "sid-7" 1000 2000 request blank
              "typed@example.com" "token" m)
    as (user & Hr & _ & Hmail & _ & Hbest & _);
    [reflexivity | discriminate | reflexivity | discriminate | reflexivity | discriminate
    | by vm_compute |].
  exists user. split_and!; [exact Hr | exact Hmail | exact Hbest].
Defined.

(** X13. When neither lookup finds the member but the request carries a
    member id, the login route makes the session from what the client
    sent: the id and the email of the request, on the free plan.  The
    subscription endpoint then reports the Free plan with zero quotas. *)
Theorem login_client_fallback
    (getMemberById getMember : string → option Member.t) (uuid : string) (now later : Z)
    (request : Auth.LoginRequest) (w : Session.World) (email token memberId : string)
    (upstream : Subscription.Upstream) (today : Subscription.Today) :
  Auth.login_email request = Some email → email ≠ "" →
  Auth.login_memberstackToken request = Some token → token ≠ "" →
  Auth.login_memberstackId request = Some memberId → memberId ≠ "" →
  getMemberById memberId = None → getMember email = None →
  uuid ≠ "" → later ≤ now + Session.SESSION_DURATION_MS →
  let r := Auth.login getMemberById getMember uuid now request w in
  ∃ user sub,
    r.1 = Auth.welcome user
    ∧ User.id user = memberId ∧ User.email user = email
    ∧ User.bestPlanId user = Some "pln_basic--n5180oor"
    ∧ (Subscription.GET later upstream today r.2).1
      = {| Subscription.status := 200;
           Subscription.body := Subscription.SubscriptionBody true sub |}
    ∧ Subscription.plan_name (Subscription.plan sub) = Some "Free"
    ∧ Subscription.plan_tier (Subscription.plan sub) = Some (Js.Num 0)
    ∧ Subscription.propertyReportsLeft (Subscription.usage sub) = Js.Num 0
    ∧ Subscription.suburbReportsLeft (Subscription.usage sub) = Js.Num 0.
Proof.
  intros Hemail He Htoken Ht Hid Hidne Hbyid Hby Hne Hlater r. subst r.
  destruct (login_client_data getMemberById getMember uuid now request w email token
              memberId Hemail He Htoken Ht Hid Hidne Hbyid Hby)
    as (user & w' & -> & Hc & Hs & Huid & Hmail & _ & _ & Hbest).
  destruct (createSession_after_logs user uuid now w w' Hc Hs) as [Hc' Hs'].
  assert (Session.sessions (Session.createSession user uuid now w').2 !! uuid
          = Some (sessionFor user uuid now)) as Hstored.
  { by rewrite Hs', lookup_insert_eq. }
  assert (∃ entry, Subscription.getPlanDetails (User.bestPlanId user) = Catalog.Entry entry
                   ∧ Catalog.name entry = "Free" ∧ Catalog.tier entry = 0
                   ∧ Catalog.propertyReports entry = 0 ∧ Catalog.suburbReports entry = 0)
    as (entry & Hentry & Hname & Htier & Hp & Hsub).
  { rewrite Hbest. eexists. split; [by vm_compute | done]. }
  destruct (GET_after_createSession _ user uuid now later upstream today entry
              Hc' Hne Hstored Hlater Hentry)
    as (sub & Hget & _ & Hpname & Hptier & _ & _ & Hpleft & Hsleft & _).
  exists user, sub. cbn [fst snd]. rewrite Hpname, Hptier, Hpleft, Hsleft.
  rewrite Hname, Htier, Hp, Hsub. unfold remaining. cbn [decide_rel].
  pose proof (countOrders_nonneg today) as Hnonneg.
  assert (0 ≤ (usageOf today upstream).1 ∧ 0 ≤ (usageOf today upstream).2) as [H1 H2].
  { destruct upstream; cbn [usageOf fst snd]; [lia | lia | apply Hnonneg]. }
  rewrite !decide_False by lia.
  split_and!; try done; f_equal; lia.
Qed.

Lemma login_client_fallback_example :
  let request := {| Auth.login_email := Some "anyone@example.com";
                    Auth.login_memberstackToken := Some "token";
                    Auth.login_memberstackId := Some "mem_unknown";
                    Auth.login_firstName := None; Auth.login_lastName := None |} in
  let r := Auth.login nobody nobody "sid-7" 1000 request blank in
  ∃ user, r.1 = Auth.welcome user
          ∧ User.id user = "mem_unknown" ∧ User.email user = "anyone@example.com".
Proof.
  intros request r.
  destruct (login_client_fallback nobody nobody "sid-7" 1000 2000 request blank
              "anyone@example.com" "token" "mem_unknown" Subscription.NotOk Sample.today)
    as (user & sub & Hr & Hid & Hmail & _);
    [reflexivity | discriminate | reflexivity | discriminate | reflexivity | discriminate
    | reflexivity | reflexivity | discriminate | by vm_compute |].
  exists user. by split_and!.
Defined.

(** X14. Entitlement end to end.  A member found at login who holds an
    ACTIVE plan connection matching a top-tier rule gets, from the
    subscription endpoint, the Portfolio Builder plan: tier 3, both quotas
    unlimited, priority support.  A member none of whose connections is
    ACTIVE gets the Free plan, whatever those connections name. *)
Theorem login_entitlement
    (getMemberById getMember : string → option Member.t) (uuid : string) (now later : Z)
    (request : Auth.LoginRequest) (w : Session.World) (email token : string)
    (member : Member.t) (upstream : Subscription.Upstream) (today : Subscription.Today) :
  Auth.login_email request = Some email → email ≠ "" →
  Auth.login_memberstackToken request = Some token → token ≠ "" →
  loginLookup getMemberById getMember request = Some member →
  uuid ≠ "" → later ≤ now + Session.SESSION_DURATION_MS →
  let r := Auth.login getMemberById getMember uuid now request w in
  let sub := Subscription.body (Subscription.GET later upstream today r.2).1 in
  ((∃ conn top, conn ∈ Member.planConnections member ∧ Member.status conn = "ACTIVE"
                ∧ top ∈ Memberstack.hierarchy ∧ Memberstack.mappedId top = topTierId
                ∧ matchesRule (Member.planId conn) top) →
   ∃ s, sub = Subscription.SubscriptionBody true s
        ∧ Subscription.plan_name (Subscription.plan s) = Some "Portfolio Builder"
        ∧ Subscription.plan_tier (Subscription.plan s) = Some (Js.Num 3)
        ∧ Subscription.propertyReportsLeft (Subscription.usage s) = Js.Num (-1)
        ∧ Subscription.suburbReportsLeft (Subscription.usage s) = Js.Num (-1)
        ∧ Subscription.prioritySupport (Subscription.features s) = true)
  ∧ ((∀ conn, conn ∈ Member.planConnections member → Member.status conn ≠ "ACTIVE") →
     ∃ s, sub = Subscription.SubscriptionBody true s
          ∧ Subscription.plan_name (Subscription.plan s) = Some "Free"
          ∧ Subscription.plan_tier (Subscription.plan s) = Some (Js.Num 0)
          ∧ Subscription.csvExport (Subscription.features s) = false).
Proof.
  intros Hemail He Htoken Ht Hfound Hne Hlater r sub. subst sub r.
  destruct (login_found getMemberById getMember uuid now request w email token member
              Hemail He Htoken Ht (loginLookup_found _ _ _ _ _ Hemail Hfound))
    as (user & w' & -> & Hc & Hs & _ & _ & _ & _ & Hbest).
  destruct (createSession_after_logs user uuid now w w' Hc Hs) as [Hc' Hs'].
  assert (Session.sessions (Session.createSession user uuid now w').2 !! uuid
          = Some (sessionFor user uuid now)) as Hstored.
  { by rewrite Hs', lookup_insert_eq. }
  cbn [fst snd]. split.
  - intros (conn & top & Hconn & Hactive & Htop & Hmapped & Hmatch).
    assert (Member.planId conn ∈ Member.getActivePlanIds member) as Hin.
    { unfold Member.getActivePlanIds. apply list_elem_of_In, in_map, filter_In.
      split; [by apply list_elem_of_In | by apply String.eqb_eq]. }
    assert (∃ entry, Subscription.getPlanDetails (User.bestPlanId user) = Catalog.Entry entry
                     ∧ Catalog.name entry = "Portfolio Builder" ∧ Catalog.tier entry = 3
                     ∧ Catalog.propertyReports entry = -1 ∧ Catalog.suburbReports entry = -1)
      as (entry & Hentry & Hname & Htier & Hp & Hsub).
    { rewrite Hbest, (getBestPlanId_top_tier _ _ top Hin Htop Hmapped Hmatch).
      eexists. split; [by vm_compute | done]. }
    destruct (GET_after_createSession _ user uuid now later upstream today entry
                Hc' Hne Hstored Hlater Hentry)
      as (s & Hget & _ & Hpname & Hptier & _ & _ & Hpleft & Hsleft & _ & Hpriority).
    exists s. rewrite Hget, Hpname, Hptier, Hpleft, Hsleft, Hpriority.
    rewrite Hname, Htier, Hp, Hsub. by split_and!.
  - intros Hinactive.
    assert (Member.getActivePlanIds member = []) as Hnone.
    { unfold Member.getActivePlanIds.
      induction (Member.planConnections member) as [|conn conns IH]; [done |].
      cbn [List.filter]. destruct (String.eqb_spec (Member.status conn) "ACTIVE") as [Hact|_].
      - exfalso. by apply (Hinactive conn); [apply list_elem_of_here |].
      - apply IH. intros c Hc0. by apply Hinactive, list_elem_of_further. }
    assert (∃ entry, Subscription.getPlanDetails (User.bestPlanId user) = Catalog.Entry entry
                     ∧ Catalog.name entry = "Free" ∧ Catalog.tier entry = 0)
      as (entry & Hentry & Hname & Htier).
    { rewrite Hbest, Hnone. eexists. split; [by vm_compute | done]. }
    destruct (GET_after_createSession _ user uuid now later upstream today entry
                Hc' Hne Hstored Hlater Hentry)
      as (s & Hget & _ & Hpname & Hptier & _ & _ & _ & _ & Hcsv & _).
    exists s. rewrite Hget, Hpname, Hptier, Hcsv, Hname, Htier. by split_and!.
Qed.

(** A cancelled portfolio plan grants nothing. *)
Lemma login_entitlement_example :
  let request := {| Auth.login_email := Some "member@example.com";
                    Auth.login_memberstackToken := Some "token";
                    Auth.login_memberstackId := None;
                    Auth.login_firstName := None; Auth.login_lastName := None |} in
  let m := member "acme-portfolio-yearly" "CANCELED" in
  let r := Auth.login nobody (only "member@example.com" m) "sid-7" 1000 request blank in
  ∃ s, Subscription.body (Subscription.GET 2000 Subscription.NotOk Sample.today r.2).1
       = Subscription.SubscriptionBody true s
       ∧ Subscription.plan_name (Subscription.plan s) = Some "Free".
Proof.
  intros request m r.
  destruct (login_entitlement nobody (only "member@example.com" m) "sid-7" 1000 2000 request
              blank "member@example.com" "token" m Subscription.NotOk Sample.today)
    as [_ Hinactive];
    [reflexivity | discriminate | reflexivity | discriminate | reflexivity | discriminate
    | by vm_compute |].
  destruct Hinactive as (s & Hs & Hname & _).
  - intros conn Hconn. apply list_elem_of_singleton in Hconn as ->. discriminate.
  - exists s. by split.
Defined.

(** X15. The signup route answers 400, 500 or 200, never 404.  A body that
    cannot be read is answered 500 by the [catch].  On a body that can: 400
    exactly when the email or the token is missing or empty, leaving the
    world untouched; 500 exactly when both are there and the member the
    lookup finds cannot be read, having no [planConnections] or no
    [customFields], which the route reads unguarded; 200 in every other
    case, whether or not the lookup finds the member.  A member without
    [auth] is never found: the lookup itself fails on it and answers null.
    A 200 creates a session whose best plan is never null or empty; the
    other answers leave the cookie and the store as they were. *)
Theorem signup_outcomes
    (vendorByEmail : string → option Member.Raw) (dateNow : Z) (uuid : string) (now : Z)
    (body : option Auth.SignupRequest) (w : Session.World) :
  let r := Auth.signup_POST vendorByEmail dateNow uuid now body w in
  match body with
  | None => Auth.status r.1 = 500
  | Some request =>
      let complete := Auth.present (Auth.signup_email request)
                      && Auth.present (Auth.signup_memberstackToken request) in
      let found :=
        Member.getMember (vendorByEmail (Auth.orEmpty (Auth.signup_email request))) in
      (Auth.status r.1 = 400 ↔ complete = false)
      ∧ (Auth.status r.1 = 500
         ↔ complete = true ∧ ∃ member, found = Some member ∧ ¬ readableAtSignup member)
      ∧ (Auth.status r.1 = 200
         ↔ complete = true
           ∧ (found = None ∨ ∃ member, found = Some member ∧ readableAtSignup member))
      ∧ (Auth.status r.1 = 400 → r.2 = w)
      ∧ (∀ member, found = Some member → is_Some (Member.raw_auth member))
  end
  ∧ Auth.status r.1 ≠ 404
  ∧ (Auth.status r.1 = 200 →
     ∃ user best,
       r.1 = Auth.welcome user
       ∧ Session.cookie r.2 = Some uuid
       ∧ Session.sessions r.2 !! uuid = Some (sessionFor user uuid now)
       ∧ User.bestPlanId user = Some best ∧ best ≠ "")
  ∧ (Auth.status r.1 ≠ 200 →
       Auth.success (Auth.body r.1) = false
       ∧ Session.cookie r.2 = Session.cookie w
       ∧ Session.sessions r.2 = Session.sessions w).
Proof.
  intros r. subst r. destruct body as [request|].
  2: { rewrite signup_POST_unreadable. cbn. by split_and!. }
  cbn zeta.
  destruct (Auth.present (Auth.signup_email request)
            && Auth.present (Auth.signup_memberstackToken request)) eqn:Hcomplete.
  - apply andb_true_iff in Hcomplete as [He Ht]. unfold Auth.present in He, Ht.
    destruct (Auth.signup_email request) as [email|] eqn:Hemail; [| done].
    destruct (Auth.signup_memberstackToken request) as [token|] eqn:Htoken; [| done].
    apply truthy_spec in He, Ht.
    pose proof (signup_POST_complete vendorByEmail dateNow uuid now request w email token
                  Hemail He Htoken Ht) as Hrun.
    unfold readableAtSignup, readableAtLogin. cbn [Auth.orEmpty].
    pose proof (getMember_auth (vendorByEmail email)) as Hwithauth.
    assert (∀ user best,
              Auth.signup_POST vendorByEmail dateNow uuid now (Some request) w
              = (Auth.welcome user, (Session.createSession user uuid now w).2) →
              User.bestPlanId user = Some best → best ≠ "" →
              Auth.status (Auth.signup_POST vendorByEmail dateNow uuid now (Some request) w).1
              = 200
              ∧ (Auth.status
                   (Auth.signup_POST vendorByEmail dateNow uuid now (Some request) w).1 = 200 →
                 ∃ user best,
                   (Auth.signup_POST vendorByEmail dateNow uuid now (Some request) w).1
                   = Auth.welcome user
                   ∧ Session.cookie
                       (Auth.signup_POST vendorByEmail dateNow uuid now (Some request) w).2
                     = Some uuid
                   ∧ Session.sessions
                       (Auth.signup_POST vendorByEmail dateNow uuid now (Some request) w).2
                     !! uuid = Some (sessionFor user uuid now)
                   ∧ User.bestPlanId user = Some best ∧ best ≠ "")) as Hcreated.
    { intros user best -> Hbest Hnonempty. split; [done |]. intros _.
      destruct (createSession_stored user uuid now w) as [Hc Hs].
      exists user, best. cbn [fst snd]. rewrite Hs, lookup_insert_eq. by split_and!. }
    destruct (Member.getMember (vendorByEmail email)) as [member|].
    + destruct (Member.raw_planConnections member) as [connections|] eqn:Hconnections;
        [destruct (Member.raw_auth member) as [memberEmail|] eqn:Hauth;
         [destruct (Member.raw_customFields member) as [fields|] eqn:Hfields |] |].
      * destruct Hrun as (user & best & Hrun & Hbest & Hnonempty).
        destruct (Hcreated user best Hrun Hbest Hnonempty) as [Hstatus Hsession].
        rewrite Hstatus.
        split_and!; try done; try (split; [done | intros [_ ?]; quiet]).
        -- split; [| done]. intros _. split; [done |]. right. exists member.
           rewrite Hconnections, Hauth, Hfields. by split_and!.
        -- intros _. by apply Hsession.
      * rewrite Hrun. cbn [fst snd Auth.failure Auth.status Auth.body Auth.success
                           Session.cookie Session.sessions].
        split_and!; try done; try (split; [done | intros [_ ?]; quiet]).
        -- split; [| done]. intros _. split; [done |]. exists member. split; [done |].
           rewrite Hfields. by intros [_ [? ?]].
        -- split; [done |]. intros [_ [? | (m & [= <-] & _ & Hsome)]]; [done |].
           rewrite Hfields in Hsome. by destruct Hsome.
      * rewrite Hrun. cbn [fst snd Auth.failure Auth.status Auth.body Auth.success
                           Session.cookie Session.sessions].
        split_and!; try done; try (split; [done | intros [_ ?]; quiet]).
        -- split; [| done]. intros _. split; [done |]. exists member. split; [done |].
           rewrite Hauth. by intros [[[? ?] _] _].
        -- split; [done |]. intros [_ [? | (m & [= <-] & [Hsome _] & _)]]; [done |].
           rewrite Hauth in Hsome. by destruct Hsome.
      * rewrite Hrun. cbn [fst snd Auth.failure Auth.status Auth.body Auth.success
                           Session.cookie Session.sessions].
        split_and!; try done; try (split; [done | intros [_ ?]; quiet]).
        -- split; [| done]. intros _. split; [done |]. exists member. split; [done |].
           rewrite Hconnections. by intros [[_ [? ?]] _].
        -- split; [done |]. intros [_ [? | (m & [= <-] & [_ Hsome] & _)]]; [done |].
           rewrite Hconnections in Hsome. by destruct Hsome.
    + destruct Hrun as (user & best & Hrun & Hbest & Hnonempty).
      destruct (Hcreated user best Hrun Hbest Hnonempty) as [Hstatus Hsession].
      rewrite Hstatus.
      split_and!; try done; try (split; [done | intros [_ ?]; quiet]).
      * split; [| done]. intros _. split; [done |]. by left.
      * intros _. by apply Hsession.
  - apply andb_false_iff in Hcomplete. rewrite signup_POST_rejected by done.
    cbn [fst snd Auth.failure Auth.status Auth.body Auth.success].
    split_and!; try done; try apply getMember_auth; split; try done; by intros [? _].
Qed.

(** A member the vendor knows without [customFields]: the route answers
    500 and nobody is signed in. *)
Lemma signup_outcomes_example :
  let member := {| Member.raw_id := "mem_1"; Member.raw_auth := Some "member@example.com";
                   Member.raw_customFields := None;
                   Member.raw_planConnections := Some [] |} in
  let request := {| Auth.signup_email := Some "member@example.com";
                    Auth.signup_firstName := Some "Ada"; Auth.signup_lastName := None;
                    Auth.signup_plan := Some "pln_advanced-ni690fz3";
                    Auth.signup_memberstackToken := Some "token" |} in
  let r := Auth.signup_POST (λ _, Some member) 1700000000000 "sid-7" 1000 (Some request)
             blank in
  Auth.status r.1 = 500 ∧ Session.cookie r.2 = None ∧ Session.sessions r.2 = ∅.
Proof.
  intros member request r.
  pose proof (signup_outcomes (λ _, Some member) 1700000000000 "sid-7" 1000 (Some request)
                blank) as Houtcomes.
  cbn zeta in Houtcomes. fold r in Houtcomes.
  destruct Houtcomes as [(_ & Hbroken & _) (_ & _ & Hnone)].
  assert (Auth.status r.1 = 500) as Hstatus.
  { apply Hbroken. split; [reflexivity |]. exists member. split; [reflexivity |].
    intros [_ [fields Hfields]]. discriminate Hfields. }
  split; [exact Hstatus |].
  destruct Hnone as (_ & Hcookie & Hstore); [rewrite Hstatus; discriminate |].
  split; [exact Hcookie | exact Hstore].
Defined.

(** X16. When the vendor does not know the member yet, the signup route
    takes the plan from the request as it stands: the session's best plan
    is the string the client sent, and the subscription endpoint then
    answers with the catalog entry of that plan, quotas included. *)
Theorem signup_plan_unchecked
    (getMember : string → option Member.t) (dateNow : Z) (uuid : string) (now later : Z)
    (request : Auth.SignupRequest) (w : Session.World) (email token plan : string)
    (entry : Catalog.Plan) (upstream : Subscription.Upstream) (today : Subscription.Today) :
  Auth.signup_email request = Some email → email ≠ "" →
  Auth.signup_memberstackToken request = Some token → token ≠ "" →
  getMember email = None →
  Auth.signup_plan request = Some plan → Catalog.PLANS !! plan = Some entry →
  uuid ≠ "" → later ≤ now + Session.SESSION_DURATION_MS →
  let r := Auth.signup getMember dateNow uuid now request w in
  ∃ user sub,
    r.1 = Auth.welcome user
    ∧ User.bestPlanId user = Some plan
    ∧ (Subscription.GET later upstream today r.2).1
      = {| Subscription.status := 200;
           Subscription.body := Subscription.SubscriptionBody true sub |}
    ∧ Subscription.plan_id (Subscription.plan sub) = Some plan
    ∧ Subscription.plan_tier (Subscription.plan sub) = Some (Js.Num (Catalog.tier entry))
    ∧ Subscription.propertyReportsLimit (Subscription.usage sub)
      = Some (Js.Num (Catalog.propertyReports entry))
    ∧ Subscription.suburbReportsLimit (Subscription.usage sub)
      = Some (Js.Num (Catalog.suburbReports entry)).
Proof.
  intros Hemail He Htoken Ht Hby Hplan Hentry Hne Hlater r. subst r.
  destruct (signup_accepted getMember dateNow uuid now request w email token
              Hemail He Htoken Ht) as (user & -> & Huser).
  rewrite Hby, Hplan in Huser. destruct Huser as (_ & _ & _ & Hbest).
  destruct (catalog_entry plan entry Hentry) as (Hid & _).
  assert (plan ≠ "") as Hpne.
  { intros ->. by vm_compute in Hentry. }
  assert (User.bestPlanId user = Some plan) as Hbest'.
  { rewrite Hbest. unfold Auth.orElse, Auth.present.
    apply truthy_spec in Hpne. by rewrite Hpne. }
  assert (Subscription.getPlanDetails (User.bestPlanId user) = Catalog.Entry entry)
    as Hdetails.
  { rewrite Hbest'. unfold Subscription.getPlanDetails.
    apply truthy_spec in Hpne. rewrite Hpne. cbn [negb].
    unfold Catalog.hasProperty, Catalog.get. rewrite Hentry.
    by rewrite bool_decide_eq_true_2 by eauto. }
  destruct (createSession_stored user uuid now w) as [Hc Hs].
  assert (Session.sessions (Session.createSession user uuid now w).2 !! uuid
          = Some (sessionFor user uuid now)) as Hstored.
  { by rewrite Hs, lookup_insert_eq. }
  destruct (GET_after_createSession _ user uuid now later upstream today entry
              Hc Hne Hstored Hlater Hdetails)
    as (sub & Hget & Hpid & _ & Hptier & Hplimit & Hslimit & _).
  exists user, sub. cbn [fst snd]. rewrite Hpid, Hid. by split_and!.
Qed.

(** A signup that names the top plan while the vendor lookup comes back
    empty is answered as a top-tier subscription. *)
Lemma signup_plan_unchecked_example :
  let request := {| Auth.signup_email := Some "new@example.com";
                    Auth.signup_firstName := Some "New"; Auth.signup_lastName := None;
                    Auth.signup_plan := Some "pln_portfolio-builder-fb6b0fzp";
                    Auth.signup_memberstackToken := Some "token" |} in
  let r := Auth.signup nobody 1700000000000 "sid-7" 1000 request blank in
  ∃ sub,
    (Subscription.GET 2000 Subscription.NotOk Sample.today r.2).1
    = {| Subscription.status := 200;
         Subscription.body := Subscription.SubscriptionBody true sub |}
    ∧ Subscription.plan_tier (Subscription.plan sub) = Some (Js.Num 3)
    ∧ Subscription.propertyReportsLimit (Subscription.usage sub) = Some (Js.Num (-1)).
Proof.
  intros request r.
  assert (∃ entry, Catalog.PLANS !! "pln_portfolio-builder-fb6b0fzp" = Some entry
                   ∧ Catalog.tier entry = 3 ∧ Catalog.propertyReports entry = -1)
    as (entry & Hentry & Htier & Hlimit).
  { eexists. split; [by vm_compute | done]. }
  destruct (signup_plan_unchecked nobody 1700000000000 "sid-7" 1000 2000 request blank
              "new@example.com" "token" "pln_portfolio-builder-fb6b0fzp" entry
              Subscription.NotOk Sample.today)
    as (user & sub & _ & _ & Hget & _ & Hptier & Hplimit & _);
    [reflexivity | discriminate | reflexivity | discriminate | reflexivity | reflexivity
    | exact Hentry | discriminate | by vm_compute |].
  exists sub. rewrite Hptier, Hplimit, Htier, Hlimit. by split_and!.
Defined.

(** ** The orders route *)
Section OrdersRoute.
Import Session.

(** The answer of the orders route for a signed-in user. *)
Lemma orders_response backendUrl flask sessionNow emailParam reportCategory w user :
  (getCurrentUser sessionNow w).1 = Some user →
  let email := Auth.orEmpty (Auth.orElse emailParam (Some (User.email user))) in
  (Orders.GET backendUrl flask sessionNow emailParam reportCategory w).1
  = match flask (if Js.truthy email then Some email else None)
                (if Orders.filtering reportCategory then reportCategory else None) with
    | Orders.Array orders =>
        {| Orders.status := 200; Orders.body := Orders.OrdersBody true orders false |}
    | Orders.Object data =>
        {| Orders.status := 200;
           Orders.body := Orders.OrdersBody true (default [] data) false |}
    | _ =>
        {| Orders.status := 200;
           Orders.body :=
             Orders.OrdersBody true
               (map (Orders.withEmail (User.email user))
                  (if Orders.filtering reportCategory
                   then List.filter
                          (λ o, String.eqb (Orders.report_category o)
                                  (Auth.orEmpty reportCategory))
                          (Orders.SAMPLE_ORDERS backendUrl)
                   else Orders.SAMPLE_ORDERS backendUrl))
               true |}
    end.
Proof.
  intros Huser email. subst email. unfold Orders.GET, mbind, M_bind. cbn [fst snd].
  destruct (getCurrentUser sessionNow w) as [u w']. cbn [fst] in Huser. subst u.
  route. destruct (flask _ _) as [| code | orders | [orders|]]; reflexivity.
Qed.

Lemma orders_fetch backendUrl flask sessionNow emailParam reportCategory w user :
  (getCurrentUser sessionNow w).1 = Some user →
  FetchUserOrders (Auth.orEmpty (Auth.orElse emailParam (Some (User.email user))))
  ∈ trace (Orders.GET backendUrl flask sessionNow emailParam reportCategory w).2.
Proof.
  intros Huser. unfold Orders.GET, mbind, M_bind. cbn [fst snd].
  destruct (getCurrentUser sessionNow w) as [u w']. cbn [fst] in Huser. subst u.
  route. destruct (flask _ _) as [| code | orders | [orders|]]; route;
    rewrite !elem_of_app, !list_elem_of_singleton; tauto.
Qed.

End OrdersRoute.

(** X17. The orders route asks the backend for the email of the query
    string when there is one, and for the signed-in user's own email only
    otherwise; what an [ok] backend answers is passed on as it is.  The
    email asked for is never compared with the session's. *)
Theorem orders_for_requested_email
    (backendUrl : string) (flask : option string → option string → Orders.Upstream)
    (sessionNow : Z) (emailParam reportCategory : option string) (w : Session.World)
    (user : User.t) :
  (Session.getCurrentUser sessionNow w).1 = Some user →
  let r := Orders.GET backendUrl flask sessionNow emailParam reportCategory w in
  let category := if Orders.filtering reportCategory then reportCategory else None in
  (∀ requested orders,
     emailParam = Some requested → requested ≠ "" →
     flask (Some requested) category = Orders.Array orders →
     r.1 = {| Orders.status := 200; Orders.body := Orders.OrdersBody true orders false |}
     ∧ Session.FetchUserOrders requested ∈ Session.trace r.2)
  ∧ (∀ orders,
       Auth.present emailParam = false → User.email user ≠ "" →
       flask (Some (User.email user)) category = Orders.Array orders →
       r.1 = {| Orders.status := 200; Orders.body := Orders.OrdersBody true orders false |}
       ∧ Session.FetchUserOrders (User.email user) ∈ Session.trace r.2).
Proof.
  intros Huser r category. subst r category.
  pose proof (orders_response backendUrl flask sessionNow emailParam reportCategory w user
                Huser) as Hresponse.
  pose proof (orders_fetch backendUrl flask sessionNow emailParam reportCategory w user
                Huser) as Hfetch.
  cbn zeta in Hresponse. split.
  - intros requested orders -> Hne Hflask. apply truthy_spec in Hne.
    unfold Auth.orElse, Auth.present in Hresponse, Hfetch. rewrite Hne in Hresponse, Hfetch.
    cbn [Auth.orEmpty] in Hresponse, Hfetch. rewrite Hne, Hflask in Hresponse. by split.
  - intros orders Habsent Hne Hflask. apply truthy_spec in Hne.
    unfold Auth.orElse in Hresponse, Hfetch. rewrite Habsent in Hresponse, Hfetch.
    cbn [Auth.orEmpty] in Hresponse, Hfetch. rewrite Hne, Hflask in Hresponse. by split.
Qed.

(** Ada is signed in and asks for the orders of somebody else. *)
Lemma orders_for_requested_email_example :
  let theirs := [ {| Orders.order_id := "ORD-9"; Orders.user_email := "other@example.com";
                     Orders.client := "Direct"; Orders.report_category := "Suburb";
                     Orders.location := "Ryde, NSW"; Orders.pdf_report := "";
                     Orders.url := "/suburb-reports/Ryde"; Orders.date := "01-11-2026" |} ] in
  let flask := λ email (category : option string),
                 match email with
                 | Some "other@example.com" => Orders.Array theirs
                 | _ => Orders.Array []
                 end in
  (Orders.GET "http://localhost:2025" flask 1000 (Some "other@example.com") None
     (Sample.signedIn None)).1
  = {| Orders.status := 200; Orders.body := Orders.OrdersBody true theirs false |}.
Proof.
  intros theirs flask.
  destruct (orders_for_requested_email "http://localhost:2025" flask 1000
              (Some "other@example.com") None (Sample.signedIn None)
              (asSeenBySession "sid-1"
                 {| User.id := ""; User.email := "member@example.com";
                    User.firstName := "Ada"; User.lastName := "Lee";
                    User.activePlans := []; User.bestPlanId := None;
                    User.memberstackId := "mem_1" |})) as [Hrequested _].
  - by vm_compute.
  - by destruct (Hrequested "other@example.com" theirs) as [Hr _].
Defined.

(** X18. When the backend cannot be reached or answers with an error, the
    orders route falls back to sample orders and says so: each of them
    carries the signed-in user's email, and with a category filter each
    has that category; without one all five come back. *)
Theorem orders_fallback
    (backendUrl : string) (flask : option string → option string → Orders.Upstream)
    (sessionNow : Z) (emailParam reportCategory : option string) (w : Session.World)
    (user : User.t) :
  (Session.getCurrentUser sessionNow w).1 = Some user →
  (∀ email category, flask email category = Orders.Rejected
                     ∨ ∃ code, flask email category = Orders.NotOk code) →
  ∃ orders,
    (Orders.GET backendUrl flask sessionNow emailParam reportCategory w).1
    = {| Orders.status := 200; Orders.body := Orders.OrdersBody true orders true |}
    ∧ (∀ o, o ∈ orders → Orders.user_email o = User.email user)
    ∧ (∀ o, o ∈ orders →
         ∃ sample, sample ∈ Orders.SAMPLE_ORDERS backendUrl
                   ∧ o = Orders.withEmail (User.email user) sample)
    ∧ (∀ category, reportCategory = Some category → category ≠ "" → category ≠ "All" →
         ∀ o, o ∈ orders → Orders.report_category o = category)
    ∧ (Orders.filtering reportCategory = false → length orders = 5%nat).
Proof.
  intros Huser Hdown.
  pose proof (orders_response backendUrl flask sessionNow emailParam reportCategory w user
                Huser) as Hresponse.
  cbn zeta in Hresponse. eexists. split.
  - rewrite Hresponse.
    by destruct (Hdown
                   (if Js.truthy (Auth.orEmpty (Auth.orElse emailParam
                                                  (Some (User.email user))))
                    then Some (Auth.orEmpty (Auth.orElse emailParam
                                               (Some (User.email user))))
                    else None)
                   (if Orders.filtering reportCategory then reportCategory else None))
      as [-> | [code ->]].
  - split_and!.
    + intros o Ho. apply list_elem_of_fmap in Ho as (sample & -> & _). done.
    + intros o Ho. apply list_elem_of_fmap in Ho as (sample & -> & Hsample).
      exists sample. split; [| done].
      destruct (Orders.filtering reportCategory); [| done].
      apply list_elem_of_In, filter_In in Hsample as [Hsample _]. by apply list_elem_of_In.
    + intros category -> Hne Hall o Ho.
      apply list_elem_of_fmap in Ho as (sample & -> & Hsample).
      assert (Orders.filtering (Some category) = true) as Hfiltering.
      { unfold Orders.filtering, Auth.present. apply truthy_spec in Hne. rewrite Hne.
        cbn [Auth.orEmpty andb]. apply negb_true_iff. by apply String.eqb_neq. }
      rewrite Hfiltering in Hsample.
      apply list_elem_of_In, filter_In in Hsample as [_ Hcategory].
      by apply String.eqb_eq in Hcategory.
    + intros ->. by rewrite length_map.
Qed.

Lemma orders_fallback_example :
  ∃ orders,
    (Orders.GET "http://localhost:2025" (λ _ _, Orders.NotOk 502) 1000 None (Some "Property")
       (Sample.signedIn None)).1
    = {| Orders.status := 200; Orders.body := Orders.OrdersBody true orders true |}
    ∧ map Orders.order_id orders = ["ORD-2024-002"; "ORD-2024-004"]
    ∧ map Orders.user_email orders = ["member@example.com"; "member@example.com"].
Proof.
  destruct (orders_fallback "http://localhost:2025" (λ _ _, Orders.NotOk 502) 1000 None
              (Some "Property") (Sample.signedIn None)
              (asSeenBySession "sid-1"
                 {| User.id := ""; User.email := "member@example.com";
                    User.firstName := "Ada"; User.lastName := "Lee";
                    User.activePlans := []; User.bestPlanId := None;
                    User.memberstackId := "mem_1" |})) as (orders & Hr & _).
  - by vm_compute.
  - intros email category. right. by exists 502.
  - exists orders. split; [exact Hr |].
    assert (Orders.body
              (Orders.GET "http://localhost:2025" (λ _ _, Orders.NotOk 502) 1000 None
                 (Some "Property") (Sample.signedIn None)).1
            = Orders.OrdersBody true orders true) as Hbody by (by rewrite Hr).
    vm_compute in Hbody. injection Hbody as <-. by split.
Defined.

(** ** More on the subscription endpoint *)
Section SubscriptionMore.
Import Subscription.

(** [split] cuts at every separator: one piece more than separators. *)
Lemma length_splitFrom (sep : ascii) (s cur : string) :
  length (Js.splitFrom sep cur s) = S (occurrences sep s).
Proof.
  revert cur. induction s as [|c s IH]; intros cur; [done |].
  cbn [Js.splitFrom occurrences]. destruct (Ascii.eqb c sep); cbn [length]; by rewrite IH.
Qed.

(** A date with fewer than two hyphens has no year to read. *)
Lemma inCurrentMonth_few_hyphens today order :
  (occurrences "-" (date order) < 2)%nat → inCurrentMonth today order = false.
Proof.
  intros Hfew. unfold inCurrentMonth, Js.split.
  assert (map Js.Number (Js.splitFrom "-" "" (date order)) !! 2%nat = None) as ->.
  { apply lookup_ge_None. rewrite length_map, length_splitFrom. lia. }
  done.
Qed.

Lemma usageOf_nonneg today upstream :
  0 ≤ (usageOf today upstream).1 ∧ 0 ≤ (usageOf today upstream).2.
Proof.
  destruct upstream; cbn [usageOf fst snd]; [lia | lia | apply countOrders_nonneg].
Qed.

End SubscriptionMore.

(** X19. The feature flags of a subscription response follow the tier by
    two thresholds and nothing else: CSV export and both finders are
    unlimited from tier 2 on, priority support from tier 3 on; so priority
    support never comes without CSV export.  A response without a tier has
    every flag off. *)
Theorem feature_flags_follow_tier sessionNow upstream today w sub :
  Subscription.body (Subscription.GET sessionNow upstream today w).1
  = Subscription.SubscriptionBody true sub →
  let f := Subscription.features sub in
  (∀ tier, Subscription.plan_tier (Subscription.plan sub) = Some (Js.Num tier) →
     (Subscription.csvExport f = true ↔ 2 ≤ tier)
     ∧ (Subscription.prioritySupport f = true ↔ 3 ≤ tier)
     ∧ (Subscription.suburbFinder f = Subscription.unlimited ↔ 2 ≤ tier)
     ∧ (Subscription.propertyFinder f = Subscription.unlimited ↔ 2 ≤ tier))
  ∧ (Subscription.plan_tier (Subscription.plan sub) = None →
     Subscription.csvExport f = false ∧ Subscription.prioritySupport f = false
     ∧ Subscription.suburbFinder f = Subscription.limited
     ∧ Subscription.propertyFinder f = Subscription.limited)
  ∧ (Subscription.prioritySupport f = true → Subscription.csvExport f = true).
Proof.
  intros Hbody f. subst f.
  destruct (GET_subscription_inv _ _ _ _ _ Hbody) as (user & Huser & [[entry Hplan] | [key Hplan]]).
  - rewrite (GET_entry _ upstream today _ _ _ Huser Hplan) in Hbody.
    cbn [Subscription.body] in Hbody. injection Hbody as <-.
    cbn [Subscription.features Subscription.plan Subscription.plan_tier Subscription.csvExport
         Subscription.prioritySupport Subscription.suburbFinder Subscription.propertyFinder].
    split_and!.
    + intros tier [= <-]. rewrite !Z.leb_le.
      destruct (Z.leb_spec 3 (Catalog.tier entry)), (Z.leb_spec 2 (Catalog.tier entry));
        cbn [orb]; split_and!; split; (done || lia).
    + done.
    + rewrite !Z.leb_le. lia.
  - rewrite (GET_inherited _ upstream today _ _ _ Huser Hplan) in Hbody.
    cbn [Subscription.body] in Hbody. injection Hbody as <-. by split_and!.
Qed.

Lemma feature_flags_follow_tier_example :
  ∃ sub,
    Subscription.body
      (Subscription.GET 1000 Subscription.NotOk Sample.today
         (Sample.signedIn (Some "pln_essentials-vb1k04zy"))).1
    = Subscription.SubscriptionBody true sub
    ∧ Subscription.csvExport (Subscription.features sub) = false
    ∧ Subscription.prioritySupport (Subscription.features sub) = false.
Proof.
  eexists. split; [by vm_compute |].
  lazymatch goal with
  | |- Subscription.csvExport (Subscription.features ?s) = _ ∧ _ =>
      assert (Subscription.body
                (Subscription.GET 1000 Subscription.NotOk Sample.today
                   (Sample.signedIn (Some "pln_essentials-vb1k04zy"))).1
              = Subscription.SubscriptionBody true s) as Hbody by (by vm_compute);
      destruct (feature_flags_follow_tier _ _ _ _ _ Hbody) as (Htier & _ & _)
  end.
  destruct (Htier 1 eq_refl) as (Hcsv & Hpriority & _).
  split; apply not_true_is_false; rewrite ?Hcsv, ?Hpriority; lia.
Defined.

(** X20. The quotas of a subscription response are consistent.  A limit
    is -1 or a count, and usage is a count.  For a metered plan what is
    left lies between 0 and the limit and is the limit less the usage as
    long as usage does not exceed it.  When the orders cannot be fetched
    usage is reported as zero and the whole limit as left. *)
Theorem quota_consistency sessionNow upstream today w sub :
  Subscription.body (Subscription.GET sessionNow upstream today w).1
  = Subscription.SubscriptionBody true sub →
  let u := Subscription.usage sub in
  0 ≤ Subscription.propertyReportsUsed u ∧ 0 ≤ Subscription.suburbReportsUsed u
  ∧ (∀ limit, Subscription.propertyReportsLimit u = Some (Js.Num limit) →
       -1 ≤ limit
       ∧ ∃ left, Subscription.propertyReportsLeft u = Js.Num left
                 ∧ (limit ≠ -1 → 0 ≤ left ≤ limit
                    ∧ (Subscription.propertyReportsUsed u ≤ limit →
                       left = limit - Subscription.propertyReportsUsed u))
                 ∧ (Subscription.propertyReportsUsed u = 0 → left = limit))
  ∧ (∀ limit, Subscription.suburbReportsLimit u = Some (Js.Num limit) →
       -1 ≤ limit
       ∧ ∃ left, Subscription.suburbReportsLeft u = Js.Num left
                 ∧ (limit ≠ -1 → 0 ≤ left ≤ limit
                    ∧ (Subscription.suburbReportsUsed u ≤ limit →
                       left = limit - Subscription.suburbReportsUsed u))
                 ∧ (Subscription.suburbReportsUsed u = 0 → left = limit))
  ∧ ((upstream = Subscription.Rejected ∨ upstream = Subscription.NotOk) →
       Subscription.propertyReportsUsed u = 0 ∧ Subscription.suburbReportsUsed u = 0).
Proof.
  intros Hbody u. subst u.
  destruct (GET_usage _ _ _ _ _ Hbody) as [Hpused Hsused].
  destruct (usageOf_nonneg today upstream) as [Hp0 Hs0].
  destruct (GET_subscription_inv _ _ _ _ _ Hbody) as (user & Huser & [[entry Hplan] | [key Hplan]]).
  - destruct (catalog_entry _ _ (getPlanDetails_entry _ _ Hplan)) as (_ & _ & Hsl & Hpl & _).
    rewrite (GET_entry _ upstream today _ _ _ Huser Hplan) in Hbody.
    cbn [Subscription.body] in Hbody. injection Hbody as <-.
    cbn [Subscription.usage Subscription.propertyReportsLimit Subscription.propertyReportsLeft
         Subscription.propertyReportsUsed Subscription.suburbReportsLimit
         Subscription.suburbReportsLeft Subscription.suburbReportsUsed] in *.
    unfold remaining. split_and!; [done | done | | |].
    + intros limit [= <-]. split; [done |]. eexists. split; [done |].
      case_decide; split; intros; lia.
    + intros limit [= <-]. split; [done |]. eexists. split; [done |].
      case_decide; split; intros; lia.
    + intros [-> | ->]; done.
  - rewrite (GET_inherited _ upstream today _ _ _ Huser Hplan) in Hbody.
    cbn [Subscription.body] in Hbody. injection Hbody as <-.
    cbn [Subscription.usage Subscription.propertyReportsLimit Subscription.propertyReportsLeft
         Subscription.propertyReportsUsed Subscription.suburbReportsLimit
         Subscription.suburbReportsLeft Subscription.suburbReportsUsed] in *.
    split_and!; [done | done | done | done |]. intros [-> | ->]; done.
Qed.

(** The backend is down: an Advanced member is shown the full quotas. *)
Lemma quota_consistency_example :
  ∃ sub,
    Subscription.body
      (Subscription.GET 1000 Subscription.Rejected Sample.today
         (Sample.signedIn (Some "pln_advanced-ni690fz3"))).1
    = Subscription.SubscriptionBody true sub
    ∧ Subscription.propertyReportsLeft (Subscription.usage sub) = Js.Num 30.
Proof.
  eexists. split; [by vm_compute |].
  lazymatch goal with
  | |- Subscription.propertyReportsLeft (Subscription.usage ?s) = _ =>
      assert (Subscription.body
                (Subscription.GET 1000 Subscription.Rejected Sample.today
                   (Sample.signedIn (Some "pln_advanced-ni690fz3"))).1
              = Subscription.SubscriptionBody true s) as Hbody by (by vm_compute);
      destruct (quota_consistency _ _ _ _ _ Hbody) as (_ & _ & Hproperty & _ & Hdown)
  end.
  destruct (Hproperty 30 eq_refl) as (_ & left & Hleft & _ & Hfull).
  destruct Hdown as [Hused _]; [by left |].
  rewrite Hleft. f_equal. by apply Hfull.
Defined.

(** X21. An order is left out of the usage count whenever its date has
    fewer than two hyphens, so that there is no third piece to read as the
    year, or its category is neither [Property] nor [Suburb]: the response
    is the same with and without it in the history. *)
Theorem uncounted_orders
    sessionNow today w before after order sub sub' :
  (occurrences "-" (Subscription.date order) < 2)%nat
  ∨ (Subscription.report_category order ≠ "Property"
     ∧ Subscription.report_category order ≠ "Suburb") →
  Subscription.body
    (Subscription.GET sessionNow (Subscription.Orders (before ++ order :: after)) today w).1
  = Subscription.SubscriptionBody true sub →
  Subscription.body
    (Subscription.GET sessionNow (Subscription.Orders (before ++ after)) today w).1
  = Subscription.SubscriptionBody true sub' →
  Subscription.propertyReportsUsed (Subscription.usage sub)
  = Subscription.propertyReportsUsed (Subscription.usage sub')
  ∧ Subscription.suburbReportsUsed (Subscription.usage sub)
    = Subscription.suburbReportsUsed (Subscription.usage sub').
Proof.
  intros Hwhy Hwith Hwithout.
  destruct (GET_usage _ _ _ _ _ Hwith) as [-> ->].
  destruct (GET_usage _ _ _ _ _ Hwithout) as [-> ->].
  cbn [usageOf]. rewrite !countOrders_app, countOrders_cons. cbn [fst snd].
  assert (Subscription.countOrder today (0, 0) order = (0, 0)) as ->.
  { unfold Subscription.countOrder. destruct Hwhy as [Hfew | [Hp Hs]].
    - by rewrite inCurrentMonth_few_hyphens.
    - apply String.eqb_neq in Hp, Hs. rewrite Hp, Hs.
      by destruct (Subscription.inCurrentMonth today order). }
  cbn [fst snd]. split; lia.
Qed.

(** An order dated with slashes is not counted. *)
Lemma uncounted_orders_example :
  let odd := Sample.order "Property" "01/11/2026" in
  let counted := Sample.order "Property" "01-11-2026" in
  let w := Sample.signedIn (Some "pln_essentials-vb1k04zy") in
  ∃ sub sub',
    Subscription.body
      (Subscription.GET 1000 (Subscription.Orders ([counted] ++ odd :: [])) Sample.today w).1
    = Subscription.SubscriptionBody true sub
    ∧ Subscription.body
        (Subscription.GET 1000 (Subscription.Orders ([counted] ++ [])) Sample.today w).1
      = Subscription.SubscriptionBody true sub'
    ∧ Subscription.propertyReportsUsed (Subscription.usage sub)
      = Subscription.propertyReportsUsed (Subscription.usage sub').
Proof.
  intros odd counted w. eexists. eexists.
  split; [by vm_compute |]. split; [by vm_compute |].
  assert ((occurrences "-" (Subscription.date odd) < 2)%nat) as Hfew by (cbn; lia).
  refine (proj1 (uncounted_orders 1000 Sample.today w [counted] [] odd _ _
                   (or_introl Hfew) _ _)); by vm_compute.
Defined.

(** ** The helpers of the property search *)
Section PropertyHelpers.
Import PropertySearch.

Lemma length_toUpperCase (s : string) : String.length (toUpperCase s) = String.length s.
Proof. induction s as [|c s IH]; cbn; [done | by rewrite IH]. Qed.

Lemma length_substring (n m : nat) (s : string) :
  (n + m ≤ String.length s)%nat → String.length (String.substring n m s) = m.
Proof.
  revert n m. induction s as [|c s IH]; intros n m Hlen; cbn in Hlen.
  - assert (n = 0%nat ∧ m = 0%nat) as [-> ->] by lia. done.
  - destruct n as [|n]; cbn.
    + destruct m as [|m]; [done |]. cbn. f_equal. apply (IH 0%nat). cbn. lia.
    + apply IH. lia.
Qed.

(** [stateMap] sends each of its keys to itself. *)
Lemma stateMap_identity (code state : string) : stateMap !! code = Some state → state = code.
Proof.
  intros Hin. apply elem_of_list_to_map_2 in Hin.
  repeat (apply elem_of_cons in Hin as [[= -> ->] | Hin]); try done.
  by apply elem_of_nil in Hin.
Qed.

Lemma parseStateFromId_long (gnafId : string) :
  (5 ≤ String.length gnafId)%nat →
  parseStateFromId gnafId = toUpperCase (substring 2 5 gnafId).
Proof.
  intros Hlen. unfold parseStateFromId.
  assert (Js.truthy gnafId = true) as ->.
  { destruct gnafId; [cbn in Hlen; lia | done]. }
  assert ((String.length gnafId <? 5)%nat = false) as -> by (by apply Nat.ltb_ge).
  cbn [negb orb].
  destruct (stateMap !! _) as [state|] eqn:Hstate; [| done].
  apply stateMap_identity in Hstate as ->. by destruct (Js.truthy _).
Qed.

Lemma occurrences_append (c : ascii) (s t : string) :
  occurrences c (s ++ t) = (occurrences c s + occurrences c t)%nat.
Proof.
  induction s as [|x s IH]; [done |]. rewrite append_cons. cbn [occurrences].
  rewrite IH. lia.
Qed.

Lemma splitFrom_nonempty (sep : ascii) (cur s : string) : Js.splitFrom sep cur s ≠ [].
Proof.
  intros Hnil. pose proof (length_splitFrom sep s cur) as Hlen. by rewrite Hnil in Hlen.
Qed.

(** The last piece of a split holds no separator. *)
Lemma last_splitFrom (sep : ascii) (s cur d : string) :
  occurrences sep cur = 0%nat →
  occurrences sep (List.last (Js.splitFrom sep cur s) d) = 0%nat.
Proof.
  revert cur. induction s as [|c s IH]; intros cur Hcur; [done |].
  cbn [Js.splitFrom]. destruct (Ascii.eqb c sep) eqn:Hc.
  - pose proof (splitFrom_nonempty sep "" s) as Hne.
    destruct (Js.splitFrom sep "" s) as [|piece pieces] eqn:Hsplit; [done |].
    change (List.last (cur :: piece :: pieces) d) with (List.last (piece :: pieces) d).
    rewrite <- Hsplit. by apply IH.
  - apply IH. rewrite occurrences_append, Hcur. cbn [occurrences]. by rewrite Hc.
Qed.

Lemma occurrences_trimStart (c : ascii) (s : string) :
  (occurrences c (trimStart s) ≤ occurrences c s)%nat.
Proof.
  induction s as [|x s IH]; [done |]. cbn [trimStart].
  destruct (isWhiteSpace x); [cbn [occurrences]; lia | done].
Qed.

Lemma occurrences_trimEnd (c : ascii) (s : string) :
  (occurrences c (trimEnd s) ≤ occurrences c s)%nat.
Proof.
  induction s as [|x s IH]; [done |]. cbn [trimEnd].
  destruct (trimEnd s) as [|y kept].
  - destruct (isWhiteSpace x); cbn [occurrences]; lia.
  - cbn [occurrences] in *. lia.
Qed.

Lemma trimEnd_idempotent (s : string) : trimEnd (trimEnd s) = trimEnd s.
Proof.
  induction s as [|x s IH]; [done |]. cbn [trimEnd].
  destruct (trimEnd s) as [|y kept] eqn:Hs.
  - destruct (isWhiteSpace x) eqn:Hx; [done |]. cbn [trimEnd]. by rewrite Hx.
  - cbn [trimEnd]. cbn [trimEnd] in IH. by rewrite IH.
Qed.

(** What [trimStart] leaves is empty or starts with a character that is
    not white space. *)
Lemma trimStart_head (s : string) :
  trimStart s = "" ∨ ∃ c rest, trimStart s = String c rest ∧ isWhiteSpace c = false.
Proof.
  induction s as [|x s IH]; [by left |]. cbn [trimStart].
  destruct (isWhiteSpace x) eqn:Hx; [done |]. right. by exists x, s.
Qed.

Lemma trimStart_trimEnd (c : ascii) (rest : string) :
  isWhiteSpace c = false →
  trimStart (trimEnd (String c rest)) = trimEnd (String c rest).
Proof.
  intros Hc. cbn [trimEnd].
  destruct (trimEnd rest); rewrite ?Hc; cbn [trimStart]; by rewrite Hc.
Qed.

Lemma trim_idempotent (s : string) : trim (trim s) = trim s.
Proof.
  unfold trim. destruct (trimStart_head s) as [-> | (c & rest & -> & Hc)]; [done |].
  by rewrite trimStart_trimEnd, trimEnd_idempotent.
Qed.

End PropertyHelpers.

(** X22. [parseStateFromId] answers the empty string for an id of fewer
    than five characters and otherwise the third to fifth characters in
    upper case, always three characters for an id of ASCII characters: the
    table it consults changes nothing, and the two-letter states WA, SA and
    NT are never answered. *)
Theorem parseStateFromId_three_letters (gnafId : string) :
  ((String.length gnafId < 5)%nat → PropertySearch.parseStateFromId gnafId = "")
  ∧ ((5 ≤ String.length gnafId)%nat →
     PropertySearch.parseStateFromId gnafId
     = PropertySearch.toUpperCase (PropertySearch.substring 2 5 gnafId)
     ∧ String.length (PropertySearch.parseStateFromId gnafId) = 3%nat)
  ∧ PropertySearch.parseStateFromId gnafId ∉ ["WA"; "SA"; "NT"].
Proof.
  assert ((5 ≤ String.length gnafId)%nat →
          String.length (PropertySearch.parseStateFromId gnafId) = 3%nat) as Hthree.
  { intros Hlen. rewrite parseStateFromId_long, length_toUpperCase by done.
    apply length_substring. lia. }
  assert ((String.length gnafId < 5)%nat → PropertySearch.parseStateFromId gnafId = "")
    as Hshort.
  { intros Hlen. unfold PropertySearch.parseStateFromId.
    apply Nat.ltb_lt in Hlen. rewrite Hlen. by rewrite orb_true_r. }
  split_and!; [done | by intros Hlen; split; [apply parseStateFromId_long | apply Hthree] |].
  destruct (Nat.lt_ge_cases (String.length gnafId) 5) as [Hlen | Hlen].
  - rewrite Hshort by done. rewrite !not_elem_of_cons. split_and!; try done.
    apply not_elem_of_nil.
  - specialize (Hthree Hlen). intros Hin.
    repeat (apply elem_of_cons in Hin as [Heq | Hin]; [by rewrite Heq in Hthree |]).
    by apply elem_of_nil in Hin.
Qed.

(** X23. [parseSuburbFromAddress] answers the empty string for a display
    name without a comma, and otherwise what follows the last comma,
    trimmed: the answer holds no comma and no white space at either end. *)
Theorem parseSuburbFromAddress_clean (displayName : string) :
  (occurrences "," displayName = 0%nat →
   PropertySearch.parseSuburbFromAddress displayName = "")
  ∧ ((0 < occurrences "," displayName)%nat →
     PropertySearch.parseSuburbFromAddress displayName
     = PropertySearch.trim (List.last (Js.split "," displayName) ""))
  ∧ occurrences "," (PropertySearch.parseSuburbFromAddress displayName) = 0%nat
  ∧ PropertySearch.trim (PropertySearch.parseSuburbFromAddress displayName)
    = PropertySearch.parseSuburbFromAddress displayName.
Proof.
  unfold PropertySearch.parseSuburbFromAddress, Js.split.
  rewrite length_splitFrom.
  destruct (occurrences "," displayName) as [|n] eqn:Hcommas.
  - cbn [Nat.ltb Nat.leb]. split_and!; [done | intros; lia | done | done].
  - assert ((1 <? S (S n))%nat = true) as -> by (by apply Nat.ltb_lt; lia).
    split_and!; [done | done | | apply trim_idempotent].
    pose proof (last_splitFrom "," displayName "" "" eq_refl) as Hlast.
    pose proof (occurrences_trimEnd ","
                  (PropertySearch.trimStart (List.last (Js.splitFrom "," "" displayName) "")))
      as Hend.
    pose proof (occurrences_trimStart "," (List.last (Js.splitFrom "," "" displayName) ""))
      as Hstart.
    unfold PropertySearch.trim. lia.
Qed.

(** ** The region search *)
Section Regions.
Import RegionSearch.

Lemma known_names_distinct : NoDup (map fst KNOWN_REGIONS).
Proof. apply (bool_decide_unpack _). by vm_compute. Qed.

Lemma hasName_spec (regions : list Region) (n : string) :
  hasName regions n = true ↔ n ∈ map name regions.
Proof.
  unfold hasName. rewrite existsb_exists, list_elem_of_fmap. split.
  - intros (r & Hr & Heq). apply String.eqb_eq in Heq. exists r.
    split; [done | by apply list_elem_of_In].
  - intros (r & -> & Hr). exists r. split; [by apply list_elem_of_In | apply String.eqb_refl].
Qed.

Lemma filter_fst_sublist {A B} (p : A * B → bool) (l : list (A * B)) :
  map fst (List.filter p l) `sublist_of` map fst l.
Proof.
  induction l as [|x l IH]; [done |]. cbn [List.filter map].
  destruct (p x); [by apply sublist_skip | by apply sublist_cons].
Qed.

Lemma matches_sublist (p : string * string → bool) (n : nat) (table : list (string * string)) :
  map name
    (take n (map (λ entry, {| name := entry.1; type := "SA3"; state := entry.2 |})
               (List.filter p table)))
  `sublist_of` map fst table.
Proof.
  transitivity (map fst (List.filter p table)); [| apply filter_fst_sublist].
  generalize (List.filter p table). intros l. revert n.
  induction l as [|x l IH]; intros [|n]; cbn [map take fst name];
    try apply sublist_nil_l.
  - apply sublist_skip, IH.
Qed.

(** The regions found in the table, by the query and the state. *)
Lemma known_matches_distinct (p : string * string → bool) (n : nat) :
  NoDup (map name
           (take n (map (λ entry, {| name := entry.1; type := "SA3"; state := entry.2 |})
                      (List.filter p KNOWN_REGIONS)))).
Proof.
  eapply sublist_NoDup; [apply known_names_distinct | apply matches_sublist].
Qed.

Lemma pushNew_distinct (regions : list Region) (region : Region) :
  NoDup (map name regions) → NoDup (map name (pushNew regions region)).
Proof.
  intros Hdistinct. unfold pushNew.
  destruct (hasName regions (name region)) eqn:Hhas; cbn [negb]; [done |].
  rewrite map_app. apply NoDup_app. split_and!; [done | | by apply NoDup_singleton].
  intros n Hn. cbn [map]. rewrite list_elem_of_singleton. intros ->.
  apply hasName_spec in Hn. congruence.
Qed.

Lemma fold_pushNew_distinct (candidates regions : list Region) :
  NoDup (map name regions) → NoDup (map name (fold_left pushNew candidates regions)).
Proof.
  revert regions. induction candidates as [|c candidates IH]; intros regions Hd; [done |].
  cbn [fold_left]. by apply IH, pushNew_distinct.
Qed.

(** [push] only appends, and only what it was given. *)
Lemma fold_pushNew_appends (candidates regions : list Region) :
  ∃ extras, fold_left pushNew candidates regions = (regions ++ extras)%list
            ∧ ∀ r, r ∈ extras → r ∈ candidates.
Proof.
  revert regions. induction candidates as [|c candidates IH]; intros regions.
  - exists []. by rewrite app_nil_r.
  - cbn [fold_left]. destruct (IH (pushNew regions c)) as (extras & -> & Hextras).
    unfold pushNew. destruct (negb _).
    + exists (c :: extras). split; [by rewrite <- app_assoc |].
      intros r [-> | Hr]%elem_of_cons; [apply list_elem_of_here |].
      by apply list_elem_of_further, Hextras.
    + exists extras. split; [done |]. intros r Hr. by apply list_elem_of_further, Hextras.
Qed.

(** What is collected comes from the suburbs of the backend's answer. *)
Lemma fold_collect_origin (known : list Region) (found : list Suburb) (acc : list Region)
    (r : Region) :
  r ∈ fold_left (collect known) found acc →
  r ∈ acc
  ∨ ∃ suburb, suburb ∈ found ∧ sa3 suburb = Some (name r) ∧ type r = "SA3"
              ∧ state r = regionState (information_state suburb).
Proof.
  revert acc. induction found as [|suburb found IH]; intros acc; [by left |].
  cbn [fold_left]. intros Hr. destruct (IH _ Hr) as [Hacc | (s & Hs & Hrest)].
  - unfold collect in Hacc.
    destruct (sa3 suburb) as [sa3Name|] eqn:Hsa3; [| by left].
    destruct (Js.truthy sa3Name); [| by left].
    destruct (negb _); [| by left].
    unfold setAdd in Hacc. destruct (existsb _ acc); [by left |].
    apply elem_of_app in Hacc as [Hacc | ->%list_elem_of_singleton]; [by left |].
    right. exists suburb. split; [apply list_elem_of_here | done].
  - right. exists s. split; [by apply list_elem_of_further | done].
Qed.

(** The test of the table filter is [regionMatch]. *)
Lemma regionMatch_test (query state : string) (entry : string * string) :
  Js.includes (Js.toLowerCase entry.1) (Js.toLowerCase query)
  && (negb (Js.truthy state) || String.eqb entry.2 state) = true
  ↔ regionMatch query state entry.
Proof.
  unfold regionMatch. rewrite andb_true_iff, orb_true_iff, negb_true_iff, String.eqb_eq.
  rewrite includes_spec. split; intros [Hname Hstate]; (split; [done |]).
  - destruct Hstate as [Hempty | ->]; [left; by destruct state | by right].
  - destruct Hstate as [-> | ->]; [by left | by right].
Qed.

(** Cutting a filtered list short keeps a beginning of it: an element
    that passes the filter and stands before a kept one is kept. *)
Lemma take_filter_prefix {A} (p : A → bool) (l : list A) (n i j : nat) (a b : A) :
  NoDup l → (i < j)%nat → l !! i = Some a → l !! j = Some b → p a = true →
  b ∈ take n (List.filter p l) → a ∈ take n (List.filter p l).
Proof.
  revert n i j. induction l as [|x l IH]; intros n i j Hdistinct Hij Hi Hj Hp Hb; [done |].
  apply NoDup_cons in Hdistinct as [Hx Hdistinct].
  destruct j as [|j]; [lia |]. cbn in Hj.
  assert (b ≠ x) as Hbx.
  { intros ->. apply Hx. by apply list_elem_of_lookup_2 in Hj. }
  cbn [List.filter] in Hb |- *. destruct i as [|i]; cbn in Hi.
  - injection Hi as ->. rewrite Hp in Hb |- *.
    destruct n as [|n]; [by apply elem_of_nil in Hb | apply list_elem_of_here].
  - destruct (p x).
    + destruct n as [|n]; [by apply elem_of_nil in Hb |]. cbn [take] in Hb |- *.
      apply elem_of_cons in Hb as [Hb | Hb]; [done |].
      apply list_elem_of_further, (IH n i j); [done | lia | done..].
    + apply (IH n i j); [done | lia | done..].
Qed.

Lemma regionOf_take (p : string * string → bool) (n : nat) (table : list (string * string))
    (entry : string * string) :
  regionOf entry
    ∈ take n (map (λ entry, {| name := entry.1; type := "SA3"; state := entry.2 |})
                (List.filter p table))
  ↔ entry ∈ take n (List.filter p table).
Proof.
  change (map ?f ?l) with (f <$> l). rewrite <- fmap_take, list_elem_of_fmap. split.
  - intros ([n' s'] & Heq & Hin). destruct entry as [n'' s''].
    unfold regionOf in Heq. cbn in Heq. by injection Heq as -> ->.
  - intros Hin. by exists entry.
Qed.

(** What the first loop keeps is kept to its end. *)
Lemma setAdd_keeps (regions : list Region) (region r : Region) :
  r ∈ regions → r ∈ setAdd regions region.
Proof.
  intros Hr. unfold setAdd. destruct (existsb _ regions); [done |].
  apply elem_of_app. by left.
Qed.

Lemma setAdd_holds (regions : list Region) (region : Region) :
  ∃ r, r ∈ setAdd regions region ∧ name r = name region.
Proof.
  unfold setAdd. destruct (existsb _ regions) eqn:Hthere.
  - apply existsb_exists in Hthere as (r & Hr & Hsame).
    apply andb_true_iff in Hsame as [Hsame _]. apply andb_true_iff in Hsame as [Hsame _].
    apply String.eqb_eq in Hsame. exists r. split; [by apply list_elem_of_In | done].
  - exists region. split; [| done]. apply elem_of_app. right. apply list_elem_of_here.
Qed.

Lemma collect_keeps (known regions : list Region) (suburb : Suburb) (r : Region) :
  r ∈ regions → r ∈ collect known regions suburb.
Proof.
  intros Hr. unfold collect. destruct (sa3 suburb) as [sa3Name|]; [| done].
  destruct (Js.truthy sa3Name); [| done]. destruct (negb _); [| done].
  by apply setAdd_keeps.
Qed.

Lemma fold_collect_keeps (known : list Region) (found : list Suburb)
    (regions : list Region) (r : Region) :
  r ∈ regions → r ∈ fold_left (collect known) found regions.
Proof.
  revert regions. induction found as [|suburb found IH]; intros regions Hr; [done |].
  cbn [fold_left]. by apply IH, collect_keeps.
Qed.

(** Every SA3 name of the suburbs found that the table did not give is
    collected. *)
Lemma fold_collect_covers (known : list Region) (found : list Suburb)
    (regions : list Region) (suburb : Suburb) (n : string) :
  suburb ∈ found → sa3 suburb = Some n → n ≠ "" → hasName known n = false →
  ∃ r, r ∈ fold_left (collect known) found regions ∧ name r = n.
Proof.
  intros Hin Hsa3 Hne Hnew. apply truthy_spec in Hne. revert regions.
  induction found as [|s found IH]; intros regions; [by apply elem_of_nil in Hin |].
  cbn [fold_left]. apply elem_of_cons in Hin as [<- | Hin]; [| by apply IH].
  unfold collect at 2. rewrite Hsa3, Hne, Hnew. cbn [negb].
  destruct (setAdd_holds regions
              {| name := n; type := "SA3"; state := regionState (information_state suburb) |})
    as (r & Hr & Hname).
  exists r. split; [by apply fold_collect_keeps | done].
Qed.

(** The second loop lists the name of every region it is given. *)
Lemma pushNew_names (regions : list Region) (region : Region) (n : string) :
  n ∈ map name regions ∨ n = name region → n ∈ map name (pushNew regions region).
Proof.
  unfold pushNew. destruct (hasName regions (name region)) eqn:Hhas; cbn [negb].
  - intros [Hn | ->]; [done | by apply hasName_spec].
  - rewrite map_app, elem_of_app. cbn [map]. rewrite list_elem_of_singleton. tauto.
Qed.

Lemma fold_pushNew_names (candidates regions : list Region) (n : string) :
  n ∈ map name regions ∨ n ∈ map name candidates →
  n ∈ map name (fold_left pushNew candidates regions).
Proof.
  revert regions. induction candidates as [|c candidates IH]; intros regions.
  - intros [Hn | Hn]; [done | by apply elem_of_nil in Hn].
  - cbn [fold_left map]. rewrite elem_of_cons. intros [Hn | [-> | Hn]].
    + apply IH. left. apply pushNew_names. by left.
    + apply IH. left. apply pushNew_names. by right.
    + apply IH. by right.
Qed.

End Regions.

(** X24. The region search never lists a region name twice, whatever the
    backend answers: the names of the table are distinct, and a region of
    the backend is appended only under a name not listed yet. *)
Theorem region_names_distinct
    (suburbs : string → RegionSearch.Upstream) (q st : option string) :
  NoDup (map RegionSearch.name (RegionSearch.GET suburbs q st)).
Proof.
  unfold RegionSearch.GET.
  destruct (_ <? 2)%nat; [apply NoDup_nil_2 |].
  destruct (suburbs _) as [| | data].
  - apply known_matches_distinct.
  - apply known_matches_distinct.
  - apply fold_pushNew_distinct, known_matches_distinct.
Qed.

(** X25. The answer of the region search is the matches of the table
    followed by regions of the backend.  A query of fewer than two
    characters is answered with nothing.  Otherwise the matches are the
    first twenty entries of the table whose name contains the query, case
    ignored, and whose state is the one asked for when one is: each listed
    match is such an entry, at most twenty are listed, none is left out
    when fewer than twenty are, and none is passed over for a later one.
    What follows them is taken from the suburbs the backend found, and it
    is neither limited in number nor filtered by state: the SA3 name of
    every suburb found is listed.  A backend that fails adds nothing. *)
Theorem region_search_answer
    (suburbs : string → RegionSearch.Upstream) (q st : option string) :
  let query := Auth.orEmpty (Auth.orElse q (Some "")) in
  let state := Auth.orEmpty (Auth.orElse st (Some "")) in
  ((String.length query < 2)%nat → RegionSearch.GET suburbs q st = [])
  ∧ ((2 ≤ String.length query)%nat →
     ∃ known extras,
       RegionSearch.GET suburbs q st = (known ++ extras)%list
       ∧ (length known ≤ 20)%nat
       ∧ (∀ r, r ∈ known →
            ∃ entry, entry ∈ RegionSearch.KNOWN_REGIONS ∧ r = regionOf entry
                     ∧ regionMatch query state entry)
       ∧ ((length known < 20)%nat →
          ∀ entry, entry ∈ RegionSearch.KNOWN_REGIONS → regionMatch query state entry →
                   regionOf entry ∈ known)
       ∧ (∀ i j earlier later,
            (i < j)%nat → RegionSearch.KNOWN_REGIONS !! i = Some earlier →
            RegionSearch.KNOWN_REGIONS !! j = Some later →
            regionMatch query state earlier → regionOf later ∈ known →
            regionOf earlier ∈ known)
       ∧ (∀ r, r ∈ extras →
            ∃ results suburb,
              suburbs query = RegionSearch.Results (Some results)
              ∧ suburb ∈ results
              ∧ RegionSearch.sa3 suburb = Some (RegionSearch.name r)
              ∧ RegionSearch.type r = "SA3"
              ∧ RegionSearch.state r
                = RegionSearch.regionState (RegionSearch.information_state suburb))
       ∧ (∀ results suburb n,
            suburbs query = RegionSearch.Results (Some results) →
            suburb ∈ results → RegionSearch.sa3 suburb = Some n → n ≠ "" →
            n ∈ map RegionSearch.name (known ++ extras))
       ∧ (suburbs query = RegionSearch.Rejected ∨ suburbs query = RegionSearch.NotOk
          ∨ suburbs query = RegionSearch.Results None → extras = [])).
Proof.
  intros query state. unfold RegionSearch.GET. fold query state. split.
  - intros Hshort. apply Nat.ltb_lt in Hshort. by rewrite Hshort.
  - intros Hlong. apply Nat.ltb_ge in Hlong. rewrite Hlong.
    set (test := λ entry : string * string,
           Js.includes (Js.toLowerCase entry.1) (Js.toLowerCase query)
           && (negb (Js.truthy state) || String.eqb entry.2 state)).
    set (known := take 20 _).
    assert (∀ entry, regionOf entry ∈ known
                     ↔ entry ∈ take 20 (List.filter test RegionSearch.KNOWN_REGIONS))
      as Hlisted.
    { intros entry. apply regionOf_take. }
    assert ((length known ≤ 20)%nat) as Hlen.
    { unfold known. rewrite length_take. lia. }
    assert (∀ r, r ∈ known →
              ∃ entry, entry ∈ RegionSearch.KNOWN_REGIONS ∧ r = regionOf entry
                       ∧ regionMatch query state entry) as Hknown.
    { intros r Hr. unfold known in Hr.
      apply elem_of_take in Hr as (i & Hr & _). apply list_elem_of_lookup_2 in Hr.
      apply list_elem_of_In, in_map_iff in Hr as (entry & <- & Hentry).
      apply filter_In in Hentry as [Hentry Htest].
      exists entry. split_and!; [by apply list_elem_of_In | done |].
      by apply regionMatch_test. }
    assert ((length known < 20)%nat →
            ∀ entry, entry ∈ RegionSearch.KNOWN_REGIONS → regionMatch query state entry →
                     regionOf entry ∈ known) as Hall.
    { intros Hfew entry Hentry Hmatch. apply Hlisted.
      unfold known in Hfew. rewrite length_take, length_map in Hfew.
      rewrite take_ge by lia.
      apply list_elem_of_In, filter_In. split; [by apply list_elem_of_In |].
      by apply regionMatch_test. }
    assert (∀ i j earlier later,
              (i < j)%nat → RegionSearch.KNOWN_REGIONS !! i = Some earlier →
              RegionSearch.KNOWN_REGIONS !! j = Some later →
              regionMatch query state earlier → regionOf later ∈ known →
              regionOf earlier ∈ known) as Hfirst.
    { intros i j earlier later Hij Hi Hj Hmatch Hlater. apply Hlisted.
      apply Hlisted in Hlater.
      apply (take_filter_prefix test _ 20 i j earlier later); try done.
      - apply (NoDup_fmap_1 fst), known_names_distinct.
      - by apply regionMatch_test. }
    clearbody known. clear Hlisted.
    destruct (suburbs query) as [| | data] eqn:Hupstream.
    + exists known, []. rewrite app_nil_r. split_and!; try done.
      intros r Hr. by apply elem_of_nil in Hr.
    + exists known, []. rewrite app_nil_r. split_and!; try done.
      intros r Hr. by apply elem_of_nil in Hr.
    + set (found := match data with Some results => results | None => [] end).
      assert (∀ results suburb n,
                RegionSearch.Results data = RegionSearch.Results (Some results) →
                suburb ∈ results → RegionSearch.sa3 suburb = Some n → n ≠ "" →
                n ∈ map RegionSearch.name
                      (fold_left RegionSearch.pushNew
                         (fold_left (RegionSearch.collect known) found []) known))
        as Hcovered.
      { intros results suburb n [= ->] Hin Hsa3 Hne. apply fold_pushNew_names.
        destruct (RegionSearch.hasName known n) eqn:Hhas.
        - left. by apply hasName_spec.
        - right. destruct (fold_collect_covers known results [] suburb n Hin Hsa3 Hne Hhas)
            as (r & Hr & <-).
          apply list_elem_of_fmap. by exists r. }
      destruct (fold_pushNew_appends
                  (fold_left (RegionSearch.collect known) found []) known)
        as (extras & Hresult & Hextras).
      rewrite Hresult in Hcovered |- *.
      exists known, extras. split_and!; try done.
      * intros r Hr. apply Hextras, fold_collect_origin in Hr as [Hnil | (suburb & Hs & Hrest)].
        { by apply elem_of_nil in Hnil. }
        subst found. destruct data as [results|]; [| by apply elem_of_nil in Hs].
        by exists results, suburb.
      * intros [Hrej | [Hnot | Hnone]]; try done. injection Hnone as ->.
        destruct extras as [|r extras]; [done |].
        assert (r ∈ @nil RegionSearch.Region) as Hr; [| by apply elem_of_nil in Hr].
        apply (Hextras r), list_elem_of_here.
Qed.

(** A search for regions of Victoria: the region of a suburb the backend
    found in New South Wales is listed all the same. *)
Lemma region_search_answer_example :
  let suburb := {| RegionSearch.sa3 := Some "Zetland Flats";
                   RegionSearch.information_state := Some "New South Wales" |} in
  let suburbs := λ _ : string, RegionSearch.Results (Some [suburb]) in
  "Zetland Flats"
    ∈ map RegionSearch.name (RegionSearch.GET suburbs (Some "zet") (Some "VIC")).
Proof.
  intros suburb suburbs.
  destruct (proj2 (region_search_answer suburbs (Some "zet") (Some "VIC")))
    as (known & extras & -> & _ & _ & _ & _ & _ & Hcovered & _).
  - simpl. lia.
  - apply (Hcovered [suburb] suburb "Zetland Flats"); [reflexivity | | reflexivity | discriminate].
    apply list_elem_of_here.
Defined.
